(** * Generalized random forests (grf, multivariate development branch)

    A shallow embedding of the tree trainer ([TreeTrainer.cpp]), the
    regression prediction strategy ([RegressionPredictionStrategy.cpp]) and
    the optimized prediction collector ([OptimizedPredictionCollector.cpp]),
    with the properties of the specification stated and proved over it.

    Conventions of the embedding:
    - a C++ [double] is an IEEE 754 binary64 value, [spec_float] with
      precision 53 and maximal exponent 1024; every arithmetic operation is
      the correctly rounded one of [SpecFloat];
    - a [std::vector] is a list; [v.at(i)] raises [OutOfRange] outside the
      vector, [v[i]] has no defined behaviour there and yields [Undefined];
    - a function that can throw or leave defined behaviour returns a
      [result]; the trainer, which threads its node arrays, the sampler and
      the splitting rule through every call, runs in a state monad over
      [result]. *)

From Stdlib Require Import ZArith List Bool Lia QArith Qabs.
From Stdlib Require Import Floats.SpecFloat.
From stdpp Require Import base list option strings pretty gmap.

Set Default Proof Using "Type".

(** ** IEEE 754 binary64 *)

Module Double.

Definition double : Type := spec_float.

Definition prec : Z := 53.
Definition emax : Z := 1024.

Definition add : double → double → double := SFadd prec emax.
Definition sub : double → double → double := SFsub prec emax.
Definition mul : double → double → double := SFmul prec emax.
Definition div : double → double → double := SFdiv prec emax.

(** C++ [==], [!=], [<=] and [>] on doubles. [neb] is the negation of
    [eqb], so it holds whenever an operand is NaN. *)
Definition eqb : double → double → bool := SFeqb.
Definition neb (x y : double) : bool := negb (SFeqb x y).
Definition leb : double → double → bool := SFleb.
Definition gtb (x y : double) : bool := SFltb y x.

(** Conversion of an integer value ([size_t], [uint], an integer literal)
    to [double], rounding to nearest even. *)
Definition of_Z (z : Z) : double := binary_normalize prec emax z 0 false.

Definition zero : double := S754_zero false.
Definition nan : double := S754_nan.

Definition is_nan (x : double) : bool :=
  match x with S754_nan => true | _ => false end.

(** The double denoted by the decimal literal [m * 10^-k]: both [m] and
    [10^k] are exactly representable for the literals used here, and the
    division is correctly rounded. *)
Definition dec (m : Z) (k : nat) : double :=
  div (of_Z m) (of_Z (10 ^ Z.of_nat k)).

(** The rational number that a finite double denotes. *)
Definition to_Q (x : double) : Q :=
  match x with
  | S754_finite s m e =>
      let v := match e with
               | Zneg p => Qmake (Zpos m) (2 ^ p)
               | _ => inject_Z (Zpos m * 2 ^ e)
               end in
      if s then Qopp v else v
  | _ => 0%Q
  end.

End Double.

Abbreviation double := Double.double.

(** ** Exceptions and undefined behaviour *)

Inductive exn : Type :=
| OutOfRange                      (* std::out_of_range, thrown by at() *)
| RuntimeError (what : string)    (* std::runtime_error *)
| Undefined                       (* the C++ or Eigen contract is left *)
| OutOfFuel.                      (* the bound of a modelled loop is reached *)

Inductive result (A : Type) : Type :=
| Ok (a : A)
| Raise (e : exn).

Arguments Ok {A} a.
Arguments Raise {A} e.

(** Sequencing: the rest of a function runs on the value of a call that
    returned and is skipped after one that raised. *)
Definition bind {A B : Type} (m : result A) (f : A → result B) : result B :=
  match m with Ok a => f a | Raise e => Raise e end.

Declare Scope result_scope.
Delimit Scope result_scope with result.
Notation "x <- m ;; k" := (bind m (λ x, k))
  (at level 100, m at next level, right associativity) : result_scope.
Notation "'let*' p := m 'in' k" := (bind m (λ x, match x with p => k end))
  (at level 100, p pattern, m at next level, right associativity) : result_scope.
Open Scope result_scope.

(** [v.at(i)] *)
Definition vec_at {A} (v : list A) (i : nat) : result A :=
  match v !! i with Some x => Ok x | None => Raise OutOfRange end.

(** [v[i]] read *)
Definition vec_get {A} (v : list A) (i : nat) : result A :=
  match v !! i with Some x => Ok x | None => Raise Undefined end.

(** [v[i] = x] *)
Definition vec_set {A} (v : list A) (i : nat) (x : A) : result (list A) :=
  if decide (i < length v) then Ok (<[i := x]> v) else Raise Undefined.

(** A loop over the elements of a container with an accumulator. *)
Fixpoint foldM {A B} (f : A → B → result A) (a : A) (l : list B) : result A :=
  match l with
  | [] => Ok a
  | b :: l => a' <- f a b ;; foldM f a' l
  end.

(** ** Eigen matrices *)

Module Eigen.

(** [MatrixXd]: the two dimensions and the coefficients in storage
    (column-major) order. The constructors below keep
    [length coeffs = rows * cols]. [VectorXd] is a list of coefficients. *)
Record Matrix : Type := { rows : nat; cols : nat; coeffs : list double }.

Definition Constant (r c : nat) (v : double) : Matrix :=
  {| rows := r; cols := c; coeffs := replicate (r * c) v |}.

Definition Zero (r c : nat) : Matrix := Constant r c Double.zero.

Definition VectorConstant (n : nat) (v : double) : list double :=
  replicate n v.

(** [m(i, j)] *)
Definition coeff (m : Matrix) (i j : nat) : result double :=
  if decide (i < rows m ∧ j < cols m)
  then vec_get (coeffs m) (i + rows m * j)
  else Raise Undefined.

(** [m.row(i)], evaluated into a [VectorXd]. *)
Definition row (m : Matrix) (i : nat) : result (list double) :=
  if decide (i < rows m ∧ length (coeffs m) = rows m * cols m)
  then Ok ((λ j, nth (i + rows m * j) (coeffs m) Double.zero) <$> seq 0 (cols m))
  else Raise Undefined.

(** A [MatrixXd] evaluated into a [VectorXd]: Eigen accepts a matrix with
    a single row or a single column. *)
Definition as_vector (m : Matrix) : result (list double) :=
  if decide (rows m = 1 ∨ cols m = 1) then Ok (coeffs m) else Raise Undefined.

(** [dst += src] for a matrix source. Eigen requires operands of the same
    dimensions. *)
Definition add_assign (dst src : Matrix) : result Matrix :=
  if decide (rows dst = rows src ∧ cols dst = cols src
             ∧ length (coeffs dst) = length (coeffs src))
  then Ok {| rows := rows dst; cols := cols dst;
             coeffs := zip_with Double.add (coeffs dst) (coeffs src) |}
  else Raise Undefined.

(** [dst += v] for a [VectorXd] source. Eigen's contract asks for equal
    dimensions; its kernel walks the coefficients of [dst] in storage
    order and reads the coefficient of [v] at the same position, so a
    vector with as many coefficients as [dst] is added position by
    position. Any other vector leaves the contract: the kernel would read
    outside the operand. *)
Definition add_assign_vector (dst : Matrix) (v : list double) : result Matrix :=
  if decide (length (coeffs dst) = length v)
  then Ok {| rows := rows dst; cols := cols dst;
             coeffs := zip_with Double.add (coeffs dst) v |}
  else Raise Undefined.

(** [m / s] and [m /= s] *)
Definition scalar_div (m : Matrix) (s : double) : Matrix :=
  {| rows := rows m; cols := cols m;
     coeffs := (λ x, Double.div x s) <$> coeffs m |}.

(** [MatrixXd mat(r, c); mat << block;] with a single block, which has to
    fill the matrix. *)
Definition comma_init (r c : nat) (block : Matrix) : result Matrix :=
  if decide (rows block = r ∧ cols block = c) then Ok block else Raise Undefined.

End Eigen.

Abbreviation Matrix := Eigen.Matrix.

(** ** Observations ([Observations.cpp]) *)

Module Observations.

Definition OUTCOME : nat := 0.
Definition TREATMENT : nat := 1.
Definition INSTRUMENT : nat := 2.

Record t : Type := {
  observations_by_type : list Matrix;
  num_samples : nat
}.

(** [Observations::get]: [observations_by_type[type].row(sample)]. *)
Definition get (o : t) (type sample : nat) : result (list double) :=
  m <- vec_get (observations_by_type o) type ;;
  Eigen.row m sample.

End Observations.

(** ** Prediction values and predictions *)

Module PredictionValues.

(** Modelled from the spec: the class [PredictionValues] (its source file
    is not part of the sources at hand). A triple
    [(values, num_nodes, num_types)] where [values[node]] is either empty
    or a tuple of summary matrices; [empty node] holds iff the tuple stored
    for the node has length 0; a node or a type outside the stored vectors
    raises, as [std::vector::at] does. *)
Record t : Type := {
  values : list (list Matrix);
  num_nodes : nat;
  num_types : nat
}.

Definition create (values : list (list Matrix)) (num_nodes num_types : nat) : t :=
  {| values := values; num_nodes := num_nodes; num_types := num_types |}.

(** The default-constructed value. *)
Definition none : t := create [] 0 0.

Definition get_values (pv : t) (node : nat) : result (list Matrix) :=
  vec_at (values pv) node.

Definition get (pv : t) (node type : nat) : result Matrix :=
  v <- vec_at (values pv) node ;;
  vec_at v type.

Definition empty (pv : t) (node : nat) : result bool :=
  v <- vec_at (values pv) node ;;
  Ok (bool_decide (length v = 0)).

End PredictionValues.

Module Prediction.

(** Modelled from the spec: the class [Prediction] (its source file is not
    part of the sources at hand). A point vector, alone or with a variance
    vector; a prediction built from the point vector alone has an empty
    variance vector; [size] is the length of the point vector. *)
Record t : Type := {
  predictions : list double;
  variance_estimates : list double
}.

Definition point (predictions : list double) : t :=
  {| predictions := predictions; variance_estimates := [] |}.

Definition create (predictions variance_estimates : list double) : t :=
  {| predictions := predictions; variance_estimates := variance_estimates |}.

Definition size (p : t) : nat := length (predictions p).

End Prediction.

(** ** The optimized prediction strategy interface
    ([OptimizedPredictionStrategy.h]) *)

Record OptimizedPredictionStrategy : Type := {
  prediction_length : nat;
  predict : list Matrix → result (list double);
  compute_variance : list Matrix → PredictionValues.t → Z → result (list double);
  prediction_value_length : nat;
  precompute_prediction_values :
    list (list nat) → Observations.t → result PredictionValues.t
}.

(** ** The regression prediction strategy
    ([RegressionPredictionStrategy.cpp]) *)

Module RegressionPredictionStrategy.

Definition OUTCOME : nat := 0.

Definition prediction_length : nat := 4.

Definition predict (average : list Matrix) : result (list double) :=
  m <- vec_at average OUTCOME ;;
  Eigen.as_vector m.

(** The local variables of [compute_variance] that are live after its
    loop over the groups. *)
Record variance_terms : Type := {
  num_good_groups : double;
  psi_squared : double;
  psi_grouped_squared : double;
  var_between : double;
  var_total : double;
  group_noise : double
}.

(** The first inner loop: a group is good when none of its
    [ci_group_size] leaf slots is empty. *)
Definition good_group_loop (leaf_values : PredictionValues.t)
    (group ci_group_size : nat) : result bool :=
  foldM (λ good_group j,
           e <- PredictionValues.empty leaf_values (group * ci_group_size + j) ;;
           Ok (if e then false else good_group))
        true (seq 0 ci_group_size).

(** The second inner loop, on the pair [(psi_squared, group_psi)]. *)
Definition psi_loop (leaf_values : PredictionValues.t) (average_outcome : double)
    (group ci_group_size : nat) (psi_squared : double) : result (double * double) :=
  foldM (λ (acc : double * double) j,
           let '(psi_squared, group_psi) := acc in
           let i := group * ci_group_size + j in
           m <- PredictionValues.get leaf_values i OUTCOME ;;
           x <- Eigen.coeff m 0 0 ;;
           let psi_1 := Double.sub x average_outcome in
           Ok (Double.add psi_squared (Double.mul psi_1 psi_1),
               Double.add group_psi psi_1))
        (psi_squared, Double.zero) (seq 0 ci_group_size).

(** The body of the loop over the groups, on the triple
    [(num_good_groups, psi_squared, psi_grouped_squared)]. *)
Definition group_body (leaf_values : PredictionValues.t) (average_outcome : double)
    (ci_group_size : nat) (acc : double * double * double) (group : nat)
    : result (double * double * double) :=
  let '(num_good_groups, psi_squared, psi_grouped_squared) := acc in
  good_group <- good_group_loop leaf_values group ci_group_size ;;
  if negb good_group then Ok acc
  else
    let num_good_groups := Double.add num_good_groups (Double.of_Z 1) in
    let* (psi_squared, group_psi) :=
       psi_loop leaf_values average_outcome group ci_group_size psi_squared in
    let group_psi := Double.div group_psi (Double.of_Z (Z.of_nat ci_group_size)) in
    Ok (num_good_groups, psi_squared,
        Double.add psi_grouped_squared (Double.mul group_psi group_psi)).

(** [compute_variance] up to the call of the debiaser. [ci_group_size] is
    a [uint]: [ci_group_size - 1] wraps modulo 2^32, and the integer
    division by a zero [ci_group_size] in the loop bound is undefined. *)
Definition compute_variance_terms (average : list Matrix)
    (leaf_values : PredictionValues.t) (ci_group_size : Z) : result variance_terms :=
  m <- vec_at average OUTCOME ;;
  average_outcome <- Eigen.coeff m 0 0 ;;
  if decide (ci_group_size = 0)%Z then Raise Undefined
  else
    let ci := Z.to_nat ci_group_size in
    let num_groups := PredictionValues.num_nodes leaf_values / ci in
    let* (num_good_groups, psi_squared, psi_grouped_squared) :=
       foldM (group_body leaf_values average_outcome ci)
             (Double.zero, Double.zero, Double.zero) (seq 0 num_groups) in
    let var_between := Double.div psi_grouped_squared num_good_groups in
    let var_total :=
      Double.div psi_squared
                 (Double.mul num_good_groups (Double.of_Z ci_group_size)) in
    let group_noise :=
      Double.div (Double.sub var_total var_between)
                 (Double.of_Z ((ci_group_size - 1) mod 2 ^ 32)) in
    Ok {| num_good_groups := num_good_groups;
          psi_squared := psi_squared;
          psi_grouped_squared := psi_grouped_squared;
          var_between := var_between;
          var_total := var_total;
          group_noise := group_noise |}.

Definition prediction_value_length : nat := 4.

(** The body of the loop of [precompute_prediction_values] for a leaf
    with samples: the accumulation and the division. *)
Definition leaf_average (observations : Observations.t) (leaf_node : list nat)
    : result Matrix :=
  average <- foldM (λ average sample,
                     v <- Observations.get observations Observations.OUTCOME sample ;;
                     Eigen.add_assign_vector average v)
                  (Eigen.Zero 1 4) leaf_node ;;
  Eigen.comma_init 1 4
    (Eigen.scalar_div average (Double.of_Z (Z.of_nat (length leaf_node)))).

(** The loop over the leaves: [values[i]] stays empty for a leaf without
    samples and becomes the one-element tuple [averages] otherwise. *)
Fixpoint precompute_loop (observations : Observations.t)
    (leaf_samples : list (list nat)) : result (list (list Matrix)) :=
  match leaf_samples with
  | [] => Ok []
  | leaf_node :: rest =>
      averages <- (if bool_decide (leaf_node = []) then Ok []
                  else mat <- leaf_average observations leaf_node ;; Ok [mat]) ;;
      values <- precompute_loop observations rest ;;
      Ok (averages :: values)
  end.

Definition precompute_prediction_values (leaf_samples : list (list nat))
    (observations : Observations.t) : result PredictionValues.t :=
  let num_leaves := length leaf_samples in
  values <- precompute_loop observations leaf_samples ;;
  Ok (PredictionValues.create values num_leaves 1).

Section WithDebiaser.

(** The member [bayes_debiaser]: [debias var_between group_noise
    num_good_groups] of the objective Bayes debiaser, whose source is
    not among the sources at hand. *)
Variable debias : double → double → double → double.

Definition compute_variance (average : list Matrix)
    (leaf_values : PredictionValues.t) (ci_group_size : Z) : result (list double) :=
  t <- compute_variance_terms average leaf_values ci_group_size ;;
  let var_debiased := debias (var_between t) (group_noise t) (num_good_groups t) in
  Ok (Eigen.VectorConstant 1 var_debiased).

Definition strategy : OptimizedPredictionStrategy :=
  Build_OptimizedPredictionStrategy
    prediction_length predict compute_variance
    prediction_value_length precompute_prediction_values.

End WithDebiaser.

End RegressionPredictionStrategy.

(** ** Collaborators of the tree trainer *)

(** The feature matrix behind [Data*]: an abstract interface in the sources,
    read through [get(row, col)], [get_num_rows()] and [get_num_cols()]. *)
Record Data : Type := {
  get : nat → nat → double;
  get_num_rows : nat;
  get_num_cols : nat
}.

(** [TreeOptions], read through its getters. *)
Record TreeOptions : Type := {
  get_mtry : Z;
  get_min_node_size : nat;
  get_split_select_weights : list double;
  get_split_select_vars : list nat;
  get_deterministic_vars : list nat;
  get_no_split_variables : list nat;
  get_honesty : bool
}.

(** The operations of [RandomSampler] that the trainer calls, over the state
    [G] of its random number generator; an out-parameter of the C++
    signature is a component of the returned value. [subsample g samples
    fraction] returns the subsample, the held-out samples and the new
    generator state; the two draws return the extended [result] vector. *)
Record RandomSampler (G : Type) : Type := {
  subsample : G → list nat → double → list nat * list nat * G;
  sample_poisson : G → Z → Z * G;
  draw_without_replacement_skip :
    G → list nat → Z → list nat → Z → list nat * G;
  draw_without_replacement_weighted :
    G → list nat → list nat → Z → list double → list nat * G
}.

Arguments subsample {G} _ _ _ _.
Arguments sample_poisson {G} _ _ _.
Arguments draw_without_replacement_skip {G} _ _ _ _ _ _.
Arguments draw_without_replacement_weighted {G} _ _ _ _ _ _.

(** [RelabelingStrategy::relabel]: the responses by sample, an
    [unordered_map]. *)
Record RelabelingStrategy : Type := {
  relabel : list nat → Observations.t → gmap nat (list double)
}.

(** [SplittingRule::find_best_split] over the state [R] of the rule object:
    it reads the node, the candidate variables, the responses and the
    samples, writes the out-parameters [split_vars] and [split_values], and
    returns [true] when the node is not to be split.
    [SplittingRuleFactory::create] gives the rule its first state. *)
Record SplittingRule (R : Type) : Type := {
  create : R;
  find_best_split :
    R → nat → list nat → gmap nat (list double) → list (list nat) →
    list nat → list double → bool * list nat * list double * R
}.

Arguments create {R} _.
Arguments find_best_split {R} _ _ _ _ _ _ _ _.

(** ** The tree *)

Module Tree.

(** Modelled from the spec: the class [Tree] (its source file is not part
    of the sources at hand), as the arrays its constructor receives. *)
Record t : Type := {
  root_node : nat;
  child_nodes : list (list nat);
  leaf_nodes : list (list nat);
  split_vars : list nat;
  split_values : list double;
  oob_samples : list nat;
  prediction_values : PredictionValues.t
}.

Definition get_leaf_samples (tree : t) : list (list nat) := leaf_nodes tree.
Definition get_prediction_values (tree : t) : PredictionValues.t :=
  prediction_values tree.

Definition set_leaf_nodes (new_leaf_nodes : list (list nat)) (tree : t) : t :=
  {| root_node := root_node tree; child_nodes := child_nodes tree;
     leaf_nodes := new_leaf_nodes; split_vars := split_vars tree;
     split_values := split_values tree; oob_samples := oob_samples tree;
     prediction_values := prediction_values tree |}.

Definition set_prediction_values (pv : PredictionValues.t) (tree : t) : t :=
  {| root_node := root_node tree; child_nodes := child_nodes tree;
     leaf_nodes := leaf_nodes tree; split_vars := split_vars tree;
     split_values := split_values tree; oob_samples := oob_samples tree;
     prediction_values := pv |}.

(** The two member functions that [repopulate_leaf_nodes] calls. *)
Record Ops : Type := {
  find_leaf_nodes : t → Data → list nat → list nat;
  prune_empty_leaves : t → t
}.

End Tree.

(** ** The tree trainer ([TreeTrainer.cpp]) *)

Module TreeTrainer.

(** The calls to collaborators that the properties below speak about, in
    the order in which the trainer makes them. *)
Inductive call : Type :=
| CallRelabel (node : nat)
| CallFindBestSplit (node : nat)
| CallRepopulate
| CallPrecompute.

Section Trainer.

Context {G R : Type}.

(** The members of the trainer and the collaborators it is handed. *)
Variable random_sampler : RandomSampler G.
Variable relabeling_strategy : RelabelingStrategy.
Variable splitting_rule_factory : SplittingRule R.
Variable prediction_strategy : option OptimizedPredictionStrategy.
Variable options : TreeOptions.
Variable tree_ops : Tree.Ops.

(** The vectors that [train] owns and passes by reference, with the
    sampler, the splitting rule and the calls made so far. *)
Record state : Type := {
  child_nodes : list (list nat);
  samples : list (list nat);
  split_vars : list nat;
  split_values : list double;
  sampler : G;
  splitting_rule : R;
  calls : list call
}.

Definition set_child_nodes (v : list (list nat)) (st : state) : state :=
  {| child_nodes := v; samples := samples st; split_vars := split_vars st;
     split_values := split_values st; sampler := sampler st;
     splitting_rule := splitting_rule st; calls := calls st |}.

Definition set_samples (v : list (list nat)) (st : state) : state :=
  {| child_nodes := child_nodes st; samples := v; split_vars := split_vars st;
     split_values := split_values st; sampler := sampler st;
     splitting_rule := splitting_rule st; calls := calls st |}.

Definition set_split_vars (v : list nat) (st : state) : state :=
  {| child_nodes := child_nodes st; samples := samples st; split_vars := v;
     split_values := split_values st; sampler := sampler st;
     splitting_rule := splitting_rule st; calls := calls st |}.

Definition set_split_values (v : list double) (st : state) : state :=
  {| child_nodes := child_nodes st; samples := samples st;
     split_vars := split_vars st; split_values := v; sampler := sampler st;
     splitting_rule := splitting_rule st; calls := calls st |}.

Definition set_sampler (g : G) (st : state) : state :=
  {| child_nodes := child_nodes st; samples := samples st;
     split_vars := split_vars st; split_values := split_values st;
     sampler := g; splitting_rule := splitting_rule st; calls := calls st |}.

Definition set_splitting_rule (r : R) (st : state) : state :=
  {| child_nodes := child_nodes st; samples := samples st;
     split_vars := split_vars st; split_values := split_values st;
     sampler := sampler st; splitting_rule := r; calls := calls st |}.

Definition record_call (c : call) (st : state) : state :=
  {| child_nodes := child_nodes st; samples := samples st;
     split_vars := split_vars st; split_values := split_values st;
     sampler := sampler st; splitting_rule := splitting_rule st;
     calls := calls st ++ [c] |}.

(** [v[i].push_back(x)] on a vector of vectors. *)
Definition push_back_at {A} (v : list (list A)) (i : nat) (x : A)
    : result (list (list A)) :=
  inner <- vec_get v i ;;
  vec_set v i (inner ++ [x]).

(** [v[i][j] = x] on a vector of vectors. *)
Definition set_at {A} (v : list (list A)) (i j : nat) (x : A)
    : result (list (list A)) :=
  inner <- vec_get v i ;;
  inner' <- vec_set inner j x ;;
  vec_set v i inner'.

Definition create_empty_node (st : state) : result state :=
  cn <- push_back_at (child_nodes st) 0 0 ;;
  cn <- push_back_at cn 1 0 ;;
  Ok {| child_nodes := cn;
        samples := samples st ++ [[]];
        split_vars := split_vars st ++ [0];
        split_values := split_values st ++ [Double.zero];
        sampler := sampler st;
        splitting_rule := splitting_rule st;
        calls := calls st |}.

(** [size_t] subtraction, modulo 2^64. *)
Definition size_t_sub (a b : Z) : Z := ((a - b) mod 2 ^ 64)%Z.

(** [std::max<size_t>(std::min(mtry_sample, num_independent_variables), 1uL)] *)
Definition split_mtry (mtry_sample num_independent_variables : Z) : Z :=
  Z.max (Z.min mtry_sample num_independent_variables) 1.

Definition create_split_variable_subset (result : list nat) (g : G)
    (data : Data) (split_select_weights : list double) : list nat * G :=
  (* Always use deterministic variables *)
  let result := result ++ get_deterministic_vars options in
  (* Randomly select an mtry for this tree based on the overall setting. *)
  let num_independent_variables :=
    size_t_sub (Z.of_nat (get_num_cols data))
               (Z.of_nat (length (get_no_split_variables options))) in
  let '(mtry_sample, g) := sample_poisson random_sampler g (get_mtry options) in
  let split_mtry := split_mtry mtry_sample num_independent_variables in
  (* Randomly add non-deterministic variables (according to weights if needed) *)
  if bool_decide (split_select_weights = []) then
    draw_without_replacement_skip random_sampler g result
      (Z.of_nat (get_num_cols data)) (get_no_split_variables options) split_mtry
  else if bool_decide (split_mtry > Z.of_nat (length result))%Z then
    let num_draws := (split_mtry - Z.of_nat (length result))%Z in
    draw_without_replacement_weighted random_sampler g result
      (get_split_select_vars options) num_draws split_select_weights
  else (result, g).

(** The purity loop of [split_node_internal]: [i] is the loop counter and
    [pure_value] the outcome of the previous sample. The result is the
    final value of [pure]. *)
Fixpoint pure_loop (observations : Observations.t) (i : nat)
    (pure_value : double) (node_samples : list nat) : result bool :=
  match node_samples with
  | [] => Ok true
  | sample :: rest =>
      value <- Observations.get observations Observations.OUTCOME sample ;;
      value0 <- vec_get value 0 ;;
      if negb (i =? 0) && Double.neb value0 pure_value then Ok false
      else pure_loop observations (S i) value0 rest
  end.

(** [split_values[node] = -1.0; return true;] *)
Definition mark_terminal (node : nat) (st : state) : result (bool * state) :=
  sv <- vec_set (split_values st) node (Double.of_Z (-1)) ;;
  Ok (true, set_split_values sv st).

Definition split_node_internal (node : nat) (observations : Observations.t)
    (possible_split_vars : list nat) (st : state) : result (bool * state) :=
  (* Check node size, stop if maximum reached *)
  node_samples <- vec_get (samples st) node ;;
  if bool_decide (length node_samples ≤ get_min_node_size options) then
    mark_terminal node st
  else
    (* Check if node is pure and set split_value to estimate and stop if pure *)
    pure <- pure_loop observations 0 Double.zero node_samples ;;
    if pure then mark_terminal node st
    else
      let responses_by_sample :=
        relabel relabeling_strategy node_samples observations in
      let st := record_call (CallRelabel node) st in
      let '(stop, st) :=
        if bool_decide (responses_by_sample = ∅) then (true, st)
        else
          let '(stop, split_vars, split_values, rule) :=
            find_best_split splitting_rule_factory (splitting_rule st) node
              possible_split_vars responses_by_sample (samples st)
              (split_vars st) (split_values st) in
          (stop,
           set_splitting_rule rule
             (set_split_values split_values
                (set_split_vars split_vars
                   (record_call (CallFindBestSplit node) st)))) in
      if stop then mark_terminal node st else Ok (false, st).

(** The loop of [split_node] that assigns each sample of the node to the
    left or to the right child. *)
Definition assign_sample (data : Data) (split_var : nat) (split_value : double)
    (left_child_node right_child_node : nat)
    (samples : list (list nat)) (sample : nat) : result (list (list nat)) :=
  if Double.leb (get data sample split_var) split_value
  then push_back_at samples left_child_node sample
  else push_back_at samples right_child_node sample.

Definition split_node (node : nat) (data : Data) (observations : Observations.t)
    (split_select_weights : list double) (st : state) : result (bool * state) :=
  (* Select random subset of variables to possibly split at *)
  let '(possible_split_vars, g) :=
    create_split_variable_subset [] (sampler st) data split_select_weights in
  let st := set_sampler g st in
  (* Call subclass method, sets split_vars and split_values *)
  let* (stop, st) := split_node_internal node observations possible_split_vars st in
  if (stop : bool) then Ok (true, st)
  else
    split_var <- vec_get (split_vars st) node ;;
    split_value <- vec_get (split_values st) node ;;
    (* Create child nodes *)
    let left_child_node := length (samples st) in
    cn <- set_at (child_nodes st) 0 node left_child_node ;;
    st <- create_empty_node (set_child_nodes cn st) ;;
    let right_child_node := length (samples st) in
    cn <- set_at (child_nodes st) 1 node right_child_node ;;
    st <- create_empty_node (set_child_nodes cn st) ;;
    (* For each sample in node, assign to left or right child *)
    node_samples <- vec_get (samples st) node ;;
    s <- foldM (assign_sample data split_var split_value
                  left_child_node right_child_node)
               (samples st) node_samples ;;
    Ok (false, set_samples s st).

(** The loop of [train]. [fuel] bounds the number of iterations of the
    model; the C++ loop has no bound of its own. *)
Fixpoint train_loop (fuel : nat) (data : Data) (observations : Observations.t)
    (num_open_nodes i : nat) (st : state) : result state :=
  match num_open_nodes with
  | 0 => Ok st
  | S num_open_nodes' =>
      match fuel with
      | 0 => Raise OutOfFuel
      | S fuel =>
          let* (is_leaf_node, st) :=
            split_node i data observations (get_split_select_weights options) st in
          if (is_leaf_node : bool) then
            train_loop fuel data observations num_open_nodes' (S i) st
          else
            nodes <- vec_set (samples st) i [] ;;
            train_loop fuel data observations (S num_open_nodes) (S i)
              (set_samples nodes st)
      end
  end.

(** The honesty split at the start of [train]: the samples placed in the
    root, the held-out samples [new_leaf_samples] and the sampler. *)
Definition honesty_split (g : G) (train_samples : list nat)
    : list nat * list nat * G :=
  if get_honesty options
  then subsample random_sampler g train_samples (Double.dec 5 1)
  else (train_samples, [], g).

(** [train] up to the end of its loop: the held-out samples and the
    vectors of the grown tree. *)
Definition grow (fuel : nat) (data : Data) (observations : Observations.t)
    (g : G) (train_samples : list nat) : result (list nat * state) :=
  st <- create_empty_node
          {| child_nodes := [[]; []]; samples := []; split_vars := [];
             split_values := []; sampler := g;
             splitting_rule := create splitting_rule_factory; calls := [] |} ;;
  let '(root_samples, new_leaf_samples, g) := honesty_split g train_samples in
  nodes <- vec_set (samples st) 0 root_samples ;;
  st <- train_loop fuel data observations 1 0
          (set_sampler g (set_samples nodes st)) ;;
  Ok (new_leaf_samples, st).

Definition repopulate_leaf_nodes (tree : Tree.t) (data : Data)
    (leaf_samples : list nat) : result Tree.t :=
  let num_nodes := length (Tree.get_leaf_samples tree) in
  let new_leaf_nodes := replicate num_nodes [] in
  let leaf_nodes := Tree.find_leaf_nodes tree_ops tree data leaf_samples in
  new_leaf_nodes <-
    foldM (λ new_leaf_nodes sample,
             leaf_node <- vec_at leaf_nodes sample ;;
             inner <- vec_at new_leaf_nodes leaf_node ;;
             Ok (<[leaf_node := inner ++ [sample]]> new_leaf_nodes))
          new_leaf_nodes leaf_samples ;;
  Ok (Tree.prune_empty_leaves tree_ops (Tree.set_leaf_nodes new_leaf_nodes tree)).

(** [train] returns the tree; the model returns with it the sampler and
    the calls made. *)
Definition train (fuel : nat) (data : Data) (observations : Observations.t)
    (g : G) (train_samples : list nat) : result (Tree.t * G * list call) :=
  let* (new_leaf_samples, st) := grow fuel data observations g train_samples in
  let tree :=
    {| Tree.root_node := 0;
       Tree.child_nodes := child_nodes st;
       Tree.leaf_nodes := samples st;
       Tree.split_vars := split_vars st;
       Tree.split_values := split_values st;
       Tree.oob_samples := [];
       Tree.prediction_values := PredictionValues.none |} in
  let* (tree, st) :=
    if bool_decide (new_leaf_samples ≠ []) then
      tree <- repopulate_leaf_nodes tree data new_leaf_samples ;;
      Ok (tree, record_call CallRepopulate st)
    else Ok (tree, st) in
  let* (prediction_values, st) :=
    match prediction_strategy with
    | Some strategy =>
        pv <- precompute_prediction_values strategy
                (Tree.get_leaf_samples tree) observations ;;
        Ok (pv, record_call CallPrecompute st)
    | None => Ok (PredictionValues.none, st)
    end in
  Ok (Tree.set_prediction_values prediction_values tree, sampler st, calls st).

End Trainer.

End TreeTrainer.

(** ** The forest and the optimized prediction collector
    ([OptimizedPredictionCollector.cpp]) *)

Module Forest.

(** Modelled from the spec: the class [Forest] (its source file is not part
    of the sources at hand), an ordered collection of trees. *)
Record t : Type := { get_trees : list Tree.t }.

End Forest.

Module OptimizedPredictionCollector.

Section Collector.

(** The members of the collector; [ci_group_size] is a [uint]. *)
Variable strategy : OptimizedPredictionStrategy.
Variable ci_group_size : Z.

(** The loop of [add_prediction_values] that allocates the zero matrices
    on the first leaf. *)
Definition allocate (node : nat) (prediction_values : PredictionValues.t)
    : result (list Matrix) :=
  foldM (λ combined_average type,
           prototype <- PredictionValues.get prediction_values node type ;;
           Ok (combined_average
                 ++ [Eigen.Zero (Eigen.rows prototype) (Eigen.cols prototype)]))
        [] (seq 0 (PredictionValues.num_types prediction_values)).

Definition add_prediction_values (node : nat)
    (prediction_values : PredictionValues.t) (combined_average : list Matrix)
    : result (list Matrix) :=
  combined_average <-
    (if bool_decide (combined_average = [])
     then allocate node prediction_values
     else Ok combined_average) ;;
  foldM (λ combined_average type,
           acc <- vec_get combined_average type ;;
           value <- PredictionValues.get prediction_values node type ;;
           acc <- Eigen.add_assign acc value ;;
           vec_set combined_average type acc)
        combined_average (seq 0 (PredictionValues.num_types prediction_values)).

Definition normalize_prediction_values (num_leaves : nat)
    (combined_average : list Matrix) : list Matrix :=
  (λ value, Eigen.scalar_div value (Double.of_Z (Z.of_nat num_leaves)))
    <$> combined_average.

Definition validate_prediction (sample : nat) (prediction : Prediction.t)
    : result unit :=
  let prediction_length := prediction_length strategy in
  if bool_decide (Prediction.size prediction ≠ prediction_length) then
    Raise (RuntimeError ("Prediction for sample " +:+ pretty sample +:+
                         " did not have the expected length."))
  else Ok tt.

(** The locals of the loop over the trees: [average_value],
    [leaf_values] and [num_leaves]. *)
Record accumulator : Type := {
  average_value : list Matrix;
  leaf_values : list (list Matrix);
  num_leaves : nat
}.

(** The test at the head of the loop over the trees: [true] when the
    tree is skipped for the sample. *)
Definition skipped (trees_by_sample : list (list bool)) (sample tree_index : nat)
    : result bool :=
  if bool_decide (trees_by_sample = []) then Ok false
  else
    mask <- vec_get trees_by_sample sample ;;
    included <- vec_get mask tree_index ;;
    Ok (negb included).

(** One iteration of the loop over the trees. *)
Definition tree_body (forest : Forest.t)
    (leaf_nodes_by_tree : list (list nat)) (trees_by_sample : list (list bool))
    (sample : nat) (acc : accumulator) (tree_index : nat) : result accumulator :=
  skip <- skipped trees_by_sample sample tree_index ;;
  if skip then Ok acc
  else
    leaf_nodes <- vec_at leaf_nodes_by_tree tree_index ;;
    node <- vec_at leaf_nodes sample ;;
    tree <- vec_get (Forest.get_trees forest) tree_index ;;
    let prediction_values := Tree.get_prediction_values tree in
    is_empty <- PredictionValues.empty prediction_values node ;;
    if is_empty then Ok acc
    else
      average <- add_prediction_values node prediction_values (average_value acc) ;;
      leaf_values <-
        (if bool_decide (ci_group_size > 1)%Z then
           v <- PredictionValues.get_values prediction_values node ;;
           vec_set (leaf_values acc) tree_index v
         else Ok (leaf_values acc)) ;;
      Ok {| average_value := average;
            leaf_values := leaf_values;
            num_leaves := S (num_leaves acc) |}.

(** The loop over the trees for one sample. *)
Definition collect_leaves (forest : Forest.t)
    (leaf_nodes_by_tree : list (list nat)) (trees_by_sample : list (list bool))
    (sample : nat) : result accumulator :=
  let num_trees := length (Forest.get_trees forest) in
  foldM (tree_body forest leaf_nodes_by_tree trees_by_sample sample)
        {| average_value := [];
           leaf_values :=
             if bool_decide (ci_group_size > 1)%Z then replicate num_trees [] else [];
           num_leaves := 0 |}
        (seq 0 num_trees).

(** The body of the loop over the samples: the prediction pushed for
    the sample. *)
Definition collect_prediction (forest : Forest.t)
    (leaf_nodes_by_tree : list (list nat)) (trees_by_sample : list (list bool))
    (sample : nat) : result Prediction.t :=
  let num_trees := length (Forest.get_trees forest) in
  acc <- collect_leaves forest leaf_nodes_by_tree trees_by_sample sample ;;
  (* If this sample has no neighbors, then return placeholder predictions. *)
  if bool_decide (num_leaves acc = 0) then
    let temp := Eigen.VectorConstant (prediction_length strategy) Double.nan in
    Ok (Prediction.point temp)
  else
    let average_value :=
      normalize_prediction_values (num_leaves acc) (average_value acc) in
    point_prediction <- predict strategy average_value ;;
    variance_estimate <-
      (if bool_decide (ci_group_size > 1)%Z then
         let prediction_values :=
           PredictionValues.create (leaf_values acc) num_trees
             (prediction_value_length strategy) in
         compute_variance strategy average_value prediction_values ci_group_size
       else Ok []) ;;
    let prediction := Prediction.create point_prediction variance_estimate in
    _ <- validate_prediction sample prediction ;;
    Ok prediction.

Definition collect_predictions (forest : Forest.t) (prediction_data : Data)
    (leaf_nodes_by_tree : list (list nat)) (trees_by_sample : list (list bool))
    : result (list Prediction.t) :=
  let num_samples := get_num_rows prediction_data in
  foldM (λ predictions sample,
           prediction <- collect_prediction forest leaf_nodes_by_tree
                           trees_by_sample sample ;;
           Ok (predictions ++ [prediction]))
        [] (seq 0 num_samples).

End Collector.

End OptimizedPredictionCollector.

(** * The notions of the properties *)

Module Notions.

(** The outcome scalar of a sample, [observations.get(OUTCOME, s)[0]]. *)
Definition outcome_scalar (observations : Observations.t) (sample : nat)
    : result double :=
  value <- Observations.get observations Observations.OUTCOME sample ;;
  vec_get value 0.

(** The samples that pass and that fail the test [data->get(sample,
    split_var) <= split_value]. *)
Definition goes_left (data : Data) (split_var : nat) (split_value : double)
    (sample : nat) : Prop :=
  Double.leb (get data sample split_var) split_value = true.

#[export] Instance goes_left_dec data split_var split_value sample :
  Decision (goes_left data split_var split_value sample) :=
  decide (Double.leb (get data sample split_var) split_value = true).

(** The split ordering as the specification words it: the samples of the
    left child satisfy [<=] and those of the right child satisfy [>]. *)
Definition split_ordering (data : Data) (split_var : nat) (split_value : double)
    (left_samples right_samples : list nat) : Prop :=
  Forall (λ s, Double.leb (get data s split_var) split_value = true) left_samples
  ∧ Forall (λ s, Double.gtb (get data s split_var) split_value = true) right_samples.

(** The variables that the sampler can draw: the columns that are not to
    be skipped. *)
Definition available (num_cols : nat) (skip : list nat) : list nat :=
  filter (λ i, i ∉ skip) (seq 0 num_cols).

(** The calls that growing the tree can make. *)
Definition growth_call (c : TreeTrainer.call) : Prop :=
  match c with
  | TreeTrainer.CallRelabel _ | TreeTrainer.CallFindBestSplit _ => True
  | _ => False
  end.

(** The tree that [train] builds from the vectors of the grown tree. *)
Definition grown_tree {G R : Type} (st : TreeTrainer.state (G := G) (R := R))
    : Tree.t :=
  {| Tree.root_node := 0;
     Tree.child_nodes := TreeTrainer.child_nodes st;
     Tree.leaf_nodes := TreeTrainer.samples st;
     Tree.split_vars := TreeTrainer.split_vars st;
     Tree.split_values := TreeTrainer.split_values st;
     Tree.oob_samples := [];
     Tree.prediction_values := PredictionValues.none |}.

(** Tree [tree_index] contributes no leaf to the prediction of [sample]:
    the inclusion mask excludes it, or the leaf in which the sample lands
    has no prediction values. *)
Definition no_contribution (forest : Forest.t)
    (leaf_nodes_by_tree : list (list nat)) (trees_by_sample : list (list bool))
    (sample tree_index : nat) : Prop :=
  OptimizedPredictionCollector.skipped trees_by_sample sample tree_index = Ok true
  ∨ (OptimizedPredictionCollector.skipped trees_by_sample sample tree_index = Ok false
     ∧ ∃ leaf_nodes node tree,
         leaf_nodes_by_tree !! tree_index = Some leaf_nodes
         ∧ leaf_nodes !! sample = Some node
         ∧ Forest.get_trees forest !! tree_index = Some tree
         ∧ PredictionValues.empty (Tree.get_prediction_values tree) node = Ok true).

(** The placeholder prediction. *)
Definition nan_prediction (strategy : OptimizedPredictionStrategy) : Prediction.t :=
  Prediction.point (Eigen.VectorConstant (prediction_length strategy) Double.nan).

End Notions.

(** * Inputs of the examples *)

Module Examples.

Import Notions.

(** The leaf summaries of two complete groups of two trees: [[1],[1]] and
    [[-1],[-1]], each a 1x1 matrix. *)
Definition summary (v : Z) : Matrix := Eigen.Constant 1 1 (Double.of_Z v).

Definition two_groups : PredictionValues.t :=
  PredictionValues.create
    [[summary 1]; [summary 1]; [summary (-1)]; [summary (-1)]] 4 1.

(** The ten outcomes, as the doubles that their decimal literals denote. *)
Definition ten_outcomes : list double :=
  [Double.dec (-999984) 5; Double.dec (-736924) 5; Double.dec 511211 5;
   Double.dec (-826997) 6; Double.dec 655345 6; Double.dec (-562082) 5;
   Double.dec (-905911) 5; Double.dec 357729 5; Double.dec 358593 5;
   Double.dec 869386 5].

(** The observations holding the ten outcomes as scalar outcomes: one
    column, one row per sample. *)
Definition scalar_observations : Observations.t :=
  {| Observations.observations_by_type :=
       [{| Eigen.rows := 10; Eigen.cols := 1; Eigen.coeffs := ten_outcomes |}];
     Observations.num_samples := 10 |}.

(** The same samples with an outcome of four components, each holding
    the scalar outcome. *)
Definition four_column_observations : Observations.t :=
  {| Observations.observations_by_type :=
       [{| Eigen.rows := 10; Eigen.cols := 4;
           Eigen.coeffs :=
             ten_outcomes ++ ten_outcomes ++ ten_outcomes ++ ten_outcomes |}];
     Observations.num_samples := 10 |}.

(** The exact mean of the ten decimal outcomes, -1.1251472. *)
Definition exact_mean : Q := (-11251472 # 10000000)%Q.

(** A regression strategy with a debiaser that answers zero. *)
Definition constant_debias : double → double → double → double :=
  λ _ _ _, Double.zero.

Definition regression : OptimizedPredictionStrategy :=
  RegressionPredictionStrategy.strategy constant_debias.

(** A forest of two trees. In each tree node 0 carries a 1x4 summary and
    the nodes 1 and 2 carry none; query row 0 lands in node 0 and query row
    1 in node 1 of both trees. *)
Definition summary_tree (a b c d : Z) : Tree.t :=
  {| Tree.root_node := 0;
     Tree.child_nodes := [[1; 0; 0]; [2; 0; 0]];
     Tree.leaf_nodes := [[]; [0]; []];
     Tree.split_vars := [0; 0; 0];
     Tree.split_values := [Double.dec 5 1; Double.of_Z (-1); Double.of_Z (-1)];
     Tree.oob_samples := [];
     Tree.prediction_values :=
       PredictionValues.create
         [[{| Eigen.rows := 1; Eigen.cols := 4;
              Eigen.coeffs := [Double.of_Z a; Double.of_Z b;
                               Double.of_Z c; Double.of_Z d] |}]; []; []] 3 1 |}.

Definition two_trees : Forest.t :=
  {| Forest.get_trees := [summary_tree 1 2 3 4; summary_tree 3 4 5 6] |}.

Definition two_rows : Data :=
  {| get := λ _ _, Double.zero; get_num_rows := 2; get_num_cols := 1 |}.

Definition landing_nodes : list (list nat) := [[0; 1]; [0; 1]].

(** The mask that excludes both trees for row 0 and none for row 1. *)
Definition row_0_excluded : list (list bool) := [[false; false]; [true; true]].

(** Without a mask row 0 averages the summaries of the two trees. *)
Definition averaged_prediction : Prediction.t :=
  Prediction.create
    [Double.of_Z 2; Double.of_Z 3; Double.of_Z 4; Double.of_Z 5] [Double.zero].

(** A sampler over a counter: a Poisson draw is a value between 0 and
    twice the mean that varies with the counter, the subsample keeps the
    first [keep] samples and holds out the others, a draw takes the first
    variables that can be drawn. *)
Definition counter_sampler (keep : list nat → nat) : RandomSampler nat :=
  {| subsample := λ g samples _, (take (keep samples) samples,
                                  drop (keep samples) samples, S g);
     sample_poisson := λ g mean, ((Z.of_nat g `mod` (2 * mean + 1))%Z, S g);
     draw_without_replacement_skip := λ g result max skip n,
       (result ++ take (Z.to_nat n) (available (Z.to_nat max) skip), S g);
     draw_without_replacement_weighted := λ g result indices n _,
       (result ++ take (Z.to_nat n) indices, S g) |}.

Definition half_sampler : RandomSampler nat := counter_sampler (λ l, length l / 2).
Definition greedy_sampler : RandomSampler nat := counter_sampler length.

(** The relabeling of regression: the outcome of each sample. *)
Definition outcome_relabeling : RelabelingStrategy :=
  {| relabel := λ samples observations,
       list_to_map
         ((λ s, (s, match Observations.get observations Observations.OUTCOME s with
                    | Ok v => v
                    | Raise _ => []
                    end)) <$> samples) |}.

(** A splitting rule that splits the root on variable 0 at 0.5 and no
    other node; its state counts the calls. *)
Definition root_rule : SplittingRule nat :=
  {| create := 0;
     find_best_split := λ r node _ _ _ split_vars split_values,
       if node =? 0
       then (false, <[node := 0]> split_vars,
             <[node := Double.dec 5 1]> split_values, S r)
       else (true, split_vars, split_values, S r) |}.

Definition small_options (min_node_size : nat) (honesty : bool) : TreeOptions :=
  {| get_mtry := 2; get_min_node_size := min_node_size;
     get_split_select_weights := []; get_split_select_vars := [];
     get_deterministic_vars := []; get_no_split_variables := [];
     get_honesty := honesty |}.

(** One feature, equal to the sample id; [nan_feature] has a NaN for
    sample 1. *)
Definition id_feature : Data :=
  {| get := λ sample _, Double.of_Z (Z.of_nat sample);
     get_num_rows := 4; get_num_cols := 1 |}.

Definition nan_feature : Data :=
  {| get := λ sample _,
       if sample =? 1 then Double.nan else Double.of_Z (Z.of_nat sample);
     get_num_rows := 4; get_num_cols := 1 |}.

Definition scalar_outcomes (outcomes : list Z) : Observations.t :=
  {| Observations.observations_by_type :=
       [{| Eigen.rows := length outcomes; Eigen.cols := 1;
           Eigen.coeffs := Double.of_Z <$> outcomes |}];
     Observations.num_samples := length outcomes |}.

(** The vectors of [train] when the root holds the given samples. *)
Definition root_state (root_samples : list nat) : TreeTrainer.state :=
  {| TreeTrainer.child_nodes := [[0]; [0]]; TreeTrainer.samples := [root_samples];
     TreeTrainer.split_vars := [0]; TreeTrainer.split_values := [Double.zero];
     TreeTrainer.sampler := 0; TreeTrainer.splitting_rule := 0; TreeTrainer.calls := [] |}.

(** Modelled from the spec: leaf routing. A sample starts at node 0 and,
    while the split value of its node is not negative, moves to the left
    child if [data[sample, split_var] <= split_value] and to the right child
    otherwise; [find_leaf_nodes] holds the leaf of each routed sample at the
    index of the sample. Pruning keeps the empty leaves in place. *)
Fixpoint route (fuel : nat) (tree : Tree.t) (data : Data) (sample node : nat) : nat :=
  match fuel with
  | 0 => node
  | S fuel =>
      let split_value := nth node (Tree.split_values tree) (Double.of_Z (-1)) in
      if Double.leb Double.zero split_value then
        let split_var := nth node (Tree.split_vars tree) 0 in
        let side := if Double.leb (get data sample split_var) split_value then 0 else 1 in
        route fuel tree data sample (nth node (nth side (Tree.child_nodes tree) []) 0)
      else node
  end.

Definition routing_tree_ops : Tree.Ops :=
  {| Tree.find_leaf_nodes := λ tree data samples,
       foldl (λ leaf_nodes sample,
                <[sample := route (length (Tree.split_values tree)) tree data sample 0]>
                  leaf_nodes)
             (replicate (get_num_rows data) 0) samples;
     Tree.prune_empty_leaves := λ tree, tree |}.

End Examples.

(** * Further notions *)

Module Shapes.



(** The storage of a matrix holds one coefficient per entry. *)
Definition well_stored (m : Matrix) : Prop :=
  length (Eigen.coeffs m) = Eigen.rows m * Eigen.cols m.

(** Prediction values as the regression strategy precomputes them: one
    type, and for each node no summary or a single 1x4 matrix. *)
Definition regression_summary (m : Matrix) : Prop :=
  Eigen.rows m = 1 ∧ Eigen.cols m = 4 ∧ length (Eigen.coeffs m) = 4.

Definition regression_summaries (pv : PredictionValues.t) : Prop :=
  PredictionValues.num_types pv = 1
  ∧ ∀ node averages,
      PredictionValues.values pv !! node = Some averages →
      averages = [] ∨ ∃ m, averages = [m] ∧ regression_summary m.


End Shapes.

(** * Further inputs of the examples *)

Module MoreExamples.

Import Examples.

(** Five trees for groups of two: the fifth tree belongs to no complete
    group. *)
Definition five_leaves (last : Z) : PredictionValues.t :=
  PredictionValues.create
    [[summary 1]; [summary 1]; [summary (-1)]; [summary (-1)]; [summary last]] 5 1.

(** A debiaser that depends on its three arguments. *)
Definition sum_debias : double → double → double → double :=
  λ var_between group_noise num_good_groups,
    Double.add var_between (Double.add group_noise num_good_groups).

(** Four trees in two groups, each group with a tree that contributes no
    leaf. *)
Definition broken_groups : PredictionValues.t :=
  PredictionValues.create [[summary 1]; []; []; [summary (-1)]] 4 1.

End MoreExamples.

(** * Notions of the collector *)

Module CollectorNotions.

(** A mask that includes every tree for every row. *)
Definition all_included (trees_by_sample : list (list bool))
    (num_rows num_trees : nat) : Prop :=
  trees_by_sample ≠ []
  ∧ ∀ sample tree_index, sample < num_rows → tree_index < num_trees →
      ∃ mask, trees_by_sample !! sample = Some mask
              ∧ mask !! tree_index = Some true.

(** The number of trees that have left their leaf values in the buffer. *)
Definition contributions (leaf_values : list (list Matrix)) : nat :=
  length (filter (λ v, v ≠ []) leaf_values).



End CollectorNotions.

(** * Notions of the trainer *)

Module TrainerNotions.

(** The held-out samples that are routed to a leaf, in their order. *)
Definition routed (leaf_nodes : list nat) (leaf_samples : list nat) (node : nat)
    : list nat :=
  filter (λ sample, leaf_nodes !! sample = Some node) leaf_samples.

(** The leaves after repopulation: for each node id the held-out samples
    routed to it. *)
Definition repopulated (leaf_nodes : list nat) (leaf_samples : list nat)
    (num_nodes : nat) : list (list nat) :=
  routed leaf_nodes leaf_samples <$> seq 0 num_nodes.

(** A sampler whose draws extend the result by the requested number of
    variables whenever that many can be drawn. *)
Definition draws_as_requested {G} (random_sampler : RandomSampler G) : Prop :=
  (∀ g result max skip n,
     (0 ≤ n)%Z → Z.to_nat n ≤ length (Notions.available (Z.to_nat max) skip) →
     length (draw_without_replacement_skip random_sampler g result max skip n).1
     = length result + Z.to_nat n)
  ∧ (∀ g result indices n weights,
       (0 ≤ n)%Z → Z.to_nat n ≤ length indices →
       length (draw_without_replacement_weighted random_sampler g result
                 indices n weights).1
       = length result + Z.to_nat n).

End TrainerNotions.

(** * The shape of a grown tree *)

Module TreeNotions.

(** [child] is recorded as a child of [parent] in the two child vectors. *)
Definition is_child (left right : list nat) (parent child : nat) : Prop :=
  left !! parent = Some child ∨ right !! parent = Some child.

(** A node without children: both entries are 0, as [create_empty_node]
    leaves them. *)
Definition childless (left right : list nat) (node : nat) : Prop :=
  left !! node = Some 0 ∧ right !! node = Some 0.

(** A split node: its children are two consecutive later nodes of the
    tree, and it keeps no samples. *)
Definition split_in_two (left right : list nat) (samples : list (list nat))
    (node : nat) : Prop :=
  ∃ child,
    left !! node = Some child ∧ right !! node = Some (S child)
    ∧ node < child ∧ S child < length samples ∧ samples !! node = Some [].

(** Every node but the root has one parent, which is an earlier node. *)
Definition one_parent (left right : list nat) (samples : list (list nat)) : Prop :=
  ∀ child, 0 < child < length samples →
    ∃ parent,
      parent < child ∧ is_child left right parent child
      ∧ ∀ parent', is_child left right parent' child → parent' = parent.

(** The node vectors while the loop of [train] is about to visit node [i]:
    the nodes before [i] are settled and the nodes from [i] on are open. *)
Definition growing (left right : list nat) (samples : list (list nat))
    (i : nat) : Prop :=
  length left = length samples ∧ length right = length samples
  ∧ (∀ node, node < i →
       childless left right node ∨ split_in_two left right samples node)
  ∧ (∀ node, i ≤ node < length samples → childless left right node)
  ∧ one_parent left right samples.

(** The node vectors of a binary tree rooted at node 0. *)
Definition binary_tree (child_nodes : list (list nat))
    (samples : list (list nat)) : Prop :=
  ∃ left right,
    child_nodes = [left; right]
    ∧ 0 < length samples
    ∧ length left = length samples ∧ length right = length samples
    ∧ (∀ node, node < length samples →
         childless left right node ∨ split_in_two left right samples node)
    ∧ one_parent left right samples.

End TreeNotions.

(** * The mean that the collector computes *)

Module MeanNotions.

(** Whether the collector includes a tree for a row: every tree with an
    empty mask, the entry of the mask otherwise. *)
Definition included (trees_by_sample : list (list bool))
    (sample tree_index : nat) : bool :=
  bool_decide (trees_by_sample = [])
  || default false (trees_by_sample !! sample ≫= (λ mask, mask !! tree_index)).





End MeanNotions.

(** * Properties *)

(** ** Sequencing and loops *)

Lemma bind_Ok_inv {A B} (m : result A) (f : A → result B) (b : B) :
  bind m f = Ok b → ∃ a, m = Ok a ∧ f a = Ok b.
Proof. destruct m as [a|e]; simpl; [eauto | discriminate]. Qed.

Lemma bind_Ok {A B} (m : result A) (f : A → result B) (a : A) :
  m = Ok a → bind m f = f a.
Proof. intros ->. reflexivity. Qed.

(** Inversion of a hypothesis [bind m f = Ok b], naming the value of [m]. *)
Tactic Notation "bind_inv" hyp(H) "as" ident(x) ident(Hx) :=
  apply bind_Ok_inv in H; destruct H as (x & Hx & H).

Lemma vec_at_Ok {A} (v : list A) (i : nat) (x : A) :
  vec_at v i = Ok x ↔ v !! i = Some x.
Proof. unfold vec_at. destruct (v !! i); split; congruence. Qed.

Lemma vec_get_Ok {A} (v : list A) (i : nat) (x : A) :
  vec_get v i = Ok x ↔ v !! i = Some x.
Proof. unfold vec_get. destruct (v !! i); split; congruence. Qed.

Lemma vec_set_Ok {A} (v v' : list A) (i : nat) (x : A) :
  vec_set v i x = Ok v' ↔ i < length v ∧ v' = <[i := x]> v.
Proof.
  unfold vec_set. destruct (decide (i < length v)); split.
  - intros [= <-]. auto.
  - intros [_ ->]. reflexivity.
  - discriminate.
  - intros [? _]. lia.
Qed.

(** A loop whose body leaves the accumulator as it is on every element
    returns the accumulator. *)
Lemma foldM_fixed {A B} (f : A → B → result A) (a : A) (l : list B) :
  (∀ b, b ∈ l → f a b = Ok a) → foldM f a l = Ok a.
Proof.
  induction l as [|b l IH]; intros Hf; simpl; [reflexivity|].
  rewrite Hf by constructor. simpl. apply IH. intros b' Hb'. apply Hf.
  by constructor.
Qed.

(** A property of the accumulator that every returning iteration keeps
    holds when the loop returns. *)
Lemma foldM_invariant {A B} (P : A → Prop) (f : A → B → result A) (l : list B) :
  (∀ a b a', b ∈ l → P a → f a b = Ok a' → P a') →
  ∀ a a', P a → foldM f a l = Ok a' → P a'.
Proof.
  induction l as [|b l IH]; intros Hf a a' Ha H; simpl in H.
  - congruence.
  - bind_inv H as a1 H1. eapply IH; [| |exact H].
    + intros ? ? ? ?. apply Hf. by constructor.
    + eapply Hf; [by constructor|exact Ha|exact H1].
Qed.

(** A loop that pushes one computed element per index returns, at every
    index, the element computed for it. *)
Lemma foldM_push_lookup {A} (g : nat → result A) (n : nat) :
  ∀ (start : nat) (acc out : list A),
    foldM (λ ps i, p <- g i ;; Ok (ps ++ [p])) acc (seq start n) = Ok out →
    length out = length acc + n ∧
    (∀ i, i < length acc → out !! i = acc !! i) ∧
    (∀ i, i < n → ∃ p, g (start + i) = Ok p ∧ out !! (length acc + i) = Some p).
Proof.
  induction n as [|n IH]; intros start acc out H; simpl in H.
  - injection H as <-. split; [lia|]. split; [auto|]. intros i Hi. lia.
  - bind_inv H as ps Hps. bind_inv Hps as p Hp. injection Hps as <-.
    apply IH in H as (Hlen & Hold & Hnew).
    rewrite length_app in Hlen, Hold, Hnew. simpl in *.
    split; [lia|]. split.
    + intros i Hi. rewrite Hold by lia. by rewrite lookup_app_l.
    + intros [|i] Hi.
      * exists p. rewrite Nat.add_0_r. split; [exact Hp|].
        rewrite Hold by lia. rewrite Nat.add_0_r.
        rewrite lookup_app_r by lia. by rewrite Nat.sub_diag.
      * destruct (Hnew i) as (q & Hq & Hlook); [lia|]. exists q.
        replace (start + S i) with (S start + i) by lia. split; [exact Hq|].
        rewrite <- Hlook. f_equal. lia.
Qed.

(** ** Comparisons of doubles *)

Lemma SFcompare_antisym (x y : spec_float) :
  SFcompare y x = option_map CompOpp (SFcompare x y).
Proof.
  destruct x as [sx|sx| |sx mx ex], y as [sy|sy| |sy my ey]; simpl;
    try reflexivity; try (destruct sx; reflexivity);
    try (destruct sy; reflexivity); try (destruct sx, sy; reflexivity).
  destruct sx, sy; simpl; try reflexivity;
    rewrite (Z.compare_antisym ex ey); destruct (ex ?= ey)%Z; simpl;
    try reflexivity; f_equal;
    rewrite (Pos.compare_cont_antisym mx my Eq); reflexivity.
Qed.

(** A failed [<=] is a [>] unless an operand is NaN. *)
Lemma leb_false_gtb (x y : double) :
  Double.leb x y = false →
  Double.gtb x y = true ∨ Double.is_nan x = true ∨ Double.is_nan y = true.
Proof.
  unfold Double.leb, Double.gtb, SFleb, SFltb. rewrite (SFcompare_antisym x y).
  destruct x as [sx|sx| |sx mx ex], y as [sy|sy| |sy my ey];
    try (right; left; reflexivity); try (right; right; reflexivity);
    destruct (SFcompare _ _) as [[]|] eqn:Hc; simpl; intros H;
    try discriminate H; try (left; reflexivity); simpl in Hc; discriminate Hc.
Qed.

(** A NaN operand fails both [<=] and [>]. *)
Lemma nan_unordered (y : double) :
  Double.leb Double.nan y = false ∧ Double.gtb Double.nan y = false.
Proof. destruct y; split; reflexivity. Qed.

(** ** The regression prediction strategy *)

Module RegressionFacts.

Module RPS := RegressionPredictionStrategy.
Import Notions Examples.

(** The accumulator of [RPS.leaf_average] keeps its 1x4 shape. *)
Lemma leaf_sum_shape (observations : Observations.t) (leaf_node : list nat) :
  ∀ (average sum : Matrix),
    foldM (λ average sample,
             v <- Observations.get observations Observations.OUTCOME sample ;;
             Eigen.add_assign_vector average v) average leaf_node = Ok sum →
    Eigen.rows sum = Eigen.rows average ∧ Eigen.cols sum = Eigen.cols average.
Proof.
  intros average sum H.
  eapply (foldM_invariant
            (λ m, Eigen.rows m = Eigen.rows average ∧ Eigen.cols m = Eigen.cols average));
    [|split; reflexivity|exact H].
  intros a b a' _ [Hr Hc] Hstep. bind_inv Hstep as v Hv.
  unfold Eigen.add_assign_vector in Hstep.
  destruct (decide _); [|discriminate]. injection Hstep as <-. simpl. auto.
Qed.

Lemma leaf_average_shape (observations : Observations.t) (leaf_node : list nat)
    (mat : Matrix) :
  RPS.leaf_average observations leaf_node = Ok mat →
  Eigen.rows mat = 1 ∧ Eigen.cols mat = 4.
Proof.
  unfold RPS.leaf_average. intros H. bind_inv H as sum Hsum.
  unfold Eigen.comma_init in H. destruct (decide _) as [Hd|]; [|discriminate].
  injection H as <-. exact Hd.
Qed.

Lemma precompute_loop_shape (observations : Observations.t) :
  ∀ (leaf_samples : list (list nat)) (values : list (list Matrix)),
    RPS.precompute_loop observations leaf_samples = Ok values →
    ∀ node averages mat,
      values !! node = Some averages → mat ∈ averages →
      Eigen.rows mat = 1 ∧ Eigen.cols mat = 4.
Proof.
  induction leaf_samples as [|leaf_node rest IH]; intros values H; simpl in H.
  - injection H as <-. intros node averages mat Hl. by rewrite lookup_nil in Hl.
  - bind_inv H as averages Ha. bind_inv H as values' Hv. injection H as <-.
    intros [|node] av mat Hl Hin; simpl in Hl.
    + injection Hl as <-. case_bool_decide.
      * injection Ha as <-. by apply elem_of_nil in Hin.
      * bind_inv Ha as m Hm. injection Ha as <-.
        apply list_elem_of_singleton in Hin as ->.
        eapply leaf_average_shape, Hm.
    + eapply IH; eauto.
Qed.

(** Whatever the leaves and the observations, a summary matrix that
    [RPS.precompute_prediction_values] stores has one row and four columns,
    never one column. *)
Lemma precompute_prediction_values_shape (leaf_samples : list (list nat))
    (observations : Observations.t) (pv : PredictionValues.t)
    (node : nat) (mat : Matrix) :
  RPS.precompute_prediction_values leaf_samples observations = Ok pv →
  PredictionValues.get pv node RPS.OUTCOME = Ok mat →
  Eigen.rows mat = 1 ∧ Eigen.cols mat = 4.
Proof.
  unfold RPS.precompute_prediction_values. intros H Hget.
  bind_inv H as values Hv. injection H as <-.
  unfold PredictionValues.get in Hget. simpl in Hget.
  bind_inv Hget as averages Ha. apply vec_at_Ok in Ha, Hget.
  eapply precompute_loop_shape; eauto. eapply list_elem_of_lookup_2, Hget.
Qed.

Lemma precompute_prediction_values_shape_witness :
  ∃ pv mat,
    RPS.precompute_prediction_values [seq 0 10] four_column_observations = Ok pv ∧
    PredictionValues.get pv 0 RPS.OUTCOME = Ok mat ∧
    Eigen.rows mat = 1 ∧ Eigen.cols mat = 4.
Proof.
  eexists _, _. split; [vm_compute; reflexivity|]. split; [vm_compute; reflexivity|].
  eapply (precompute_prediction_values_shape [seq 0 10] four_column_observations _ 0);
    vm_compute; reflexivity.
Defined.

(** The variance vector has one entry whenever [RPS.compute_variance]
    returns. *)
Lemma compute_variance_length (debias : double → double → double → double)
    (average : list Matrix) (leaf_values : PredictionValues.t)
    (ci_group_size : Z) (variance : list double) :
  RPS.compute_variance debias average leaf_values ci_group_size = Ok variance →
  length variance = 1.
Proof.
  unfold RPS.compute_variance. intros H. bind_inv H as t Ht. by injection H as <-.
Qed.

Lemma compute_variance_length_witness :
  length [Double.zero] = 1.
Proof.
  apply (compute_variance_length (λ _ _ _, Double.zero)
           [summary 0] two_groups 2).
  vm_compute. reflexivity.
Defined.

(** The three derived terms are quotients of the accumulated ones, on
    every input on which the terms are computed. *)
Lemma compute_variance_terms_quotients (average : list Matrix)
    (leaf_values : PredictionValues.t) (ci_group_size : Z) (t : RPS.variance_terms) :
  RPS.compute_variance_terms average leaf_values ci_group_size = Ok t →
  RPS.var_between t = Double.div (RPS.psi_grouped_squared t) (RPS.num_good_groups t)
  ∧ RPS.var_total t
    = Double.div (RPS.psi_squared t)
        (Double.mul (RPS.num_good_groups t) (Double.of_Z ci_group_size))
  ∧ RPS.group_noise t
    = Double.div (Double.sub (RPS.var_total t) (RPS.var_between t))
        (Double.of_Z ((ci_group_size - 1) mod 2 ^ 32)).
Proof.
  unfold RPS.compute_variance_terms. intros H. bind_inv H as m Hm.
  bind_inv H as average_outcome Ha. destruct (decide _); [discriminate|].
  bind_inv H as acc Hacc. destruct acc as [[ngg ps] pgs]. injection H as <-.
  simpl. auto.
Qed.

Lemma compute_variance_terms_quotients_witness :
  Double.of_Z 1 = Double.div (Double.of_Z 2) (Double.of_Z 2)
  ∧ Double.of_Z 1
    = Double.div (Double.of_Z 4) (Double.mul (Double.of_Z 2) (Double.of_Z 2))
  ∧ Double.of_Z 0
    = Double.div (Double.sub (Double.of_Z 1) (Double.of_Z 1))
        (Double.of_Z ((2 - 1) mod 2 ^ 32)).
Proof.
  refine (compute_variance_terms_quotients [summary 0] two_groups 2
            {| RPS.num_good_groups := Double.of_Z 2;
               RPS.psi_squared := Double.of_Z 4;
               RPS.psi_grouped_squared := Double.of_Z 2;
               RPS.var_between := Double.of_Z 1;
               RPS.var_total := Double.of_Z 1;
               RPS.group_noise := Double.of_Z 0 |} _).
  vm_compute. reflexivity.
Defined.

(** C2. For [ci_group_size = 2], the leaf summaries [[1],[1]] and
    [[-1],[-1]] and the average outcome 0, [RPS.compute_variance] reaches its
    debiaser with [RPS.psi_squared = 4], [RPS.psi_grouped_squared = 2],
    [RPS.var_between = 1], [RPS.var_total = 1] and [RPS.group_noise = 0]; both groups
    are good ([RPS.num_good_groups = 2]) since none of the four leaf slots is
    empty, and the three derived terms are the quotients
    [RPS.psi_grouped_squared / RPS.num_good_groups],
    [RPS.psi_squared / (RPS.num_good_groups * ci_group_size)] and
    [(RPS.var_total - RPS.var_between) / (ci_group_size - 1)]. *)
Theorem compute_variance_two_groups :
  ∃ t : RPS.variance_terms,
    RPS.compute_variance_terms [summary 0] two_groups 2 = Ok t ∧
    RPS.psi_squared t = Double.of_Z 4 ∧
    RPS.psi_grouped_squared t = Double.of_Z 2 ∧
    RPS.var_between t = Double.of_Z 1 ∧
    RPS.var_total t = Double.of_Z 1 ∧
    RPS.group_noise t = Double.of_Z 0 ∧
    RPS.num_good_groups t = Double.of_Z 2 ∧
    Forall (λ slot, PredictionValues.empty two_groups slot = Ok false) (seq 0 4) ∧
    RPS.var_between t = Double.div (RPS.psi_grouped_squared t) (RPS.num_good_groups t) ∧
    RPS.var_total t =
      Double.div (RPS.psi_squared t) (Double.mul (RPS.num_good_groups t) (Double.of_Z 2)) ∧
    RPS.group_noise t =
      Double.div (Double.sub (RPS.var_total t) (RPS.var_between t)) (Double.of_Z (2 - 1)).
Proof.
  eexists. split; [vm_compute; reflexivity|].
  repeat split; try (vm_compute; reflexivity).
  repeat constructor.
Qed.

(** C3, on the code. With the ten outcomes as scalar outcomes and a
    single leaf holding the ten samples, [RPS.precompute_prediction_values]
    does not return a summary: its accumulator is a 1x4 matrix and the
    first outcome vector added to it has one coefficient. *)
Theorem precompute_prediction_values_scalar_outcomes :
  Observations.get scalar_observations Observations.OUTCOME 0
    = Ok [Double.dec (-999984) 5] ∧
  Eigen.add_assign_vector (Eigen.Zero 1 4) [Double.dec (-999984) 5]
    = Raise Undefined ∧
  RPS.precompute_prediction_values [seq 0 10] scalar_observations = Raise Undefined.
Proof. repeat split; vm_compute; reflexivity. Qed.

(** With outcomes of four components the accumulation is defined: the
    summary of the leaf is the 1x4 matrix of the means of the components,
    each the sum of the ten outcomes in the order of the samples divided by
    ten, and within 1e-12 of the exact mean. *)
Example precompute_prediction_values_four_columns :
  let mean :=
    Double.div (foldl Double.add Double.zero ten_outcomes) (Double.of_Z 10) in
  RPS.precompute_prediction_values [seq 0 10] four_column_observations
  = Ok (PredictionValues.create
          [[{| Eigen.rows := 1; Eigen.cols := 4;
               Eigen.coeffs := [mean; mean; mean; mean] |}]] 1 1)
  ∧ Qle_bool (Qabs (Double.to_Q mean - exact_mean)) (1 # 1000000000000) = true.
Proof. split; vm_compute; reflexivity. Qed.

(** C4, on the code. On the two groups above [RPS.compute_variance] returns
    the vector with the single entry [debias 1 0 2], while
    [prediction_length] is 4. *)
Theorem compute_variance_length_differs (debias : double → double → double → double) :
  RPS.compute_variance debias [summary 0] two_groups 2
    = Ok [debias (Double.of_Z 1) (Double.of_Z 0) (Double.of_Z 2)] ∧
  length [debias (Double.of_Z 1) (Double.of_Z 0) (Double.of_Z 2)] = 1 ∧
  prediction_length (RPS.strategy debias) = 4.
Proof. repeat split; vm_compute; reflexivity. Qed.

End RegressionFacts.


(** ** The optimized prediction collector *)

Module CollectorFacts.

Module OPC := OptimizedPredictionCollector.
Import Notions Examples.

Section Collector.

Variable strategy : OptimizedPredictionStrategy.
Variable ci_group_size : Z.

Lemma tree_body_no_contribution forest leaf_nodes_by_tree trees_by_sample
    sample acc tree_index :
  no_contribution forest leaf_nodes_by_tree trees_by_sample sample tree_index →
  OPC.tree_body ci_group_size forest leaf_nodes_by_tree trees_by_sample
    sample acc tree_index = Ok acc.
Proof.
  unfold OPC.tree_body.
  intros [Hskip | (Hskip & leaf_nodes & node & tree & Hl & Hn & Ht & He)];
    rewrite Hskip; simpl; [reflexivity|].
  apply vec_at_Ok in Hl, Hn. apply vec_get_Ok in Ht.
  rewrite Hl; simpl. rewrite Hn; simpl. rewrite Ht; simpl. rewrite He; simpl.
  reflexivity.
Qed.

Lemma collect_prediction_no_contribution forest leaf_nodes_by_tree
    trees_by_sample sample :
  (∀ tree_index, tree_index < length (Forest.get_trees forest) →
     no_contribution forest leaf_nodes_by_tree trees_by_sample sample tree_index) →
  OPC.collect_prediction strategy ci_group_size forest leaf_nodes_by_tree
    trees_by_sample sample = Ok (nan_prediction strategy).
Proof.
  intros Hno. unfold OPC.collect_prediction, OPC.collect_leaves.
  rewrite foldM_fixed; [reflexivity|].
  intros tree_index Hin. apply tree_body_no_contribution, Hno.
  apply elem_of_seq in Hin. lia.
Qed.

(** A mask that excludes every tree for the sample. *)
Lemma all_excluded_no_contribution forest leaf_nodes_by_tree trees_by_sample
    sample mask :
  trees_by_sample !! sample = Some mask →
  (∀ tree_index, tree_index < length (Forest.get_trees forest) →
     mask !! tree_index = Some false) →
  ∀ tree_index, tree_index < length (Forest.get_trees forest) →
    no_contribution forest leaf_nodes_by_tree trees_by_sample sample tree_index.
Proof.
  intros Hmask Hall tree_index Hlt. left. unfold OPC.skipped.
  case_bool_decide as Hnil; [by rewrite Hnil, lookup_nil in Hmask|].
  apply vec_get_Ok in Hmask. rewrite Hmask; simpl.
  specialize (Hall _ Hlt). apply vec_get_Ok in Hall. by rewrite Hall.
Qed.

(** C5. When no tree contributes a non-empty leaf to a query row (in
    particular when the inclusion mask excludes every tree for the row),
    the collector emits for the row, without raising, the prediction whose
    point vector has length [prediction_length] with every entry NaN and
    whose variance vector is empty; and that is the prediction found at
    the index of the row in the output of [collect_predictions]. *)
Theorem collect_predictions_empty_row
    (forest : Forest.t) (prediction_data : Data)
    (leaf_nodes_by_tree : list (list nat)) (trees_by_sample : list (list bool))
    (sample : nat) :
  (∀ tree_index, tree_index < length (Forest.get_trees forest) →
     no_contribution forest leaf_nodes_by_tree trees_by_sample sample tree_index) →
  OPC.collect_prediction strategy ci_group_size forest leaf_nodes_by_tree
    trees_by_sample sample = Ok (nan_prediction strategy)
  ∧ length (Prediction.predictions (nan_prediction strategy)) = prediction_length strategy
  ∧ Forall (λ x, Double.is_nan x = true) (Prediction.predictions (nan_prediction strategy))
  ∧ Prediction.variance_estimates (nan_prediction strategy) = []
  ∧ (∀ predictions,
       sample < get_num_rows prediction_data →
       OPC.collect_predictions strategy ci_group_size forest prediction_data
         leaf_nodes_by_tree trees_by_sample = Ok predictions →
       predictions !! sample = Some (nan_prediction strategy)).
Proof.
  intros Hno.
  pose proof (collect_prediction_no_contribution _ _ _ _ Hno) as Hrow.
  split; [exact Hrow|]. split; [apply length_replicate|].
  split; [apply Forall_replicate; reflexivity|]. split; [reflexivity|].
  intros predictions Hlt Hall. unfold OPC.collect_predictions in Hall.
  apply foldM_push_lookup in Hall as (_ & _ & Hnew).
  destruct (Hnew sample Hlt) as (p & Hp & Hlook). simpl in Hp, Hlook.
  rewrite Hrow in Hp. injection Hp as <-. exact Hlook.
Qed.

Lemma validate_prediction_Ok sample prediction :
  OPC.validate_prediction strategy sample prediction = Ok tt
  ↔ Prediction.size prediction = prediction_length strategy.
Proof.
  unfold OPC.validate_prediction. case_bool_decide as H; split; intros H'.
  - discriminate.
  - contradiction.
  - destruct (decide (Prediction.size prediction = prediction_length strategy));
      [assumption|contradiction].
  - reflexivity.
Qed.

Lemma collect_prediction_size forest leaf_nodes_by_tree trees_by_sample
    sample prediction :
  OPC.collect_prediction strategy ci_group_size forest leaf_nodes_by_tree
    trees_by_sample sample = Ok prediction →
  Prediction.size prediction = prediction_length strategy.
Proof.
  unfold OPC.collect_prediction. intros H. bind_inv H as acc Hacc.
  case_bool_decide.
  - injection H as <-. apply length_replicate.
  - bind_inv H as point_prediction Hpoint. bind_inv H as variance Hvar.
    bind_inv H as u Hvalid. injection H as <-. destruct u.
    by apply validate_prediction_Ok in Hvalid.
Qed.

(** C9. [validate_prediction] raises (a [runtime_error]) if and only if
    the size of the prediction, the length of its point vector, differs
    from [prediction_length]; a prediction that the collector computes
    from contributing leaves and emits has passed that check, so every
    prediction in the output of [collect_predictions] has a point vector
    of length [prediction_length]. *)
Theorem validate_prediction_raises_iff
    (forest : Forest.t) (prediction_data : Data)
    (leaf_nodes_by_tree : list (list nat)) (trees_by_sample : list (list bool)) :
  (∀ sample prediction,
     (∃ what, OPC.validate_prediction strategy sample prediction
                = Raise (RuntimeError what))
     ↔ length (Prediction.predictions prediction) ≠ prediction_length strategy)
  ∧ (∀ sample acc prediction,
       OPC.collect_leaves ci_group_size forest leaf_nodes_by_tree trees_by_sample
         sample = Ok acc →
       OPC.num_leaves acc ≠ 0 →
       OPC.collect_prediction strategy ci_group_size forest leaf_nodes_by_tree
         trees_by_sample sample = Ok prediction →
       length (Prediction.predictions prediction) = prediction_length strategy)
  ∧ (∀ predictions,
       OPC.collect_predictions strategy ci_group_size forest prediction_data
         leaf_nodes_by_tree trees_by_sample = Ok predictions →
       Forall (λ prediction,
                 length (Prediction.predictions prediction)
                 = prediction_length strategy) predictions).
Proof.
  split; [|split].
  - intros sample prediction. unfold OPC.validate_prediction, Prediction.size.
    case_bool_decide as H; split.
    + intros _. exact H.
    + intros _. eexists. reflexivity.
    + intros [what Hwhat]. discriminate.
    + intros H'. exfalso. apply H'.
      destruct (decide (length (Prediction.predictions prediction)
                        = prediction_length strategy)); [assumption|contradiction].
  - intros sample acc prediction _ _ H. eapply collect_prediction_size, H.
  - intros predictions H. unfold OPC.collect_predictions in H.
    apply foldM_push_lookup in H as (Hlen & _ & Hnew). simpl in Hlen, Hnew.
    apply Forall_lookup. intros i prediction Hi.
    assert (i < get_num_rows prediction_data) as Hlt.
    { apply lookup_lt_Some in Hi. lia. }
    destruct (Hnew i Hlt) as (p & Hp & Hlook). simpl in Hlook.
    rewrite Hi in Hlook. injection Hlook as <-.
    eapply collect_prediction_size, Hp.
Qed.

End Collector.

Lemma collect_predictions_empty_row_witness :
  OPC.collect_predictions regression 1 two_trees two_rows landing_nodes
    row_0_excluded
  = Ok [nan_prediction regression; nan_prediction regression]
  ∧ [nan_prediction regression; nan_prediction regression] !! 0
    = Some (nan_prediction regression)
  ∧ [nan_prediction regression; nan_prediction regression] !! 1
    = Some (nan_prediction regression).
Proof.
  assert (OPC.collect_predictions regression 1 two_trees two_rows landing_nodes
            row_0_excluded
          = Ok [nan_prediction regression; nan_prediction regression]) as Hrun
    by (vm_compute; reflexivity).
  split; [exact Hrun|]. split.
  - (* row 0: every tree is excluded by the mask *)
    refine (proj2 (proj2 (proj2 (proj2
      (collect_predictions_empty_row regression 1 two_trees two_rows
         landing_nodes row_0_excluded 0 _)))) _ _ Hrun); [|simpl; lia].
    intros tree_index Hlt. left.
    destruct tree_index as [|[|tree_index]]; [reflexivity|reflexivity|simpl in Hlt; lia].
  - (* row 1: both trees are included and the row lands in an empty leaf *)
    refine (proj2 (proj2 (proj2 (proj2
      (collect_predictions_empty_row regression 1 two_trees two_rows
         landing_nodes row_0_excluded 1 _)))) _ _ Hrun); [|simpl; lia].
    intros tree_index Hlt. right. split.
    + destruct tree_index as [|[|tree_index]];
        [reflexivity|reflexivity|simpl in Hlt; lia].
    + destruct tree_index as [|[|tree_index]]; [| |simpl in Hlt; lia];
        eexists _, _, _; repeat split; reflexivity.
Defined.

Lemma validate_prediction_raises_iff_witness :
  Forall (λ prediction, length (Prediction.predictions prediction) = 4)
    [averaged_prediction; nan_prediction regression]
  ∧ ∃ what,
      OPC.validate_prediction regression 0 (Prediction.point [Double.zero])
      = Raise (RuntimeError what).
Proof.
  pose proof (validate_prediction_raises_iff regression 2 two_trees two_rows
                landing_nodes []) as (Hiff & _ & Hall).
  split.
  - apply Hall. vm_compute. reflexivity.
  - apply Hiff. vm_compute. discriminate.
Defined.

End CollectorFacts.

(** ** The tree trainer *)

Module TrainerFacts.

Module TT := TreeTrainer.
Import Notions Examples.

Section Trainer.

Context {G R : Type}.
Variable random_sampler : RandomSampler G.
Variable relabeling_strategy : RelabelingStrategy.
Variable splitting_rule_factory : SplittingRule R.
Variable options : TreeOptions.

Local Abbreviation state := (TT.state (G := G) (R := R)).
Local Abbreviation split_node_internal :=
  (TT.split_node_internal relabeling_strategy splitting_rule_factory options).
Local Abbreviation create_split_variable_subset :=
  (TT.create_split_variable_subset random_sampler options).

Lemma mark_terminal_Ok (node : nat) (st : state) :
  node < length (TT.split_values st) →
  TT.mark_terminal node st
  = Ok (true, TT.set_split_values (<[node := Double.of_Z (-1)]> (TT.split_values st)) st).
Proof.
  intros Hlt. unfold TT.mark_terminal, vec_set.
  destruct (decide (node < length (TT.split_values st))); [reflexivity|lia].
Qed.

(** The purity loop returns [true] on samples whose outcome scalars are
    all equal, whatever the value it compares the first of them with when
    it is not at the first iteration. *)
Lemma pure_loop_equal (observations : Observations.t) :
  ∀ (node_samples : list nat) (i : nat) (pure_value : double),
    (∀ a, a ∈ node_samples →
       ∃ x, outcome_scalar observations a = Ok x
            ∧ (i ≠ 0 → Double.eqb x pure_value = true)) →
    (∀ a b, a ∈ node_samples → b ∈ node_samples →
       ∃ x y, outcome_scalar observations a = Ok x
              ∧ outcome_scalar observations b = Ok y
              ∧ Double.eqb x y = true) →
    TT.pure_loop observations i pure_value node_samples = Ok true.
Proof.
  induction node_samples as [|sample rest IH]; intros i pure_value Hprev Hall;
    simpl; [reflexivity|].
  destruct (Hprev sample) as (x & Hx & Hxp); [by constructor|].
  unfold outcome_scalar in Hx. bind_inv Hx as value Hvalue.
  rewrite Hvalue; simpl. rewrite Hx; simpl.
  assert (negb (i =? 0) && Double.neb x pure_value = false) as ->.
  { destruct (Nat.eqb_spec i 0) as [|Hi]; [reflexivity|]. simpl.
    unfold Double.neb. unfold Double.eqb in Hxp. by rewrite Hxp. }
  apply IH.
  - intros a Ha. destruct (Hall a sample) as (xa & xs & Hxa & Hxs & Heq);
      [by constructor|by constructor|].
    exists xa. split; [exact Hxa|]. intros _.
    unfold outcome_scalar in Hxs. rewrite Hvalue in Hxs. simpl in Hxs.
    rewrite Hx in Hxs. by injection Hxs as <-.
  - intros a b Ha Hb. apply Hall; by constructor.
Qed.

(** C7. On a node with at most [min_node_size] samples,
    [split_node_internal] returns [true] and its only effect is
    [split_values[node] = -1.0]. *)
Theorem split_node_internal_min_node_size
    (node : nat) (observations : Observations.t) (possible_split_vars : list nat)
    (st : state) (node_samples : list nat) :
  TT.samples st !! node = Some node_samples →
  length node_samples ≤ get_min_node_size options →
  node < length (TT.split_values st) →
  ∃ st',
    split_node_internal node observations possible_split_vars st = Ok (true, st')
    ∧ TT.split_values st' !! node = Some (Double.of_Z (-1))
    ∧ st' = TT.set_split_values (<[node := Double.of_Z (-1)]> (TT.split_values st)) st.
Proof.
  intros Hnode Hsize Hlt. eexists. split; [|split; [|reflexivity]].
  - unfold TT.split_node_internal. apply vec_get_Ok in Hnode.
    rewrite Hnode; simpl. rewrite bool_decide_eq_true_2 by exact Hsize.
    by apply mark_terminal_Ok.
  - simpl. by apply list_lookup_insert_eq.
Qed.

(** C6. On a node whose samples all have the same outcome scalar,
    [split_node_internal] returns [true] and its only effect is
    [split_values[node] = -1.0]: neither the relabeling strategy nor
    [find_best_split] is called, so the recorded calls and the splitting
    rule are the ones before the call. *)
Theorem split_node_internal_pure_node
    (node : nat) (observations : Observations.t) (possible_split_vars : list nat)
    (st : state) (node_samples : list nat) :
  TT.samples st !! node = Some node_samples →
  (∀ a b, a ∈ node_samples → b ∈ node_samples →
     ∃ x y, outcome_scalar observations a = Ok x
            ∧ outcome_scalar observations b = Ok y
            ∧ Double.eqb x y = true) →
  node < length (TT.split_values st) →
  ∃ st',
    split_node_internal node observations possible_split_vars st = Ok (true, st')
    ∧ TT.split_values st' !! node = Some (Double.of_Z (-1))
    ∧ TT.calls st' = TT.calls st
    ∧ TT.splitting_rule st' = TT.splitting_rule st
    ∧ st' = TT.set_split_values (<[node := Double.of_Z (-1)]> (TT.split_values st)) st.
Proof.
  intros Hnode Hall Hlt.
  exists (TT.set_split_values (<[node := Double.of_Z (-1)]> (TT.split_values st)) st).
  split; [|split; [|split; [|split]]].
  - unfold TT.split_node_internal. apply vec_get_Ok in Hnode. rewrite Hnode; simpl.
    case_bool_decide; [by apply mark_terminal_Ok|].
    rewrite pure_loop_equal; simpl; [by apply mark_terminal_Ok| |exact Hall].
    intros a Ha. destruct (Hall a a Ha Ha) as (x & _ & Hx & _ & _).
    exists x. split; [exact Hx|]. intros Hi. by contradict Hi.
  - simpl. by apply list_lookup_insert_eq.
  - reflexivity.
  - reflexivity.
  - reflexivity.
Qed.

Lemma length_filter_split {A} (P : A → Prop) `{!∀ x, Decision (P x)} (l : list A) :
  length l = length (filter P l) + length (filter (λ x, ¬ P x) l).
Proof.
  induction l as [|a l IH]; [reflexivity|].
  rewrite !filter_cons.
  destruct (decide (P a)), (decide (¬ P a)); simpl; try lia; tauto.
Qed.

(** Among [l], a list without duplicates, at most [length skip] elements
    are in [skip]. *)
Lemma filter_not_in_length (skip l : list nat) :
  NoDup l →
  length l ≤ length (filter (λ i, i ∉ skip) l) + length skip.
Proof.
  intros Hl.
  pose proof (length_filter_split (λ i, i ∉ skip) l) as Hsplit.
  assert (length (filter (λ i : nat, ¬ (i ∉ skip)) l) ≤ length skip) as Hle.
  { apply submseteq_length, NoDup_submseteq; [by apply NoDup_filter|].
    intros x Hx. apply list_elem_of_filter in Hx as [Hx _].
    destruct (decide (x ∈ skip)); [assumption|contradiction]. }
  lia.
Qed.

Lemma available_length (num_cols : nat) (skip : list nat) :
  num_cols ≤ length (available num_cols skip) + length skip.
Proof.
  unfold available.
  pose proof (filter_not_in_length skip (seq 0 num_cols) (NoDup_seq 0 num_cols)) as H.
  by rewrite length_seq in H.
Qed.

(** C8. The count handed to the sampler is the Poisson draw of mean
    [mtry] brought into [[1, num_independent_variables]], where
    [num_independent_variables = num_cols - |no_split_variables|]; with a
    sampler whose draws extend the result by the requested number of
    variables whenever that many can be drawn, [mtry = 2], no deterministic
    variables and one independent variable, the candidate set has exactly
    one element from every generator state. *)
Theorem create_split_variable_subset_clamp (data : Data) :
  (∀ g result max skip n,
     (0 ≤ n)%Z → Z.to_nat n ≤ length (available (Z.to_nat max) skip) →
     length (draw_without_replacement_skip random_sampler g result max skip n).1
     = length result + Z.to_nat n) →
  (∀ g result indices n weights,
     (0 ≤ n)%Z → Z.to_nat n ≤ length indices →
     length (draw_without_replacement_weighted random_sampler g result
               indices n weights).1
     = length result + Z.to_nat n) →
  let num_independent_variables :=
    TT.size_t_sub (Z.of_nat (get_num_cols data))
      (Z.of_nat (length (get_no_split_variables options))) in
  (∀ g result,
     create_split_variable_subset result g data []
     = let '(mtry_sample, g') := sample_poisson random_sampler g (get_mtry options) in
       draw_without_replacement_skip random_sampler g'
         (result ++ get_deterministic_vars options)
         (Z.of_nat (get_num_cols data)) (get_no_split_variables options)
         (TT.split_mtry mtry_sample num_independent_variables))
  ∧ (∀ mtry_sample,
       (1 ≤ num_independent_variables)%Z →
       (1 ≤ TT.split_mtry mtry_sample num_independent_variables
          ≤ num_independent_variables)%Z
       ∧ ((1 ≤ mtry_sample ≤ num_independent_variables)%Z →
          TT.split_mtry mtry_sample num_independent_variables = mtry_sample)
       ∧ ((mtry_sample < 1)%Z →
          TT.split_mtry mtry_sample num_independent_variables = 1%Z)
       ∧ ((num_independent_variables < mtry_sample)%Z →
          TT.split_mtry mtry_sample num_independent_variables
          = num_independent_variables))
  ∧ (get_mtry options = 2%Z →
     get_deterministic_vars options = [] →
     num_independent_variables = 1%Z →
     length (get_no_split_variables options) ≤ get_num_cols data →
     ∀ g split_select_weights,
       (split_select_weights ≠ [] → get_split_select_vars options ≠ []) →
       length (create_split_variable_subset [] g data split_select_weights).1 = 1).
Proof.
  intros Hskip Hweighted n. split; [|split].
  - intros g result. unfold TT.create_split_variable_subset. fold n.
    destruct (sample_poisson _ _ _) as [mtry_sample g']. reflexivity.
  - intros mtry_sample Hn. unfold TT.split_mtry. lia.
  - intros _ Hdet Hone Hcols g weights Hvars.
    unfold TT.create_split_variable_subset. fold n. rewrite Hdet, Hone. simpl.
    destruct (sample_poisson _ _ _) as [mtry_sample g'].
    assert (TT.split_mtry mtry_sample 1 = 1%Z) as -> by (unfold TT.split_mtry; lia).
    case_bool_decide as Hw.
    + rewrite Hskip; [reflexivity|lia|]. rewrite Nat2Z.id.
      pose proof (available_length (get_num_cols data)
                    (get_no_split_variables options)) as Hav.
      unfold n, TT.size_t_sub in Hone.
      assert (get_num_cols data ≠ length (get_no_split_variables options)) as Hne.
      { intros Heq. rewrite Heq, Z.sub_diag in Hone. discriminate Hone. }
      change (Z.to_nat 1) with 1. lia.
    + rewrite bool_decide_eq_true_2 by (simpl; lia).
      rewrite Hweighted; [reflexivity|simpl; lia|].
      specialize (Hvars Hw). destruct (get_split_select_vars options);
        [contradiction|simpl; lia].
Qed.

(** *** The partition of a node *)

Local Abbreviation split_node :=
  (TT.split_node random_sampler relabeling_strategy splitting_rule_factory options).

Lemma mark_terminal_inv (node : nat) (st st' : state) (b : bool) :
  TT.mark_terminal node st = Ok (b, st') →
  b = true ∧ node < length (TT.split_values st)
  ∧ st' = TT.set_split_values (<[node := Double.of_Z (-1)]> (TT.split_values st)) st.
Proof.
  unfold TT.mark_terminal. intros H. bind_inv H as sv Hsv.
  apply vec_set_Ok in Hsv as [Hlt ->]. by injection H as <- <-.
Qed.

(** [split_node_internal] leaves the samples, the child nodes and the
    sampler as they are. *)
Lemma split_node_internal_frame node observations possible_split_vars
    (st st' : state) (b : bool) :
  split_node_internal node observations possible_split_vars st = Ok (b, st') →
  TT.samples st' = TT.samples st
  ∧ TT.child_nodes st' = TT.child_nodes st
  ∧ TT.sampler st' = TT.sampler st
  ∧ node < length (TT.samples st).
Proof.
  unfold TT.split_node_internal. intros H. bind_inv H as node_samples Hnode.
  apply vec_get_Ok, lookup_lt_Some in Hnode.
  case_bool_decide.
  { apply mark_terminal_inv in H as (_ & _ & ->). auto. }
  bind_inv H as pure Hpure. destruct pure.
  { apply mark_terminal_inv in H as (_ & _ & ->). auto. }
  case_bool_decide.
  { apply mark_terminal_inv in H as (_ & _ & ->). auto. }
  destruct (find_best_split _ _ _ _ _ _ _ _) as [[[stop svars] svalues] rule].
  destruct stop.
  - apply mark_terminal_inv in H as (_ & _ & ->). auto.
  - injection H as <- <-. auto.
Qed.

Lemma push_back_at_inv {A} (v v' : list (list A)) (i : nat) (x : A) :
  TT.push_back_at v i x = Ok v' →
  ∃ inner, v !! i = Some inner ∧ v' = <[i := inner ++ [x]]> v.
Proof.
  unfold TT.push_back_at. intros H. bind_inv H as inner Hinner.
  apply vec_get_Ok in Hinner. apply vec_set_Ok in H as [_ ->]. eauto.
Qed.

Lemma set_at_inv {A} (v v' : list (list A)) (i j : nat) (x : A) :
  TT.set_at v i j x = Ok v' →
  ∃ inner, v !! i = Some inner ∧ j < length inner
           ∧ v' = <[i := <[j := x]> inner]> v.
Proof.
  unfold TT.set_at. intros H. bind_inv H as inner Hinner.
  bind_inv H as inner' Hinner'. apply vec_get_Ok in Hinner.
  apply vec_set_Ok in Hinner' as [Hlt ->]. apply vec_set_Ok in H as [_ ->]. eauto.
Qed.

Lemma create_empty_node_inv (st st' : state) :
  TT.create_empty_node st = Ok st' →
  (∃ c0 c1,
     TT.child_nodes st !! 0 = Some c0 ∧ TT.child_nodes st !! 1 = Some c1
     ∧ TT.child_nodes st' !! 0 = Some (c0 ++ [0])
     ∧ TT.child_nodes st' !! 1 = Some (c1 ++ [0]))
  ∧ TT.samples st' = TT.samples st ++ [[]]
  ∧ TT.split_vars st' = TT.split_vars st ++ [0]
  ∧ TT.split_values st' = TT.split_values st ++ [Double.zero]
  ∧ TT.sampler st' = TT.sampler st
  ∧ TT.splitting_rule st' = TT.splitting_rule st
  ∧ TT.calls st' = TT.calls st.
Proof.
  unfold TT.create_empty_node. intros H. bind_inv H as cn Hcn.
  bind_inv H as cn' Hcn'. injection H as <-. simpl.
  apply push_back_at_inv in Hcn as (c0 & Hc0 & ->).
  apply push_back_at_inv in Hcn' as (c1 & Hc1 & ->).
  rewrite list_lookup_insert_ne in Hc1 by lia.
  split; [|auto 10]. exists c0, c1. split; [exact Hc0|]. split; [exact Hc1|].
  apply lookup_lt_Some in Hc0 as Hlt0. apply lookup_lt_Some in Hc1 as Hlt1.
  split.
  - rewrite list_lookup_insert_ne by lia. by apply list_lookup_insert_eq.
  - apply list_lookup_insert_eq. by rewrite length_insert.
Qed.

(** The loop that assigns the samples appends to the left child those
    that pass the test and to the right child the others, in order. *)
Lemma assign_loop (data : Data) (split_var : nat) (split_value : double)
    (nodes : list (list nat)) :
  ∀ (node_samples left_samples right_samples : list nat),
    foldM (TT.assign_sample data split_var split_value
             (length nodes) (S (length nodes)))
          (nodes ++ [left_samples; right_samples]) node_samples
    = Ok (nodes ++ [left_samples
                      ++ filter (goes_left data split_var split_value) node_samples;
                    right_samples
                      ++ filter (λ s, ¬ goes_left data split_var split_value s)
                           node_samples]).
Proof.
  induction node_samples as [|sample rest IH]; intros left_samples right_samples.
  - simpl. by rewrite !app_nil_r.
  - cbn [foldM]. rewrite !filter_cons. unfold TT.assign_sample at 1.
    unfold TT.push_back_at, vec_get, vec_set.
    destruct (decide (goes_left data split_var split_value sample)) as [Hl|Hr].
    + unfold goes_left in Hl. rewrite Hl.
      rewrite lookup_app_r, Nat.sub_diag by lia. simpl.
      destruct (decide _) as [_|Hlen];
        [|rewrite length_app in Hlen; simpl in Hlen; lia].
      simpl. rewrite insert_app_r_alt, Nat.sub_diag by lia. simpl.
      rewrite IH. rewrite decide_False by tauto. by rewrite <- app_assoc.
    + unfold goes_left in Hr. apply not_true_is_false in Hr as Hr'. rewrite Hr'.
      rewrite lookup_app_r by lia.
      replace (S (length nodes) - length nodes) with 1 by lia. simpl.
      destruct (decide _) as [_|Hlen];
        [|rewrite length_app in Hlen; simpl in Hlen; lia].
      simpl. rewrite insert_app_r_alt by lia.
      replace (S (length nodes) - length nodes) with 1 by lia. simpl.
      rewrite IH. rewrite decide_True by exact Hr. by rewrite <- app_assoc.
Qed.

(** What [split_node] has done when it returns: nothing to the samples
    of a terminal node; for a node that it splits, the two children are the
    next two node ids, they are recorded as the children of the node, and
    they receive the samples of the node that pass and that fail the
    test. *)
Lemma split_node_inv node data observations split_select_weights
    (st st' : state) (b : bool) :
  split_node node data observations split_select_weights st = Ok (b, st') →
  if b then TT.samples st' = TT.samples st
  else
    ∃ node_samples split_var split_value left_children right_children,
      TT.samples st !! node = Some node_samples
      ∧ TT.split_vars st' !! node = Some split_var
      ∧ TT.split_values st' !! node = Some split_value
      ∧ TT.child_nodes st' !! 0 = Some left_children
      ∧ left_children !! node = Some (length (TT.samples st))
      ∧ TT.child_nodes st' !! 1 = Some right_children
      ∧ right_children !! node = Some (S (length (TT.samples st)))
      ∧ TT.samples st'
        = TT.samples st
            ++ [filter (goes_left data split_var split_value) node_samples;
                filter (λ s, ¬ goes_left data split_var split_value s) node_samples].
Proof.
  unfold TT.split_node. intros H.
  destruct (create_split_variable_subset _ _ _ _) as [possible_split_vars g].
  bind_inv H as r Hint. destruct r as [stop st1].
  apply split_node_internal_frame in Hint as Hframe.
  destruct Hframe as (Hsamples & Hchildren & _ & Hnlt).
  simpl in Hsamples, Hchildren, Hnlt.
  destruct stop.
  { injection H as <- <-. exact Hsamples. }
  bind_inv H as split_var Hvar. bind_inv H as split_value Hvalue.
  bind_inv H as cn Hcn. bind_inv H as st2 Hst2.
  bind_inv H as cn' Hcn'. bind_inv H as st3 Hst3.
  bind_inv H as node_samples Hnode. bind_inv H as s Hs. injection H as <- <-.
  apply vec_get_Ok in Hvar, Hvalue, Hnode.
  apply set_at_inv in Hcn as (c0 & Hc0 & Hlt0 & ->).
  apply create_empty_node_inv in Hst2
    as ((c0' & c1' & Hc0' & Hc1' & Hc0'' & Hc1'') & Hs2 & Hv2 & Hw2 & _).
  simpl in Hc0', Hc1', Hs2, Hv2, Hw2.
  apply lookup_lt_Some in Hc0 as Hlen0.
  rewrite list_lookup_insert_eq in Hc0' by exact Hlen0. injection Hc0' as <-.
  rewrite list_lookup_insert_ne in Hc1' by lia.
  apply set_at_inv in Hcn' as (c1 & Hc1 & Hlt1 & ->).
  rewrite Hc1'' in Hc1. injection Hc1 as <-.
  apply create_empty_node_inv in Hst3
    as ((d0 & d1 & Hd0 & Hd1 & Hd0' & Hd1') & Hs3 & Hv3 & Hw3 & _).
  simpl in Hd0, Hd1, Hs3, Hv3, Hw3.
  apply lookup_lt_Some in Hc1'' as Hlen1.
  rewrite list_lookup_insert_ne in Hd0 by lia. rewrite Hc0'' in Hd0.
  injection Hd0 as <-.
  rewrite list_lookup_insert_eq in Hd1 by exact Hlen1. injection Hd1 as <-.
  rewrite Hs3, Hs2, Hsamples in Hnode, Hs.
  rewrite <- app_assoc in Hnode, Hs. simpl in Hnode, Hs.
  rewrite length_app in Hs. simpl in Hs. rewrite Nat.add_1_r in Hs.
  rewrite assign_loop in Hs. injection Hs as <-.
  rewrite lookup_app_l in Hnode by exact Hnlt.
  rewrite Hs2, Hsamples, length_app, Nat.add_1_r in Hd1'. simpl in Hd1'.
  rewrite Hsamples in Hd0'.
  eexists node_samples, split_var, split_value, _, _. simpl.
  split; [exact Hnode|].
  split; [rewrite Hv3, Hv2, <- app_assoc; apply lookup_app_l_Some, Hvar|].
  split; [rewrite Hw3, Hw2, <- app_assoc; apply lookup_app_l_Some, Hvalue|].
  split; [exact Hd0'|].
  split.
  { rewrite <- app_assoc. apply lookup_app_l_Some.
    by apply list_lookup_insert_eq. }
  split; [exact Hd1'|].
  split; [apply lookup_app_l_Some; by apply list_lookup_insert_eq|].
  reflexivity.
Qed.

(** C1, as the code has it. When [split_node] splits a node, the left
    child receives exactly the samples of the node with
    [data[s, split_var] <= split_value] and the right child exactly the
    others; every sample of the right child fails the test [<=], which
    means that it satisfies [>] or that the feature value or the threshold
    is NaN. *)
Theorem split_node_partition
    (node : nat) (data : Data) (observations : Observations.t)
    (split_select_weights : list double) (st st' : state) :
  split_node node data observations split_select_weights st = Ok (false, st') →
  ∃ node_samples split_var split_value left_children right_children
    left_child right_child left_samples right_samples,
    TT.samples st !! node = Some node_samples
    ∧ TT.split_vars st' !! node = Some split_var
    ∧ TT.split_values st' !! node = Some split_value
    ∧ TT.child_nodes st' !! 0 = Some left_children
    ∧ left_children !! node = Some left_child
    ∧ TT.child_nodes st' !! 1 = Some right_children
    ∧ right_children !! node = Some right_child
    ∧ TT.samples st' !! left_child = Some left_samples
    ∧ TT.samples st' !! right_child = Some right_samples
    ∧ left_samples = filter (goes_left data split_var split_value) node_samples
    ∧ right_samples
      = filter (λ s, ¬ goes_left data split_var split_value s) node_samples
    ∧ Forall (λ s, Double.leb (get data s split_var) split_value = true)
        left_samples
    ∧ Forall (λ s, Double.leb (get data s split_var) split_value = false
                   ∧ (Double.gtb (get data s split_var) split_value = true
                      ∨ Double.is_nan (get data s split_var) = true
                      ∨ Double.is_nan split_value = true))
        right_samples.
Proof.
  intros H. apply split_node_inv in H
    as (node_samples & split_var & split_value & left_children & right_children
        & Hnode & Hvar & Hvalue & Hl & Hln & Hr & Hrn & Hsamples).
  eexists node_samples, split_var, split_value, left_children, right_children,
    _, _, _, _.
  do 7 (split; [eassumption|]).
  split; [rewrite Hsamples, lookup_app_r, Nat.sub_diag by lia; reflexivity|].
  split.
  { rewrite Hsamples, lookup_app_r by lia.
    replace (S (length (TT.samples st)) - length (TT.samples st)) with 1 by lia.
    reflexivity. }
  split; [reflexivity|]. split; [reflexivity|]. split.
  - apply Forall_forall. intros s Hs. by apply list_elem_of_filter in Hs as [Hs _].
  - apply Forall_forall. intros s Hs. apply list_elem_of_filter in Hs as [Hs _].
    unfold goes_left in Hs. apply not_true_is_false in Hs.
    split; [exact Hs|]. by apply leb_false_gtb.
Qed.

(** *** Growing the tree and the honest repopulation *)

Variable prediction_strategy : option OptimizedPredictionStrategy.
Variable tree_ops : Tree.Ops.

Local Abbreviation train_loop :=
  (TT.train_loop random_sampler relabeling_strategy splitting_rule_factory options).
Local Abbreviation grow :=
  (TT.grow random_sampler relabeling_strategy splitting_rule_factory options).
Local Abbreviation train :=
  (TT.train random_sampler relabeling_strategy splitting_rule_factory
     prediction_strategy options tree_ops).

Lemma mark_terminal_calls node (st st' : state) (b : bool) :
  TT.mark_terminal node st = Ok (b, st') → TT.calls st' = TT.calls st.
Proof. intros H. by apply mark_terminal_inv in H as (_ & _ & ->). Qed.

Lemma split_node_internal_calls node observations possible_split_vars
    (st st' : state) (b : bool) :
  split_node_internal node observations possible_split_vars st = Ok (b, st') →
  Forall growth_call (TT.calls st) → Forall growth_call (TT.calls st').
Proof.
  unfold TT.split_node_internal. intros H Hcalls. bind_inv H as node_samples Hnode.
  case_bool_decide.
  { apply mark_terminal_calls in H. by rewrite H. }
  bind_inv H as pure Hpure. destruct pure.
  { apply mark_terminal_calls in H. by rewrite H. }
  assert (Forall growth_call (TT.calls st ++ [TT.CallRelabel node])) as Hrelabel.
  { apply Forall_app. split; [exact Hcalls|]. by repeat constructor. }
  case_bool_decide.
  { apply mark_terminal_calls in H. by rewrite H. }
  destruct (find_best_split _ _ _ _ _ _ _ _) as [[[stop svars] svalues] rule].
  assert (Forall growth_call
            ((TT.calls st ++ [TT.CallRelabel node]) ++ [TT.CallFindBestSplit node]))
    as Hfind.
  { apply Forall_app. split; [exact Hrelabel|]. by repeat constructor. }
  destruct stop.
  - apply mark_terminal_calls in H. by rewrite H.
  - by injection H as <- <-.
Qed.

Lemma split_node_calls node data observations split_select_weights
    (st st' : state) (b : bool) :
  split_node node data observations split_select_weights st = Ok (b, st') →
  Forall growth_call (TT.calls st) → Forall growth_call (TT.calls st').
Proof.
  unfold TT.split_node. intros H Hcalls.
  destruct (create_split_variable_subset _ _ _ _) as [possible_split_vars g].
  bind_inv H as r Hint. destruct r as [stop st1].
  apply split_node_internal_calls in Hint; [|exact Hcalls].
  destruct stop; [by injection H as <- <-|].
  bind_inv H as split_var Hvar. bind_inv H as split_value Hvalue.
  bind_inv H as cn Hcn. bind_inv H as st2 Hst2.
  bind_inv H as cn' Hcn'. bind_inv H as st3 Hst3.
  bind_inv H as node_samples Hnode. bind_inv H as s Hs. injection H as <- <-.
  apply create_empty_node_inv in Hst2 as (_ & _ & _ & _ & _ & _ & Hc2).
  apply create_empty_node_inv in Hst3 as (_ & _ & _ & _ & _ & _ & Hc3).
  simpl in *. by rewrite Hc3, Hc2.
Qed.

(** Emptying a node removes its samples from the samples of the tree. *)
Lemma concat_insert_nil {A} (l : list (list A)) (i : nat) (x : list A) :
  l !! i = Some x → concat (<[i := []]> l) ++ x ≡ₚ concat l.
Proof.
  revert i. induction l as [|y l IH]; intros [|i] Hi; simpl in *; try discriminate.
  - injection Hi as ->. by rewrite Permutation_app_comm.
  - rewrite <- app_assoc. by rewrite IH.
Qed.

(** The loop of [train] moves samples between nodes and neither adds nor
    drops one; the calls it makes are calls of the relabeling strategy and
    of the splitting rule. *)
Lemma train_loop_inv (data : Data) (observations : Observations.t) (fuel : nat) :
  ∀ (num_open_nodes i : nat) (st st' : state),
    train_loop fuel data observations num_open_nodes i st = Ok st' →
    concat (TT.samples st') ≡ₚ concat (TT.samples st)
    ∧ (Forall growth_call (TT.calls st) → Forall growth_call (TT.calls st')).
Proof.
  induction fuel as [|fuel IH]; intros [|num_open_nodes] i st st' H; simpl in H;
    try (injection H as <-; split; [reflexivity|tauto]); try discriminate.
  bind_inv H as r Hsplit. destruct r as [is_leaf_node st1].
  pose proof (split_node_calls _ _ _ _ _ _ _ Hsplit) as Hcalls.
  apply split_node_inv in Hsplit. destruct is_leaf_node.
  - apply IH in H as [Hperm Hc]. rewrite Hsplit in Hperm. split; [exact Hperm|auto].
  - destruct Hsplit as (node_samples & split_var & split_value & lc & rc
                        & Hnode & _ & _ & _ & _ & _ & _ & Hsamples).
    bind_inv H as nodes Hnodes. apply vec_set_Ok in Hnodes as [_ ->].
    apply IH in H as [Hperm Hc]. simpl in Hperm, Hc. split; [|auto].
    rewrite Hperm, Hsamples.
    apply lookup_lt_Some in Hnode as Hlt.
    rewrite insert_app_l by exact Hlt. rewrite concat_app. simpl.
    rewrite app_nil_r, filter_app_complement.
    by apply concat_insert_nil.
Qed.

Lemma grow_inv fuel data observations g train_samples new_leaf_samples (st : state) :
  grow fuel data observations g train_samples = Ok (new_leaf_samples, st) →
  new_leaf_samples = (TT.honesty_split random_sampler options g train_samples).1.2
  ∧ concat (TT.samples st)
    ≡ₚ (TT.honesty_split random_sampler options g train_samples).1.1
  ∧ Forall growth_call (TT.calls st).
Proof.
  unfold TT.grow. intros H. bind_inv H as st0 Hst0.
  destruct (TT.honesty_split _ _ _ _) as [[root_samples held_out] g'].
  bind_inv H as nodes Hnodes. bind_inv H as st1 Hloop. injection H as <- <-.
  apply vec_set_Ok in Hnodes as [_ ->].
  apply create_empty_node_inv in Hst0 as (_ & Hs0 & _ & _ & _ & _ & Hc0).
  simpl in Hs0, Hc0.
  apply train_loop_inv in Hloop as [Hperm Hcalls]. simpl in Hperm, Hcalls.
  rewrite Hs0 in Hperm. simpl in Hperm. rewrite app_nil_r in Hperm.
  split; [reflexivity|]. split; [exact Hperm|].
  apply Hcalls. rewrite Hc0. constructor.
Qed.

(** C10. [train] repopulates and prunes the leaves if and only if the
    held-out half of the honesty split is not empty. Without honesty the
    held-out half is empty. When it is empty, [repopulate_leaf_nodes] is
    not called and the leaves of the returned tree are the node samples
    left by the partitioning: together they are the samples placed in the
    root, the ones used to choose the splits. *)
Theorem train_repopulates_iff
    (fuel : nat) (data : Data) (observations : Observations.t) (g g' : G)
    (train_samples : list nat) (tree : Tree.t) (calls : list TT.call) :
  train fuel data observations g train_samples = Ok (tree, g', calls) →
  ∃ (new_leaf_samples : list nat) (st : state),
    grow fuel data observations g train_samples = Ok (new_leaf_samples, st)
    ∧ new_leaf_samples
      = (TT.honesty_split random_sampler options g train_samples).1.2
    ∧ (TT.CallRepopulate ∈ calls ↔ new_leaf_samples ≠ [])
    ∧ (get_honesty options = false → new_leaf_samples = [])
    ∧ (new_leaf_samples ≠ [] →
       (∃ repopulated,
          TT.repopulate_leaf_nodes tree_ops (grown_tree st) data new_leaf_samples
          = Ok repopulated
          ∧ Tree.leaf_nodes tree = Tree.leaf_nodes repopulated))
    ∧ (new_leaf_samples = [] →
       (TT.CallRepopulate ∉ calls)
       ∧ Tree.leaf_nodes tree = TT.samples st
       ∧ concat (Tree.leaf_nodes tree)
         ≡ₚ (TT.honesty_split random_sampler options g train_samples).1.1).
Proof.
  unfold TT.train. intros H. bind_inv H as r Hgrow.
  destruct r as [new_leaf_samples st]. exists new_leaf_samples, st.
  split; [exact Hgrow|].
  apply grow_inv in Hgrow as (Hheld & Hperm & Hcalls).
  split; [exact Hheld|].
  assert (TT.CallRepopulate ∉ TT.calls st) as Hno.
  { intros Hin. eapply Forall_forall in Hcalls; [|exact Hin]. exact Hcalls. }
  fold (grown_tree st) in H.
  case_bool_decide as Hne.
  - (* the held-out half is not empty *)
    bind_inv H as r Hrep. bind_inv Hrep as repopulated Hrepopulated.
    injection Hrep as <-.
    assert (Tree.leaf_nodes tree = Tree.leaf_nodes repopulated
            ∧ TT.CallRepopulate ∈ calls) as [Hleaves Hin].
    { destruct prediction_strategy as [strategy|].
      - bind_inv H as r Hpre. bind_inv Hpre as pv Hpv. injection Hpre as <-.
        injection H as <- <- <-. split; [reflexivity|]. simpl.
        apply elem_of_app. left. apply elem_of_app. right. by constructor.
      - simpl in H. injection H as <- <- <-. split; [reflexivity|]. simpl.
        apply elem_of_app. right. by constructor. }
    split; [tauto|]. split.
    { intros Hh. unfold TT.honesty_split in Hheld. rewrite Hh in Hheld.
      simpl in Hheld. contradiction. }
    split; [eauto|]. intros Hnil. contradiction.
  - (* the held-out half is empty *)
    assert (new_leaf_samples = []) as Hnil.
    { destruct new_leaf_samples; [reflexivity|]. exfalso.
      first [discriminate Hne | apply Hne; discriminate]. }
    simpl in H.
    assert (Tree.leaf_nodes tree = TT.samples st ∧ TT.CallRepopulate ∉ calls)
      as [Hleaves Hnot].
    { destruct prediction_strategy as [strategy|].
      - bind_inv H as r Hpre. bind_inv Hpre as pv Hpv. injection Hpre as <-.
        injection H as <- <- <-. split; [reflexivity|]. simpl.
        intros Hin. apply elem_of_app in Hin as [Hin|Hin]; [contradiction|].
        apply list_elem_of_singleton in Hin. discriminate.
      - simpl in H. injection H as <- <- <-. split; [reflexivity|exact Hno]. }
    split; [tauto|]. split; [auto|]. split; [intros; contradiction|].
    intros _. split; [exact Hnot|]. split; [exact Hleaves|].
    by rewrite Hleaves.
Qed.

End Trainer.

(** *** A trainer on three samples *)

(** C1, as the specification words it, fails on a NaN feature value: the
    root holds the samples 0, 1 and 2, the feature of sample 1 is NaN and
    the rule splits at 0.5; sample 1 fails the test [<=] and is placed in
    the right child, where it does not satisfy [>]. *)
Lemma split_ordering_fails_on_nan :
  ∃ st',
    TT.split_node half_sampler outcome_relabeling root_rule (small_options 1 false)
      0 nan_feature (scalar_outcomes [1; 2; 3]%Z) [] (root_state [0; 1; 2])
    = Ok (false, st')
    ∧ TT.split_vars st' !! 0 = Some 0
    ∧ TT.split_values st' !! 0 = Some (Double.dec 5 1)
    ∧ TT.child_nodes st' = [[1; 0; 0]; [2; 0; 0]]
    ∧ TT.samples st' !! 1 = Some [0]
    ∧ TT.samples st' !! 2 = Some [1; 2]
    ∧ Double.gtb (get nan_feature 1 0) (Double.dec 5 1) = false
    ∧ ¬ split_ordering nan_feature 0 (Double.dec 5 1) [0] [1; 2].
Proof.
  eexists. split; [vm_compute; reflexivity|].
  do 6 (split; [vm_compute; reflexivity|]).
  intros [_ Hright]. apply Forall_cons in Hright as [Hgt _].
  vm_compute in Hgt. discriminate Hgt.
Qed.

Lemma split_node_partition_witness :
  ∃ st' left_samples right_samples,
    TT.split_node half_sampler outcome_relabeling root_rule (small_options 1 false)
      0 nan_feature (scalar_outcomes [1; 2; 3]%Z) [] (root_state [0; 1; 2])
    = Ok (false, st')
    ∧ TT.samples st' !! 1 = Some left_samples
    ∧ TT.samples st' !! 2 = Some right_samples
    ∧ Forall (λ s, Double.leb (get nan_feature s 0) (Double.dec 5 1) = true)
        left_samples
    ∧ Forall (λ s, Double.leb (get nan_feature s 0) (Double.dec 5 1) = false)
        right_samples.
Proof.
  assert (∃ r, TT.split_node half_sampler outcome_relabeling root_rule
                 (small_options 1 false) 0 nan_feature
                 (scalar_outcomes [1; 2; 3]%Z) [] (root_state [0; 1; 2])
               = Ok (false, r)) as [st' Hrun]
    by (eexists; vm_compute; reflexivity).
  destruct (split_node_partition _ _ _ _ _ _ _ _ _ _ Hrun)
    as (node_samples & split_var & split_value & lc & rc & l & r & ls & rs
        & Hnode & Hvar & Hvalue & Hlc & Hl & Hrc & Hr & Hls & Hrs & _ & _
        & Hleft & Hright).
  assert (TT.split_vars st' !! 0 = Some 0
          ∧ TT.split_values st' !! 0 = Some (Double.dec 5 1)
          ∧ TT.child_nodes st' = [[1; 0; 0]; [2; 0; 0]]) as (Hvar' & Hvalue' & Hcn).
  { revert Hrun. vm_compute. intros [= <-]. repeat split. }
  rewrite Hvar' in Hvar. injection Hvar as <-.
  rewrite Hvalue' in Hvalue. injection Hvalue as <-.
  rewrite Hcn in Hlc, Hrc. injection Hlc as <-. injection Hrc as <-.
  injection Hl as <-. injection Hr as <-.
  exists st', ls, rs. split; [exact Hrun|]. split; [exact Hls|]. split; [exact Hrs|].
  split; [exact Hleft|]. eapply Forall_impl; [exact Hright|]. by intros s [Hs _].
Defined.

(** With [min_node_size = 5], a node of five samples is terminal. *)
Lemma split_node_internal_min_node_size_witness :
  ∃ st',
    TT.split_node_internal outcome_relabeling root_rule (small_options 5 false)
      0 (scalar_outcomes [1; 2; 3; 4; 5]%Z) [0] (root_state [0; 1; 2; 3; 4])
    = Ok (true, st')
    ∧ TT.split_values st' !! 0 = Some (Double.of_Z (-1))
    ∧ st' = TT.set_split_values [Double.of_Z (-1)] (root_state [0; 1; 2; 3; 4]).
Proof.
  apply (split_node_internal_min_node_size outcome_relabeling root_rule
           (small_options 5 false) 0 (scalar_outcomes [1; 2; 3; 4; 5]%Z) [0]
           (root_state [0; 1; 2; 3; 4]) [0; 1; 2; 3; 4]).
  - reflexivity.
  - simpl. lia.
  - simpl. lia.
Defined.

(** A node of three samples whose outcomes are all 7.0 is terminal,
    without a call to the relabeling strategy or to the splitting rule. *)
Lemma split_node_internal_pure_node_witness :
  ∃ st',
    TT.split_node_internal outcome_relabeling root_rule (small_options 1 false)
      0 (scalar_outcomes [7; 7; 7]%Z) [0] (root_state [0; 1; 2])
    = Ok (true, st')
    ∧ TT.split_values st' !! 0 = Some (Double.of_Z (-1))
    ∧ TT.calls st' = []
    ∧ TT.splitting_rule st' = 0
    ∧ st' = TT.set_split_values [Double.of_Z (-1)] (root_state [0; 1; 2]).
Proof.
  apply (split_node_internal_pure_node outcome_relabeling root_rule
           (small_options 1 false) 0 (scalar_outcomes [7; 7; 7]%Z) [0]
           (root_state [0; 1; 2]) [0; 1; 2]).
  - reflexivity.
  - intros a b Ha Hb. exists (Double.of_Z 7), (Double.of_Z 7).
    repeat (apply elem_of_cons in Ha as [->|Ha]);
      try (by apply elem_of_nil in Ha);
      repeat (apply elem_of_cons in Hb as [->|Hb]);
      try (by apply elem_of_nil in Hb);
      repeat split; vm_compute; reflexivity.
  - simpl. lia.
Defined.

Lemma counter_sampler_skip keep g result max skip n :
  (0 ≤ n)%Z → Z.to_nat n ≤ length (available (Z.to_nat max) skip) →
  length (draw_without_replacement_skip (counter_sampler keep) g result max skip n).1
  = length result + Z.to_nat n.
Proof. intros _ Hn. simpl. rewrite length_app, length_take. lia. Qed.

Lemma counter_sampler_weighted keep g result indices n weights :
  (0 ≤ n)%Z → Z.to_nat n ≤ length indices →
  length (draw_without_replacement_weighted (counter_sampler keep) g result
            indices n weights).1
  = length result + Z.to_nat n.
Proof. intros _ Hn. simpl. rewrite length_app, length_take. lia. Qed.

(** With [mtry = 2] and a single column: the Poisson draws 0, 1, 2, 3 and
    4 of the counter sampler all give one candidate variable. *)
Lemma create_split_variable_subset_clamp_witness :
  (∀ g, length (TT.create_split_variable_subset half_sampler (small_options 1 false)
                  [] g id_feature []).1 = 1)
  ∧ (∀ mtry_sample, (1 ≤ TT.split_mtry mtry_sample 1 ≤ 1)%Z).
Proof.
  pose proof (create_split_variable_subset_clamp half_sampler (small_options 1 false)
                id_feature
                (counter_sampler_skip _) (counter_sampler_weighted _))
    as (_ & Hclamp & Hone).
  split.
  - intros g. apply Hone; try reflexivity.
    + simpl. lia.
    + intros Hw. contradiction.
  - intros mtry_sample. apply (Hclamp mtry_sample). vm_compute. discriminate.
Defined.

(** Honest training with a sampler that holds nothing out: the leaves
    keep the samples that chose the splits. *)
Lemma train_repopulates_iff_witness :
  ∃ tree g' calls new_leaf_samples st,
    TT.train greedy_sampler outcome_relabeling root_rule None (small_options 1 true)
      routing_tree_ops 10 id_feature (scalar_outcomes [1; 2; 3]%Z) 0 [0; 1; 2]
    = Ok (tree, g', calls)
    ∧ TT.grow greedy_sampler outcome_relabeling root_rule (small_options 1 true)
        10 id_feature (scalar_outcomes [1; 2; 3]%Z) 0 [0; 1; 2]
      = Ok (new_leaf_samples, st)
    ∧ new_leaf_samples = []
    ∧ (TT.CallRepopulate ∉ calls)
    ∧ Tree.leaf_nodes tree = TT.samples st
    ∧ concat (Tree.leaf_nodes tree) ≡ₚ [0; 1; 2].
Proof.
  assert (∃ r, TT.train greedy_sampler outcome_relabeling root_rule None
                 (small_options 1 true) routing_tree_ops 10 id_feature
                 (scalar_outcomes [1; 2; 3]%Z) 0 [0; 1; 2] = Ok r)
    as [[[tree g'] calls] Hrun] by (eexists; vm_compute; reflexivity).
  destruct (train_repopulates_iff _ _ _ _ _ _ _ _ _ _ _ _ _ _ Hrun)
    as (new_leaf_samples & st & Hgrow & Hheld & _ & _ & _ & Hnil).
  vm_compute in Hheld. destruct (Hnil Hheld) as (Hnot & Hleaves & Hperm).
  exists tree, g', calls, new_leaf_samples, st. repeat split; assumption.
Defined.

(** Honest training with a sampler that holds out half of the samples:
    the leaves are repopulated. *)
Example train_half_sampler :
  ∃ tree g' calls,
    TT.train half_sampler outcome_relabeling root_rule None (small_options 1 true)
      routing_tree_ops 10 id_feature (scalar_outcomes [1; 2; 3; 4]%Z) 0 [0; 1; 2; 3]
    = Ok (tree, g', calls)
    ∧ TT.CallRepopulate ∈ calls.
Proof.
  eexists _, _, _. split; [vm_compute; reflexivity|].
  apply list_elem_of_In. simpl. auto.
Qed.

(** The same training with the regression strategy attached: the
    precomputation of the leaf summaries leaves Eigen's contract on the
    scalar outcomes, so no tree is returned. *)
Example train_regression_scalar_outcomes :
  TT.train half_sampler outcome_relabeling root_rule (Some regression)
    (small_options 1 true) routing_tree_ops 10 id_feature
    (scalar_outcomes [1; 2; 3; 4]%Z) 0 [0; 1; 2; 3]
  = Raise Undefined.
Proof. vm_compute. reflexivity. Qed.

End TrainerFacts.

(** ** Observations *)

Module ObservationsFacts.

Import Shapes.

(** X1. [Observations::get] returns for a role that is present and a sample
    below the number of rows the row of the sample: as many coefficients as
    the matrix of the role has columns, coefficient [j] being entry
    [(sample, j)]; it returns for no other role or sample. *)
Theorem get_row (o : Observations.t) (type sample : nat) :
  (∀ v, Observations.get o type sample = Ok v →
     ∃ m, Observations.observations_by_type o !! type = Some m
          ∧ sample < Eigen.rows m)
  ∧ (∀ m, Observations.observations_by_type o !! type = Some m →
       sample < Eigen.rows m → well_stored m →
       ∃ v, Observations.get o type sample = Ok v
            ∧ length v = Eigen.cols m
            ∧ ∀ j, j < Eigen.cols m →
                ∃ x, Eigen.coeff m sample j = Ok x ∧ v !! j = Some x).
Proof.
  unfold Observations.get, Eigen.row. split.
  - intros v H. bind_inv H as m Hm. apply vec_get_Ok in Hm.
    destruct (decide _) as [[Hlt _]|]; [|discriminate]. eauto.
  - intros m Hm Hlt Hwf. apply vec_get_Ok in Hm. rewrite Hm; simpl.
    unfold well_stored in Hwf. rewrite decide_True by auto.
    eexists. split; [reflexivity|]. split.
    { by rewrite length_fmap, length_seq. }
    intros j Hj. unfold Eigen.coeff, vec_get. rewrite decide_True by auto.
    assert (sample + Eigen.rows m * j < length (Eigen.coeffs m)) as Hidx.
    { rewrite Hwf. nia. }
    destruct (lookup_lt_is_Some_2 _ _ Hidx) as [x Hx]. rewrite Hx.
    exists x. split; [reflexivity|].
    rewrite list_lookup_fmap, lookup_seq_lt by exact Hj. simpl.
    f_equal. by apply nth_lookup_Some with (d := Double.zero) in Hx.
Qed.

Lemma get_row_witness :
  ∃ v, Observations.get Examples.four_column_observations Observations.OUTCOME 2 = Ok v
       ∧ length v = 4
       ∧ ∀ j, j < 4 →
           ∃ x, Eigen.coeff
                  {| Eigen.rows := 10; Eigen.cols := 4;
                     Eigen.coeffs :=
                       Examples.ten_outcomes ++ Examples.ten_outcomes
                       ++ Examples.ten_outcomes ++ Examples.ten_outcomes |} 2 j = Ok x
                ∧ v !! j = Some x.
Proof.
  apply (proj2 (get_row Examples.four_column_observations Observations.OUTCOME 2)
           {| Eigen.rows := 10; Eigen.cols := 4;
              Eigen.coeffs :=
                Examples.ten_outcomes ++ Examples.ten_outcomes
                ++ Examples.ten_outcomes ++ Examples.ten_outcomes |}).
  - reflexivity.
  - simpl. lia.
  - reflexivity.
Defined.

End ObservationsFacts.

(** ** More on loops *)

(** Two bodies that agree on the elements of the list give the same
    loop. *)
Lemma foldM_ext {A B} (f g : A → B → result A) (l : list B) :
  (∀ a b, b ∈ l → f a b = g a b) → ∀ a, foldM f a l = foldM g a l.
Proof.
  induction l as [|b l IH]; intros Hfg a; simpl; [reflexivity|].
  rewrite Hfg by constructor. destruct (g a b) as [a'|e]; simpl; [|reflexivity].
  apply IH. intros a0 b0 Hb0. apply Hfg. by constructor.
Qed.

(** In a loop that returns, the body has returned on every element, from
    an accumulator that satisfies every invariant of the loop. *)
Lemma foldM_each {A B} (P : A → Prop) (f : A → B → result A) (l : list B) :
  (∀ a b a', b ∈ l → P a → f a b = Ok a' → P a') →
  ∀ a a', P a → foldM f a l = Ok a' →
    ∀ b, b ∈ l → ∃ a1 a2, P a1 ∧ f a1 b = Ok a2.
Proof.
  induction l as [|b0 l IH]; intros Hf a a' Ha H b Hb; simpl in H.
  - by apply elem_of_nil in Hb.
  - bind_inv H as a1 H1. apply elem_of_cons in Hb as [->|Hb]; [eauto|].
    eapply (IH (λ a b a' Hb, Hf a b a' (list_elem_of_further _ _ _ Hb)) a1 a');
      [|exact H|exact Hb].
    eapply Hf; [by constructor|exact Ha|exact H1].
Qed.

(** A loop over consecutive indices with an invariant that depends on the
    index reached. *)
Lemma foldM_seq_invariant {A} (P : nat → A → Prop) (f : A → nat → result A) :
  ∀ (len start : nat) (a a' : A),
    (∀ k b b', start ≤ k < start + len → P k b → f b k = Ok b' → P (S k) b') →
    P start a → foldM f a (seq start len) = Ok a' → P (start + len) a'.
Proof.
  induction len as [|len IH]; intros start a a' Hf Ha H; simpl in H.
  - injection H as <-. by rewrite Nat.add_0_r.
  - bind_inv H as a1 H1. replace (start + S len) with (S start + len) by lia.
    eapply IH; [|eapply Hf; [|exact Ha|exact H1]; lia|exact H].
    intros k b b' Hk. apply Hf. lia.
Qed.

(** A loop raises when its body raises on some element whatever the
    accumulator. *)
Lemma foldM_raises {A B} (f : A → B → result A) (l : list B) (b : B) :
  b ∈ l → (∀ a, ∃ e, f a b = Raise e) → ∀ a, ∃ e, foldM f a l = Raise e.
Proof.
  induction l as [|b0 l IH]; intros Hb Hf a; simpl.
  - by apply elem_of_nil in Hb.
  - destruct (f a b0) as [a1|e] eqn:H0; simpl; [|eauto].
    apply elem_of_cons in Hb as [->|Hb].
    + destruct (Hf a) as [e He]. congruence.
    + by apply IH.
Qed.

(** ** More on the regression prediction strategy *)

Module RegressionSummaries.

Module RPS := RegressionPredictionStrategy.
Import Shapes Examples.





(** The accumulator of [leaf_average] keeps four coefficients, and every
    outcome added to it has four. *)
Lemma leaf_average_outcomes (observations : Observations.t) (leaf_node : list nat)
    (mat : Matrix) :
  RPS.leaf_average observations leaf_node = Ok mat →
  regression_summary mat
  ∧ ∀ sample, sample ∈ leaf_node →
      ∃ v, Observations.get observations Observations.OUTCOME sample = Ok v
           ∧ length v = 4.
Proof.
  unfold RPS.leaf_average. intros H. bind_inv H as total Htotal.
  set (P := λ m : Matrix, length (Eigen.coeffs m) = 4).
  assert (∀ a b a', b ∈ leaf_node → P a →
            (v <- Observations.get observations Observations.OUTCOME b ;;
             Eigen.add_assign_vector a v) = Ok a' → P a') as Hstep.
  { intros a b a' _ Ha Hb. bind_inv Hb as v Hv. unfold Eigen.add_assign_vector in Hb.
    destruct (decide _) as [Hlen|]; [|discriminate]. injection Hb as <-.
    unfold P in *. simpl. rewrite length_zip_with. lia. }
  split.
  - unfold Eigen.comma_init in H. destruct (decide _) as [[Hr Hc]|]; [|discriminate].
    injection H as <-. unfold regression_summary, Eigen.scalar_div in *.
    cbn [Eigen.rows Eigen.cols Eigen.coeffs] in *.
    split; [exact Hr|]. split; [exact Hc|]. rewrite length_fmap.
    eapply (foldM_invariant P); [exact Hstep| |exact Htotal]. reflexivity.
  - intros sample Hs.
    assert (P (Eigen.Zero 1 4)) as Hzero by reflexivity.
    destruct (foldM_each P _ _ Hstep _ _ Hzero Htotal sample Hs)
      as (a1 & a2 & Ha1 & Hbody).
    bind_inv Hbody as v Hv. exists v. split; [exact Hv|].
    unfold Eigen.add_assign_vector in Hbody.
    destruct (decide _) as [Hlen|]; [|discriminate]. unfold P in Ha1. lia.
Qed.

Lemma precompute_loop_lookup (observations : Observations.t) :
  ∀ (leaf_samples : list (list nat)) (values : list (list Matrix)),
    RPS.precompute_loop observations leaf_samples = Ok values →
    length values = length leaf_samples
    ∧ ∀ node leaf_node,
        leaf_samples !! node = Some leaf_node →
        ∃ averages,
          values !! node = Some averages
          ∧ (leaf_node = [] → averages = [])
          ∧ (leaf_node ≠ [] →
             ∃ mat, RPS.leaf_average observations leaf_node = Ok mat
                    ∧ averages = [mat]).
Proof.
  induction leaf_samples as [|leaf_node rest IH]; intros values H; simpl in H.
  - injection H as <-. split; [reflexivity|]. intros node l Hl.
    by rewrite lookup_nil in Hl.
  - bind_inv H as averages Ha. bind_inv H as values' Hv. injection H as <-.
    apply IH in Hv as [Hlen Hlook]. split; [simpl; lia|].
    intros [|node] l Hl; simpl in Hl.
    + injection Hl as <-. exists averages. split; [reflexivity|].
      case_bool_decide as Hnil.
      * injection Ha as <-. split; [auto|contradiction].
      * bind_inv Ha as mat Hmat. injection Ha as <-. split; [contradiction|eauto].
    + apply Hlook, Hl.
Qed.

(* The shape of the values of the regression strategy, for the proofs
   about [precompute_prediction_values] and about [train]. *)
Lemma precompute_prediction_values_inv
    (leaf_samples : list (list nat)) (observations : Observations.t)
    (pv : PredictionValues.t) :
  RPS.precompute_prediction_values leaf_samples observations = Ok pv →
  PredictionValues.num_nodes pv = length leaf_samples
  ∧ PredictionValues.num_types pv = 1
  ∧ (∀ node leaf_node, leaf_samples !! node = Some leaf_node →
       PredictionValues.empty pv node = Ok (bool_decide (leaf_node = [])))
  ∧ (∀ node, length leaf_samples ≤ node →
       PredictionValues.empty pv node = Raise OutOfRange)
  ∧ regression_summaries pv
  ∧ (∀ node leaf_node sample,
       leaf_samples !! node = Some leaf_node → sample ∈ leaf_node →
       ∃ v, Observations.get observations Observations.OUTCOME sample = Ok v
            ∧ length v = 4).
Proof.
  unfold RPS.precompute_prediction_values. intros H. bind_inv H as values Hv.
  injection H as <-. apply precompute_loop_lookup in Hv as [Hlen Hlook].
  split; [reflexivity|]. split; [reflexivity|]. split; [|split; [|split]].
  - intros node leaf_node Hl. destruct (Hlook _ _ Hl) as (averages & Ha & Hnil & Hne).
    unfold PredictionValues.empty, vec_at. simpl. rewrite Ha. simpl. f_equal.
    destruct leaf_node as [|s leaf_node].
    + by rewrite (Hnil eq_refl).
    + destruct Hne as (mat & _ & ->); [discriminate|]. reflexivity.
  - intros node Hnode. unfold PredictionValues.empty, vec_at. simpl.
    rewrite lookup_ge_None_2 by lia. reflexivity.
  - split; [reflexivity|]. simpl. intros node averages Ha.
    destruct (lookup_lt_is_Some_2 leaf_samples node) as [leaf_node Hl].
    { apply lookup_lt_Some in Ha. lia. }
    destruct (Hlook _ _ Hl) as (averages' & Ha' & Hnil & Hne).
    rewrite Ha in Ha'. injection Ha' as <-.
    destruct leaf_node as [|s leaf_node]; [left; auto|]. right.
    destruct Hne as (mat & Hmat & ->); [discriminate|].
    exists mat. split; [reflexivity|]. by apply leaf_average_outcomes in Hmat as [? _].
  - intros node leaf_node sample Hl Hs.
    destruct (Hlook _ _ Hl) as (averages & Ha & Hnil & Hne).
    destruct Hne as (mat & Hmat & _).
    { intros ->. by apply elem_of_nil in Hs. }
    apply leaf_average_outcomes in Hmat as [_ Hall]. by apply Hall.
Qed.



End RegressionSummaries.

(** ** The variance of the regression prediction strategy *)

Module RegressionVariance.

Module RPS := RegressionPredictionStrategy.
Import Shapes Examples MoreExamples.

Lemma slot_in_groups (num_groups ci group j : nat) :
  group < num_groups → j < ci → group * ci + j < num_groups * ci.
Proof. intros Hg Hj. nia. Qed.

Lemma group_body_same (leaf_values leaf_values' : PredictionValues.t)
    (average_outcome : double) (ci num_groups : nat) :
  (∀ i, i < num_groups * ci →
     PredictionValues.values leaf_values !! i
     = PredictionValues.values leaf_values' !! i) →
  ∀ acc group, group ∈ seq 0 num_groups →
    RPS.group_body leaf_values average_outcome ci acc group
    = RPS.group_body leaf_values' average_outcome ci acc group.
Proof.
  intros Hsame acc group Hgroup. apply elem_of_seq in Hgroup as [_ Hgroup].
  simpl in Hgroup. unfold RPS.group_body. destruct acc as [[ngg ps] pgs].
  assert (RPS.good_group_loop leaf_values group ci
          = RPS.good_group_loop leaf_values' group ci) as ->.
  { unfold RPS.good_group_loop. apply foldM_ext. intros good j Hj.
    apply elem_of_seq in Hj as [_ Hj]. simpl in Hj.
    unfold PredictionValues.empty, vec_at.
    by rewrite (Hsame _ (slot_in_groups _ _ _ _ Hgroup Hj)). }
  assert (RPS.psi_loop leaf_values average_outcome group ci ps
          = RPS.psi_loop leaf_values' average_outcome group ci ps) as ->;
    [|reflexivity].
  unfold RPS.psi_loop. apply foldM_ext. intros [p q] j Hj.
  apply elem_of_seq in Hj as [_ Hj]. simpl in Hj.
  unfold PredictionValues.get, vec_at.
  by rewrite (Hsame _ (slot_in_groups _ _ _ _ Hgroup Hj)).
Qed.

(** X4. [compute_variance] reads the leaf values of the complete groups
    only: with [num_nodes] trees in groups of [ci_group_size], the trees
    from index [(num_nodes / ci_group_size) * ci_group_size] on have no
    influence on the variance. *)
Theorem compute_variance_complete_groups
    (debias : double → double → double → double) (average : list Matrix)
    (leaf_values leaf_values' : PredictionValues.t) (ci_group_size : Z) :
  PredictionValues.num_nodes leaf_values = PredictionValues.num_nodes leaf_values' →
  (∀ i, i < PredictionValues.num_nodes leaf_values / Z.to_nat ci_group_size
            * Z.to_nat ci_group_size →
     PredictionValues.values leaf_values !! i
     = PredictionValues.values leaf_values' !! i) →
  RPS.compute_variance debias average leaf_values ci_group_size
  = RPS.compute_variance debias average leaf_values' ci_group_size.
Proof.
  intros Hn Hsame. unfold RPS.compute_variance, RPS.compute_variance_terms.
  destruct (vec_at average RPS.OUTCOME) as [m|e]; [|reflexivity]. cbn [bind].
  destruct (Eigen.coeff m 0 0) as [average_outcome|e]; [|reflexivity]. cbn [bind].
  destruct (decide _); [reflexivity|]. rewrite <- Hn.
  rewrite (foldM_ext _ _ _ (group_body_same _ _ average_outcome _ _ Hsame)).
  reflexivity.
Qed.

Lemma compute_variance_complete_groups_witness :
  RPS.compute_variance sum_debias [summary 0] (five_leaves 7) 2
  = RPS.compute_variance sum_debias [summary 0] (five_leaves (-3)) 2.
Proof.
  apply (compute_variance_complete_groups sum_debias [summary 0]
           (five_leaves 7) (five_leaves (-3)) 2).
  - reflexivity.
  - intros i Hi. change (i < 4) in Hi.
    destruct i as [|[|[|[|i]]]]; try reflexivity. lia.
Defined.

(** A group with an empty slot is not good. *)
Lemma good_group_loop_false (leaf_values : PredictionValues.t) (group ci : nat) :
  ∀ (slots : list nat) (good_group : bool),
    (∀ j, j ∈ slots → ∃ b, PredictionValues.empty leaf_values (group * ci + j) = Ok b) →
    good_group = false
    ∨ (∃ j, j ∈ slots ∧ PredictionValues.empty leaf_values (group * ci + j) = Ok true) →
    foldM (λ good_group j,
             e <- PredictionValues.empty leaf_values (group * ci + j) ;;
             Ok (if e then false else good_group))
          good_group slots
    = Ok false.
Proof.
  induction slots as [|j slots IH]; intros good_group Hall Hsome.
  - destruct Hsome as [->|(j & Hj & _)]; [reflexivity|by apply elem_of_nil in Hj].
  - cbn [foldM]. destruct (Hall j) as [b Hb]; [by constructor|].
    rewrite (bind_Ok _ _ _ Hb). cbn [bind]. apply IH.
    + intros j' Hj'. apply Hall. by constructor.
    + destruct Hsome as [->|(j' & Hj' & Hempty)].
      * left. by destruct b.
      * apply elem_of_cons in Hj' as [->|Hj'].
        -- left. rewrite Hempty in Hb. by injection Hb as <-.
        -- right. eauto.
Qed.

Lemma div_zero_mul_zero (y : double) :
  Double.div Double.zero (Double.mul Double.zero y) = Double.nan.
Proof. destruct y as [[]|[]| |[] m e]; reflexivity. Qed.

Lemma div_nan (y : double) : Double.div Double.nan y = Double.nan.
Proof. destruct y as [[]|[]| |[] m e]; reflexivity. Qed.

(** X5. When every complete group has a tree that contributed no leaf
    (or there is no complete group), [compute_variance] counts no good
    group and hands to the debiaser a between-group variance and a group
    noise that are NaN, with zero good groups: the quotients are 0/0. *)
Theorem compute_variance_no_good_group
    (debias : double → double → double → double) (average : list Matrix)
    (leaf_values : PredictionValues.t) (ci_group_size : Z)
    (m : Matrix) (average_outcome : double) :
  average !! 0 = Some m →
  Eigen.coeff m 0 0 = Ok average_outcome →
  (0 < ci_group_size)%Z →
  let ci := Z.to_nat ci_group_size in
  let num_groups := PredictionValues.num_nodes leaf_values / ci in
  (∀ i, i < num_groups * ci → ∃ b, PredictionValues.empty leaf_values i = Ok b) →
  (∀ group, group < num_groups →
     ∃ j, j < ci ∧ PredictionValues.empty leaf_values (group * ci + j) = Ok true) →
  RPS.compute_variance_terms average leaf_values ci_group_size
  = Ok {| RPS.num_good_groups := Double.zero;
          RPS.psi_squared := Double.zero;
          RPS.psi_grouped_squared := Double.zero;
          RPS.var_between := Double.nan;
          RPS.var_total := Double.nan;
          RPS.group_noise := Double.nan |}
  ∧ RPS.compute_variance debias average leaf_values ci_group_size
    = Ok [debias Double.nan Double.nan Double.zero].
Proof.
  intros Hm Hx Hci ci num_groups Hrange Hbroken.
  assert (RPS.compute_variance_terms average leaf_values ci_group_size
          = Ok {| RPS.num_good_groups := Double.zero;
                  RPS.psi_squared := Double.zero;
                  RPS.psi_grouped_squared := Double.zero;
                  RPS.var_between := Double.nan;
                  RPS.var_total := Double.nan;
                  RPS.group_noise := Double.nan |}) as Hterms.
  { unfold RPS.compute_variance_terms. apply vec_at_Ok in Hm.
    rewrite (bind_Ok _ _ _ Hm), (bind_Ok _ _ _ Hx).
    rewrite decide_False by lia. fold ci. fold num_groups.
    rewrite foldM_fixed.
    - cbn [bind]. rewrite div_zero_mul_zero.
      change (Double.sub Double.nan (Double.div Double.zero Double.zero))
        with Double.nan.
      rewrite div_nan. reflexivity.
    - intros group Hgroup. apply elem_of_seq in Hgroup as [_ Hgroup].
      simpl in Hgroup. unfold RPS.group_body, RPS.good_group_loop.
      rewrite good_group_loop_false; [reflexivity| |].
      + intros j Hj. apply elem_of_seq in Hj as [_ Hj]. simpl in Hj.
        apply Hrange. by apply slot_in_groups.
      + right. destruct (Hbroken group Hgroup) as (j & Hj & Hempty).
        exists j. split; [apply elem_of_seq; simpl; lia|exact Hempty]. }
  split; [exact Hterms|]. unfold RPS.compute_variance. rewrite Hterms. reflexivity.
Qed.

Lemma compute_variance_no_good_group_witness :
  RPS.compute_variance sum_debias [summary 0] broken_groups 2
  = Ok [sum_debias Double.nan Double.nan Double.zero].
Proof.
  refine (proj2 (compute_variance_no_good_group sum_debias [summary 0]
                   broken_groups 2 (summary 0) Double.zero _ _ _ _ _)).
  - reflexivity.
  - reflexivity.
  - lia.
  - intros i Hi. change (i < 4) in Hi.
    destruct i as [|[|[|[|i]]]]; try (eexists; reflexivity). lia.
  - intros group Hgroup. change (group < 2) in Hgroup.
    destruct group as [|[|group]]; [exists 1|exists 0|lia]; split;
      try reflexivity; simpl; lia.
Defined.

End RegressionVariance.

(** ** More on the optimized prediction collector *)

Module CollectorRows.

Module OPC := OptimizedPredictionCollector.
Import Examples MoreExamples CollectorNotions.

(** A loop that pushes one computed element per index returns when the
    element is computed for every index. *)
Lemma foldM_push_returns {A} (g : nat → result A) (n : nat) :
  ∀ (start : nat) (acc : list A),
    (∀ i, i < n → ∃ p, g (start + i) = Ok p) →
    ∃ out, foldM (λ ps i, p <- g i ;; Ok (ps ++ [p])) acc (seq start n) = Ok out.
Proof.
  induction n as [|n IH]; intros start acc Hall; simpl; [eauto|].
  destruct (Hall 0) as [p Hp]; [lia|]. rewrite Nat.add_0_r in Hp.
  rewrite Hp. cbn [bind]. apply IH. intros i Hi.
  destruct (Hall (S i)) as [q Hq]; [lia|]. exists q. rewrite <- Hq. f_equal. lia.
Qed.

Section Collector.

Variable strategy : OptimizedPredictionStrategy.
Variable ci_group_size : Z.

(** X6. [collect_predictions] returns exactly when a prediction is
    computed for every row of the prediction data, and then returns one
    prediction per row, in the order of the rows; when the prediction of a
    row raises, the whole collection raises. *)
Theorem collect_predictions_rows
    (forest : Forest.t) (prediction_data : Data)
    (leaf_nodes_by_tree : list (list nat)) (trees_by_sample : list (list bool)) :
  (∀ predictions,
     OPC.collect_predictions strategy ci_group_size forest prediction_data
       leaf_nodes_by_tree trees_by_sample = Ok predictions →
     length predictions = get_num_rows prediction_data
     ∧ ∀ sample, sample < get_num_rows prediction_data →
         ∃ prediction,
           OPC.collect_prediction strategy ci_group_size forest leaf_nodes_by_tree
             trees_by_sample sample = Ok prediction
           ∧ predictions !! sample = Some prediction)
  ∧ ((∀ sample, sample < get_num_rows prediction_data →
        ∃ prediction,
          OPC.collect_prediction strategy ci_group_size forest leaf_nodes_by_tree
            trees_by_sample sample = Ok prediction) →
     ∃ predictions,
       OPC.collect_predictions strategy ci_group_size forest prediction_data
         leaf_nodes_by_tree trees_by_sample = Ok predictions)
  ∧ (∀ sample e, sample < get_num_rows prediction_data →
       OPC.collect_prediction strategy ci_group_size forest leaf_nodes_by_tree
         trees_by_sample sample = Raise e →
       ∃ e',
         OPC.collect_predictions strategy ci_group_size forest prediction_data
           leaf_nodes_by_tree trees_by_sample = Raise e').
Proof.
  assert (∀ predictions,
     OPC.collect_predictions strategy ci_group_size forest prediction_data
       leaf_nodes_by_tree trees_by_sample = Ok predictions →
     length predictions = get_num_rows prediction_data
     ∧ ∀ sample, sample < get_num_rows prediction_data →
         ∃ prediction,
           OPC.collect_prediction strategy ci_group_size forest leaf_nodes_by_tree
             trees_by_sample sample = Ok prediction
           ∧ predictions !! sample = Some prediction) as Hrows.
  { intros predictions H. unfold OPC.collect_predictions in H.
    apply foldM_push_lookup in H as (Hlen & _ & Hnew). simpl in Hlen, Hnew.
    split; [exact Hlen|]. intros sample Hs. apply (Hnew sample Hs). }
  split; [exact Hrows|]. split.
  - intros Hall. unfold OPC.collect_predictions. apply foldM_push_returns.
    intros i Hi. apply (Hall i Hi).
  - intros sample e Hs Hraise.
    destruct (OPC.collect_predictions _ _ _ _ _ _) as [predictions|e'] eqn:Hrun;
      [|eauto].
    destruct (Hrows predictions eq_refl) as [_ Hrow].
    destruct (Hrow sample Hs) as (prediction & Hp & _). congruence.
Qed.

(** X7. A prediction carries a variance vector only when
    [ci_group_size > 1] and at least one tree has contributed a leaf; with
    [ci_group_size <= 1] every prediction has an empty variance vector. *)
Theorem collect_prediction_variance
    (forest : Forest.t) (leaf_nodes_by_tree : list (list nat))
    (trees_by_sample : list (list bool)) (sample : nat) (prediction : Prediction.t) :
  OPC.collect_prediction strategy ci_group_size forest leaf_nodes_by_tree
    trees_by_sample sample = Ok prediction →
  ((ci_group_size ≤ 1)%Z → Prediction.variance_estimates prediction = [])
  ∧ (Prediction.variance_estimates prediction ≠ [] →
     (1 < ci_group_size)%Z
     ∧ ∃ acc average,
         OPC.collect_leaves ci_group_size forest leaf_nodes_by_tree
           trees_by_sample sample = Ok acc
         ∧ OPC.num_leaves acc ≠ 0
         ∧ average = OPC.normalize_prediction_values (OPC.num_leaves acc)
                       (OPC.average_value acc)
         ∧ compute_variance strategy average
             (PredictionValues.create (OPC.leaf_values acc)
                (length (Forest.get_trees forest))
                (prediction_value_length strategy)) ci_group_size
           = Ok (Prediction.variance_estimates prediction)).
Proof.
  unfold OPC.collect_prediction. intros H. bind_inv H as acc Hacc.
  case_bool_decide as Hzero.
  { injection H as <-. simpl. split; [reflexivity|]. intros Hne. contradiction. }
  bind_inv H as point_prediction Hpoint. bind_inv H as variance Hvar.
  bind_inv H as u Hvalid. injection H as <-. simpl.
  case_bool_decide as Hci.
  - split; [lia|]. intros _. split; [lia|]. eauto 10.
  - injection Hvar as <-. split; [reflexivity|]. intros Hne. contradiction.
Qed.

(** X8. An empty inclusion mask means that every tree is included: the
    collector returns with it what it returns with a mask that holds
    [true] for every row and tree. *)
Theorem collect_predictions_empty_mask
    (forest : Forest.t) (prediction_data : Data)
    (leaf_nodes_by_tree : list (list nat)) (trees_by_sample : list (list bool)) :
  all_included trees_by_sample (get_num_rows prediction_data)
    (length (Forest.get_trees forest)) →
  OPC.collect_predictions strategy ci_group_size forest prediction_data
    leaf_nodes_by_tree trees_by_sample
  = OPC.collect_predictions strategy ci_group_size forest prediction_data
      leaf_nodes_by_tree [].
Proof.
  intros [Hne Hall]. unfold OPC.collect_predictions. apply foldM_ext.
  intros predictions sample Hs. apply elem_of_seq in Hs as [_ Hs]. simpl in Hs.
  assert (OPC.collect_leaves ci_group_size forest leaf_nodes_by_tree
            trees_by_sample sample
          = OPC.collect_leaves ci_group_size forest leaf_nodes_by_tree [] sample)
    as Hleaves.
  { unfold OPC.collect_leaves. apply foldM_ext. intros acc tree_index Ht.
    apply elem_of_seq in Ht as [_ Ht]. simpl in Ht. unfold OPC.tree_body.
    assert (OPC.skipped trees_by_sample sample tree_index = Ok false) as ->;
      [|reflexivity].
    unfold OPC.skipped. rewrite bool_decide_eq_false_2 by exact Hne.
    destruct (Hall sample tree_index Hs Ht) as (mask & Hmask & Htrue).
    apply vec_get_Ok in Hmask, Htrue.
    by rewrite (bind_Ok _ _ _ Hmask), (bind_Ok _ _ _ Htrue). }
  unfold OPC.collect_prediction. by rewrite Hleaves.
Qed.

(** X9. A tree that is included for a row and for which
    [leaf_nodes_by_tree] holds no leaf of the row (no entry for the tree, or
    an entry too short for the row) makes [collect_predictions] raise. *)
Theorem collect_predictions_missing_leaf
    (forest : Forest.t) (prediction_data : Data)
    (leaf_nodes_by_tree : list (list nat)) (trees_by_sample : list (list bool))
    (sample tree_index : nat) :
  sample < get_num_rows prediction_data →
  tree_index < length (Forest.get_trees forest) →
  OPC.skipped trees_by_sample sample tree_index = Ok false →
  leaf_nodes_by_tree !! tree_index ≫= (λ leaf_nodes, leaf_nodes !! sample) = None →
  ∃ e,
    OPC.collect_predictions strategy ci_group_size forest prediction_data
      leaf_nodes_by_tree trees_by_sample = Raise e.
Proof.
  intros Hs Ht Hskip Hmissing. unfold OPC.collect_predictions.
  apply foldM_raises with (b := sample); [apply elem_of_seq; simpl; lia|].
  intros predictions.
  assert (∃ e, OPC.collect_leaves ci_group_size forest leaf_nodes_by_tree
                 trees_by_sample sample = Raise e) as [e He].
  { unfold OPC.collect_leaves.
    apply foldM_raises with (b := tree_index); [apply elem_of_seq; simpl; lia|].
    intros acc. unfold OPC.tree_body. rewrite Hskip. cbn [bind]. unfold vec_at.
    destruct (leaf_nodes_by_tree !! tree_index) as [leaf_nodes|]; simpl in *;
      [|eauto].
    rewrite Hmissing. simpl. eauto. }
  unfold OPC.collect_prediction. rewrite He. simpl. eauto.
Qed.

End Collector.

Lemma collect_predictions_rows_witness :
  ∃ predictions,
    OPC.collect_predictions regression 2 two_trees two_rows landing_nodes []
    = Ok predictions
    ∧ length predictions = 2.
Proof.
  destruct (collect_predictions_rows regression 2 two_trees two_rows landing_nodes [])
    as (Hrows & Hreturns & _).
  destruct Hreturns as [predictions Hrun].
  { intros sample Hs. change (sample < 2) in Hs.
    destruct sample as [|[|sample]]; [| |lia]; eexists; vm_compute; reflexivity. }
  exists predictions. split; [exact Hrun|]. apply (Hrows predictions Hrun).
Defined.

Lemma collect_prediction_variance_witness :
  Prediction.variance_estimates averaged_prediction ≠ [] ∧ (1 < 2)%Z.
Proof.
  assert (OPC.collect_prediction regression 2 two_trees landing_nodes [] 0
          = Ok averaged_prediction) as Hrun by (vm_compute; reflexivity).
  destruct (collect_prediction_variance regression 2 two_trees landing_nodes [] 0
              averaged_prediction Hrun) as [_ Hvar].
  assert (Prediction.variance_estimates averaged_prediction ≠ []) as Hne
    by discriminate.
  split; [exact Hne|]. apply (Hvar Hne).
Defined.

(** The mask that includes both trees for both rows. *)
Lemma collect_predictions_empty_mask_witness :
  OPC.collect_predictions regression 2 two_trees two_rows landing_nodes
    [[true; true]; [true; true]]
  = OPC.collect_predictions regression 2 two_trees two_rows landing_nodes [].
Proof.
  apply (collect_predictions_empty_mask regression 2 two_trees two_rows
           landing_nodes [[true; true]; [true; true]]).
  split; [discriminate|]. intros sample tree_index Hs Ht.
  change (sample < 2) in Hs. change (tree_index < 2) in Ht.
  destruct sample as [|[|sample]]; [| |lia];
    (destruct tree_index as [|[|tree_index]]; [| |lia]);
    eexists; split; reflexivity.
Defined.

(** The second tree has no leaf for row 1. *)
Lemma collect_predictions_missing_leaf_witness :
  ∃ e,
    OPC.collect_predictions regression 2 two_trees two_rows [[0; 1]; [0]] []
    = Raise e.
Proof.
  apply (collect_predictions_missing_leaf regression 2 two_trees two_rows
           [[0; 1]; [0]] [] 1 1).
  - simpl. lia.
  - simpl. lia.
  - reflexivity.
  - reflexivity.
Defined.

End CollectorRows.

(** ** The accumulator of the collector *)

Module CollectorAccumulator.

Module OPC := OptimizedPredictionCollector.
Import Examples MoreExamples CollectorNotions.

Lemma empty_false_get_values (pv : PredictionValues.t) (node : nat) :
  PredictionValues.empty pv node = Ok false →
  ∃ v, PredictionValues.values pv !! node = Some v
       ∧ PredictionValues.get_values pv node = Ok v ∧ v ≠ [].
Proof.
  unfold PredictionValues.empty, PredictionValues.get_values. intros H.
  bind_inv H as v Hv. exists v. split; [by apply vec_at_Ok|]. split; [exact Hv|].
  intros ->. discriminate H.
Qed.

Lemma contributions_insert (leaf_values : list (list Matrix)) (t : nat)
    (v : list Matrix) :
  leaf_values !! t = Some [] → v ≠ [] →
  contributions (<[t := v]> leaf_values) = S (contributions leaf_values).
Proof.
  unfold contributions. revert t.
  induction leaf_values as [|w leaf_values IH]; intros [|t] Ht Hv; simpl in Ht;
    try discriminate.
  - injection Ht as ->. simpl. rewrite !filter_cons.
    rewrite decide_True by exact Hv. by rewrite decide_False by auto.
  - simpl. rewrite !filter_cons. specialize (IH t Ht Hv).
    destruct (decide (w ≠ [])); simpl; lia.
Qed.

Section Collector.

Variable ci_group_size : Z.

(** One iteration of the loop over the trees either leaves the
    accumulator as it is or adds the values of a leaf that has some. *)
Lemma tree_body_inv (forest : Forest.t) (leaf_nodes_by_tree : list (list nat))
    (trees_by_sample : list (list bool)) (sample tree_index : nat)
    (acc acc' : OPC.accumulator) :
  OPC.tree_body ci_group_size forest leaf_nodes_by_tree trees_by_sample sample
    acc tree_index = Ok acc' →
  acc' = acc
  ∨ ∃ leaf_nodes node tree v,
      leaf_nodes_by_tree !! tree_index = Some leaf_nodes
      ∧ leaf_nodes !! sample = Some node
      ∧ Forest.get_trees forest !! tree_index = Some tree
      ∧ PredictionValues.values (Tree.get_prediction_values tree) !! node = Some v
      ∧ v ≠ []
      ∧ OPC.add_prediction_values node (Tree.get_prediction_values tree)
          (OPC.average_value acc) = Ok (OPC.average_value acc')
      ∧ OPC.num_leaves acc' = S (OPC.num_leaves acc)
      ∧ ((1 < ci_group_size)%Z →
         tree_index < length (OPC.leaf_values acc)
         ∧ OPC.leaf_values acc' = <[tree_index := v]> (OPC.leaf_values acc))
      ∧ ((ci_group_size ≤ 1)%Z → OPC.leaf_values acc' = OPC.leaf_values acc).
Proof.
  unfold OPC.tree_body. intros H. bind_inv H as skip Hskip.
  destruct skip; [injection H as <-; by left|].
  bind_inv H as leaf_nodes Hl. bind_inv H as node Hn. bind_inv H as tree Ht.
  bind_inv H as is_empty He. destruct is_empty; [injection H as <-; by left|].
  bind_inv H as average Ha. bind_inv H as leaf_values Hlv. injection H as <-.
  right. apply vec_at_Ok in Hl, Hn. apply vec_get_Ok in Ht.
  apply empty_false_get_values in He as (v & Hv & Hget & Hne).
  exists leaf_nodes, node, tree, v. simpl.
  do 7 (split; [first [eassumption|reflexivity]|]).
  case_bool_decide as Hci.
  - rewrite Hget in Hlv. cbn [bind] in Hlv. apply vec_set_Ok in Hlv as [Hlt ->].
    split; [auto|]. intros. lia.
  - injection Hlv as <-. split; [intros; lia|auto].
Qed.

(* The bookkeeping of the loop over the trees, for the proofs about
   [collect_leaves] and about the regression forest. *)
Lemma collect_leaves_inv
    (forest : Forest.t) (leaf_nodes_by_tree : list (list nat))
    (trees_by_sample : list (list bool)) (sample : nat) (acc : OPC.accumulator) :
  OPC.collect_leaves ci_group_size forest leaf_nodes_by_tree trees_by_sample
    sample = Ok acc →
  OPC.num_leaves acc ≤ length (Forest.get_trees forest)
  ∧ ((1 < ci_group_size)%Z →
     length (OPC.leaf_values acc) = length (Forest.get_trees forest)
     ∧ OPC.num_leaves acc = contributions (OPC.leaf_values acc)
     ∧ ∀ tree_index num_types, tree_index < length (Forest.get_trees forest) →
         ∃ b, PredictionValues.empty
                (PredictionValues.create (OPC.leaf_values acc)
                   (length (Forest.get_trees forest)) num_types) tree_index = Ok b)
  ∧ ((ci_group_size ≤ 1)%Z → OPC.leaf_values acc = []).
Proof.
  unfold OPC.collect_leaves. set (n := length (Forest.get_trees forest)).
  intros H.
  pose (P := λ (k : nat) (a : OPC.accumulator),
          OPC.num_leaves a ≤ k
          ∧ ((1 < ci_group_size)%Z →
             length (OPC.leaf_values a) = n
             ∧ OPC.num_leaves a = contributions (OPC.leaf_values a)
             ∧ ∀ t, k ≤ t → t < n → OPC.leaf_values a !! t = Some [])
          ∧ ((ci_group_size ≤ 1)%Z → OPC.leaf_values a = [])).
  assert (P (0 + n) acc) as (Hle & Hbig & Hsmall).
  { eapply (foldM_seq_invariant P); [| |exact H].
    - intros k b b' Hk (Hle & Hbig & Hsmall) Hbody.
      apply tree_body_inv in Hbody
        as [->|(ln & node & tree & v & _ & _ & _ & _ & Hne & _ & Hnum & Hgt & Hle1)].
      + split; [lia|]. split; [|exact Hsmall]. intros Hci.
        destruct (Hbig Hci) as (Hlen & Hcount & Hrest).
        split; [exact Hlen|]. split; [exact Hcount|]. intros t Ht. apply Hrest. lia.
      + split; [lia|]. split.
        * intros Hci. destruct (Hbig Hci) as (Hlen & Hcount & Hrest).
          destruct (Hgt Hci) as [Hlt ->]. rewrite length_insert.
          split; [exact Hlen|]. split.
          -- rewrite contributions_insert; [lia| |exact Hne]. apply Hrest; lia.
          -- intros t Ht Htn. rewrite list_lookup_insert_ne by lia. apply Hrest; lia.
        * intros Hci. rewrite (Hle1 Hci). by apply Hsmall.
    - split; [simpl; lia|]. simpl. split.
      + intros Hci. rewrite bool_decide_eq_true_2 by lia.
        split; [apply length_replicate|]. split.
        * unfold contributions. clear. induction n as [|n IH]; [reflexivity|].
          simpl. rewrite filter_cons. by rewrite decide_False by auto.
        * intros t _ Ht. by apply lookup_replicate_2.
      + intros Hci. by rewrite bool_decide_eq_false_2 by lia. }
  simpl in Hle. split; [exact Hle|]. split; [|exact Hsmall].
  intros Hci. destruct (Hbig Hci) as (Hlen & Hcount & _).
  split; [exact Hlen|]. split; [exact Hcount|]. intros t num_types Ht.
  unfold PredictionValues.empty, vec_at. simpl.
  destruct (lookup_lt_is_Some_2 (OPC.leaf_values acc) t) as [v Hv]; [lia|].
  rewrite Hv. simpl. eauto.
Qed.

(** X10. When the loop over the trees returns, [num_leaves] is at most
    the number of trees; with [ci_group_size > 1] the buffer [leaf_values]
    has one entry per tree, and [num_leaves] is the number of its entries
    that hold leaf values, the entry of a tree that was excluded or landed
    in a leaf without values being empty (so that the emptiness test of
    [compute_variance] is defined for every tree); with
    [ci_group_size <= 1] the buffer stays empty. *)
Theorem collect_leaves_leaf_values
    (forest : Forest.t) (leaf_nodes_by_tree : list (list nat))
    (trees_by_sample : list (list bool)) (sample : nat) (acc : OPC.accumulator) :
  OPC.collect_leaves ci_group_size forest leaf_nodes_by_tree trees_by_sample
    sample = Ok acc →
  OPC.num_leaves acc ≤ length (Forest.get_trees forest)
  ∧ ((1 < ci_group_size)%Z →
     length (OPC.leaf_values acc) = length (Forest.get_trees forest)
     ∧ OPC.num_leaves acc = contributions (OPC.leaf_values acc)
     ∧ ∀ tree_index num_types, tree_index < length (Forest.get_trees forest) →
         ∃ b, PredictionValues.empty
                (PredictionValues.create (OPC.leaf_values acc)
                   (length (Forest.get_trees forest)) num_types) tree_index = Ok b)
  ∧ ((ci_group_size ≤ 1)%Z → OPC.leaf_values acc = []).
Proof. apply collect_leaves_inv. Qed.

End Collector.

Lemma collect_leaves_leaf_values_witness :
  ∃ acc,
    OPC.collect_leaves 2 two_trees landing_nodes [[true; false]; [true; true]] 0
    = Ok acc
    ∧ OPC.num_leaves acc = 1
    ∧ length (OPC.leaf_values acc) = 2
    ∧ contributions (OPC.leaf_values acc) = 1.
Proof.
  assert (∃ acc, OPC.collect_leaves 2 two_trees landing_nodes
                   [[true; false]; [true; true]] 0 = Ok acc) as [acc Hacc]
    by (eexists; vm_compute; reflexivity).
  destruct (collect_leaves_leaf_values 2 two_trees landing_nodes
              [[true; false]; [true; true]] 0 acc Hacc) as (_ & Hbig & _).
  destruct Hbig as (Hlen & Hcount & _); [lia|].
  exists acc. split; [exact Hacc|].
  assert (OPC.num_leaves acc = 1) as Hone.
  { revert Hacc. vm_compute. by intros [= <-]. }
  split; [exact Hone|]. split; [exact Hlen|]. by rewrite <- Hcount.
Defined.

End CollectorAccumulator.

(** ** The collector on a regression forest *)

Module RegressionCollector.

Module OPC := OptimizedPredictionCollector.
Module RPS := RegressionPredictionStrategy.
Import Shapes Examples MoreExamples CollectorNotions.





Section Collector.

Variable debias : double → double → double → double.
Variable ci_group_size : Z.





End Collector.



End RegressionCollector.

(** ** Equality of doubles *)

(** Two doubles that compare equal are the same double or two zeros. *)
Lemma eqb_true_inv (x y : double) :
  Double.eqb x y = true →
  x = y ∧ Double.is_nan x = false
  ∨ ∃ s s', x = S754_zero s ∧ y = S754_zero s'.
Proof.
  unfold Double.eqb, SFeqb.
  destruct x as [sx|sx| |sx mx ex], y as [sy|sy| |sy my ey]; simpl; intros H;
    try discriminate H;
    try (right; eexists _, _; split; reflexivity);
    try (destruct sx; discriminate H);
    try (destruct sy; discriminate H).
  - destruct sx, sy; try discriminate H; left; auto.
  - left. destruct sx, sy; try discriminate H;
      destruct (Z.compare_spec ex ey) as [->| |]; try discriminate H;
      rewrite Pos.compare_cont_spec in H; simpl in H;
      destruct (Pos.compare_spec mx my) as [->| |]; try discriminate H; auto.
Qed.

Lemma eqb_zero (s s' : bool) : Double.eqb (S754_zero s) (S754_zero s') = true.
Proof. reflexivity. Qed.

Lemma eqb_sym (x y : double) : Double.eqb x y = true → Double.eqb y x = true.
Proof.
  intros H. destruct (eqb_true_inv x y H) as [[-> _]|(s & s' & -> & ->)];
    [exact H|reflexivity].
Qed.

Lemma eqb_trans (x y z : double) :
  Double.eqb x y = true → Double.eqb y z = true → Double.eqb x z = true.
Proof.
  intros Hxy Hyz.
  destruct (eqb_true_inv x y Hxy) as [[-> _]|(s & s' & -> & ->)]; [exact Hyz|].
  destruct (eqb_true_inv _ z Hyz) as [[<- _]|(t & t' & _ & ->)]; reflexivity.
Qed.

Lemma eqb_not_nan (x y : double) :
  Double.eqb x y = true → Double.is_nan x = false ∧ Double.is_nan y = false.
Proof.
  intros H. destruct (eqb_true_inv x y H) as [[<- Hx]|(s & s' & -> & ->)]; auto.
Qed.

(** ** The decision to split a node *)

Module SplitDecision.

Module TT := TreeTrainer.
Import Notions Examples.

Section Trainer.

Context {G R : Type}.
Variable relabeling_strategy : RelabelingStrategy.
Variable splitting_rule_factory : SplittingRule R.
Variable options : TreeOptions.

Local Abbreviation state := (TT.state (G := G) (R := R)).
Local Abbreviation split_node_internal :=
  (TT.split_node_internal relabeling_strategy splitting_rule_factory options).

(** When the purity loop returns [true] from its first iteration, the
    outcome scalars of the samples are read and each is equal to the one
    before it. *)
Lemma pure_loop_true_inv (observations : Observations.t) :
  ∀ (node_samples : list nat) (i : nat) (pure_value : double),
    TT.pure_loop observations i pure_value node_samples = Ok true →
    ∀ sample, sample ∈ node_samples →
      ∃ x, outcome_scalar observations sample = Ok x
           ∧ ((i ≠ 0 ∨ 2 ≤ length node_samples) →
              ∀ sample', sample' ∈ node_samples →
                ∃ y, outcome_scalar observations sample' = Ok y
                     ∧ Double.eqb x y = true)
           ∧ (i ≠ 0 → Double.eqb x pure_value = true).
Proof.
  induction node_samples as [|s rest IH]; intros i pure_value H sample Hin.
  { by apply elem_of_nil in Hin. }
  simpl in H. bind_inv H as value Hvalue. bind_inv H as x0 Hx0.
  assert (outcome_scalar observations s = Ok x0) as Hs.
  { unfold outcome_scalar. by rewrite Hvalue. }
  destruct (negb (i =? 0) && Double.neb x0 pure_value) eqn:Hcond;
    [discriminate|].
  assert (i ≠ 0 → Double.eqb x0 pure_value = true) as Hhead.
  { intros Hi. apply andb_false_iff in Hcond as [Hc|Hc].
    - apply negb_false_iff, Nat.eqb_eq in Hc. contradiction.
    - unfold Double.neb in Hc. by apply negb_false_iff in Hc. }
  (* every sample of the rest is equal to the head *)
  assert (∀ s', s' ∈ rest →
            ∃ y, outcome_scalar observations s' = Ok y ∧ Double.eqb y x0 = true)
    as Hrest.
  { intros s' Hs'. destruct (IH (S i) x0 H s' Hs') as (y & Hy & _ & Heq).
    exists y. split; [exact Hy|]. by apply Heq. }
  assert (rest ≠ [] → Double.eqb x0 x0 = true) as Hrefl.
  { destruct rest as [|s' rest']; [contradiction|]. intros _.
    destruct (Hrest s') as (y & _ & Hy); [by constructor|].
    eapply eqb_trans; [apply eqb_sym|]; exact Hy. }
  assert (∀ s', s' ∈ s :: rest →
            ∃ y, outcome_scalar observations s' = Ok y
                 ∧ ((i ≠ 0 ∨ 2 ≤ length (s :: rest)) → Double.eqb y x0 = true))
    as Hall.
  { intros s' Hs'. apply elem_of_cons in Hs' as [->|Hs'].
    - exists x0. split; [exact Hs|]. intros [Hi|Hlen].
      + specialize (Hhead Hi). eapply eqb_trans; [exact Hhead|by apply eqb_sym].
      + apply Hrefl. destruct rest; [simpl in Hlen; lia|discriminate].
    - destruct (Hrest s' Hs') as (y & Hy & Heq). eauto. }
  destruct (Hall sample Hin) as (x & Hx & Hxeq).
  exists x. split; [exact Hx|]. split.
  - intros Hcase sample' Hin'. destruct (Hall sample' Hin') as (y & Hy & Hyeq).
    exists y. split; [exact Hy|].
    eapply eqb_trans; [by apply Hxeq|]. apply eqb_sym. by apply Hyeq.
  - intros Hi. eapply eqb_trans; [apply Hxeq; auto|by apply Hhead].
Qed.

(** X12. For a node of at least two samples the purity loop of
    [split_node_internal] returns [true] exactly when the outcome scalars of
    all samples are read and are pairwise equal for [==]; such outcomes
    are never NaN, so a node with a NaN outcome is not pure. *)
Theorem pure_loop_true_iff (observations : Observations.t)
    (node_samples : list nat) :
  2 ≤ length node_samples →
  (TT.pure_loop observations 0 Double.zero node_samples = Ok true
   ↔ ∀ a b, a ∈ node_samples → b ∈ node_samples →
       ∃ x y, outcome_scalar observations a = Ok x
              ∧ outcome_scalar observations b = Ok y
              ∧ Double.eqb x y = true)
  ∧ (TT.pure_loop observations 0 Double.zero node_samples = Ok true →
     ∀ a x, a ∈ node_samples → outcome_scalar observations a = Ok x →
       Double.is_nan x = false).
Proof.
  intros Hlen.
  assert (TT.pure_loop observations 0 Double.zero node_samples = Ok true →
          ∀ a b, a ∈ node_samples → b ∈ node_samples →
            ∃ x y, outcome_scalar observations a = Ok x
                   ∧ outcome_scalar observations b = Ok y
                   ∧ Double.eqb x y = true) as Hforward.
  { intros H a b Ha Hb.
    destruct (pure_loop_true_inv _ _ _ _ H a Ha) as (x & Hx & Hpair & _).
    destruct (Hpair (or_intror Hlen) b Hb) as (y & Hy & Heq). eauto. }
  split; [split; [exact Hforward|]|].
  - intros Hall. apply TrainerFacts.pure_loop_equal; [|exact Hall].
    intros a Ha. destruct (Hall a a Ha Ha) as (x & _ & Hx & _).
    exists x. split; [exact Hx|]. intros Hi. by contradict Hi.
  - intros H a x Ha Hx. destruct (Hforward H a a Ha Ha) as (x1 & x2 & H1 & H2 & Heq).
    rewrite Hx in H1. injection H1 as <-. by apply eqb_not_nan in Heq as [? _].
Qed.

(** X13. What [split_node_internal] has done when it returns. When it
    reports a terminal node, [split_values[node]] is [-1.0]. When it reports
    a split, the node has more than [min_node_size] samples and is not pure,
    the relabeling strategy has answered with responses, the relabeling
    strategy and [find_best_split] have been called once each, in that
    order, and [split_vars], [split_values] and the rule are as
    [find_best_split] left them. *)
Theorem split_node_internal_returns
    (node : nat) (observations : Observations.t) (possible_split_vars : list nat)
    (st st' : state) (b : bool) :
  split_node_internal node observations possible_split_vars st = Ok (b, st') →
  (b = true → TT.split_values st' !! node = Some (Double.of_Z (-1)))
  ∧ (b = false →
     ∃ node_samples,
       TT.samples st !! node = Some node_samples
       ∧ get_min_node_size options < length node_samples
       ∧ TT.pure_loop observations 0 Double.zero node_samples = Ok false
       ∧ relabel relabeling_strategy node_samples observations ≠ ∅
       ∧ TT.calls st' = TT.calls st ++ [TT.CallRelabel node; TT.CallFindBestSplit node]
       ∧ find_best_split splitting_rule_factory (TT.splitting_rule st) node
           possible_split_vars
           (relabel relabeling_strategy node_samples observations)
           (TT.samples st) (TT.split_vars st) (TT.split_values st)
         = (false, TT.split_vars st', TT.split_values st', TT.splitting_rule st')).
Proof.
  unfold TT.split_node_internal. intros H. bind_inv H as node_samples Hnode.
  apply vec_get_Ok in Hnode.
  assert (∀ (s s' : state) (c : bool),
            TT.mark_terminal node s = Ok (c, s') →
            c = true ∧ TT.split_values s' !! node = Some (Double.of_Z (-1)))
    as Hmark.
  { intros s s' c Hm. apply TrainerFacts.mark_terminal_inv in Hm as (-> & Hlt & ->).
    split; [reflexivity|]. simpl. by apply list_lookup_insert_eq. }
  case_bool_decide as Hsize.
  { apply Hmark in H as [-> Hv]. split; [auto|discriminate]. }
  bind_inv H as pure Hpure. destruct pure.
  { apply Hmark in H as [-> Hv]. split; [auto|discriminate]. }
  case_bool_decide as Hempty.
  { apply Hmark in H as [-> Hv]. split; [auto|discriminate]. }
  destruct (find_best_split _ _ _ _ _ _ _ _) as [[[stop svars] svalues] rule]
    eqn:Hrule.
  destruct stop.
  { apply Hmark in H as [-> Hv]. split; [auto|discriminate]. }
  injection H as <- <-. split; [discriminate|]. intros _.
  exists node_samples. simpl. split; [exact Hnode|]. split; [lia|].
  split; [exact Hpure|]. split; [exact Hempty|]. split.
  - by rewrite <- app_assoc.
  - exact Hrule.
Qed.

(** X14. A relabeling strategy that answers with no response makes the
    node terminal: on a node that is larger than [min_node_size] and not
    pure, [split_node_internal] then returns [true] with
    [split_values[node] = -1.0], having called the relabeling strategy and
    not the splitting rule. *)
Theorem split_node_internal_no_response
    (node : nat) (observations : Observations.t) (possible_split_vars : list nat)
    (st : state) (node_samples : list nat) :
  TT.samples st !! node = Some node_samples →
  get_min_node_size options < length node_samples →
  TT.pure_loop observations 0 Double.zero node_samples = Ok false →
  relabel relabeling_strategy node_samples observations = ∅ →
  node < length (TT.split_values st) →
  ∃ st',
    split_node_internal node observations possible_split_vars st = Ok (true, st')
    ∧ TT.split_values st' !! node = Some (Double.of_Z (-1))
    ∧ TT.calls st' = TT.calls st ++ [TT.CallRelabel node]
    ∧ TT.splitting_rule st' = TT.splitting_rule st
    ∧ TT.split_vars st' = TT.split_vars st.
Proof.
  intros Hnode Hsize Hpure Hempty Hlt. unfold TT.split_node_internal.
  apply vec_get_Ok in Hnode. rewrite (bind_Ok _ _ _ Hnode).
  rewrite bool_decide_eq_false_2 by lia. rewrite (bind_Ok _ _ _ Hpure).
  rewrite bool_decide_eq_true_2 by exact Hempty.
  rewrite TrainerFacts.mark_terminal_Ok by exact Hlt.
  eexists. split; [reflexivity|]. simpl.
  split; [by apply list_lookup_insert_eq|]. auto.
Qed.

End Trainer.

Lemma pure_loop_true_iff_witness :
  TT.pure_loop (scalar_outcomes [7; 7; 7]%Z) 0 Double.zero [0; 1; 2] = Ok true
  ∧ Double.is_nan (Double.of_Z 7) = false.
Proof.
  destruct (pure_loop_true_iff (scalar_outcomes [7; 7; 7]%Z) [0; 1; 2])
    as [Hiff Hnan]; [simpl; lia|].
  assert (TT.pure_loop (scalar_outcomes [7; 7; 7]%Z) 0 Double.zero [0; 1; 2]
          = Ok true) as Hpure.
  { apply Hiff. intros a b Ha Hb. exists (Double.of_Z 7), (Double.of_Z 7).
    repeat (apply elem_of_cons in Ha as [->|Ha]);
      try (by apply elem_of_nil in Ha);
      repeat (apply elem_of_cons in Hb as [->|Hb]);
      try (by apply elem_of_nil in Hb);
      repeat split; vm_compute; reflexivity. }
  split; [exact Hpure|].
  apply (Hnan Hpure 1); [apply list_elem_of_In; simpl; auto|vm_compute; reflexivity].
Defined.

Lemma split_node_internal_returns_witness :
  ∃ st',
    TT.split_node_internal outcome_relabeling root_rule (small_options 1 false)
      0 (scalar_outcomes [1; 2; 3]%Z) [0] (root_state [0; 1; 2]) = Ok (false, st')
    ∧ TT.calls st' = [TT.CallRelabel 0; TT.CallFindBestSplit 0].
Proof.
  assert (∃ st', TT.split_node_internal outcome_relabeling root_rule
                   (small_options 1 false) 0 (scalar_outcomes [1; 2; 3]%Z) [0]
                   (root_state [0; 1; 2]) = Ok (false, st')) as [st' Hrun]
    by (eexists; vm_compute; reflexivity).
  destruct (split_node_internal_returns _ _ _ _ _ _ _ _ _ Hrun) as [_ Hsplit].
  destruct (Hsplit eq_refl) as (node_samples & _ & _ & _ & _ & Hcalls & _).
  exists st'. split; [exact Hrun|exact Hcalls].
Defined.

Lemma split_node_internal_no_response_witness :
  ∃ st',
    TT.split_node_internal {| relabel := λ _ _, ∅ |} root_rule
      (small_options 1 false) 0 (scalar_outcomes [1; 2; 3]%Z) [0]
      (root_state [0; 1; 2]) = Ok (true, st')
    ∧ TT.split_values st' !! 0 = Some (Double.of_Z (-1))
    ∧ TT.calls st' = [TT.CallRelabel 0]
    ∧ TT.splitting_rule st' = 0
    ∧ TT.split_vars st' = [0].
Proof.
  apply (split_node_internal_no_response {| relabel := λ _ _, ∅ |} root_rule
           (small_options 1 false) 0 (scalar_outcomes [1; 2; 3]%Z) [0]
           (root_state [0; 1; 2]) [0; 1; 2]).
  - reflexivity.
  - simpl. lia.
  - vm_compute. reflexivity.
  - reflexivity.
  - simpl. lia.
Defined.

End SplitDecision.

(** ** Candidate variables, repopulation and the attached values *)

Module TrainerSteps.

Module TT := TreeTrainer.
Module RPS := RegressionPredictionStrategy.
Import Notions Examples MoreExamples Shapes TrainerNotions.

Section Trainer.

Context {G R : Type}.
Variable random_sampler : RandomSampler G.
Variable relabeling_strategy : RelabelingStrategy.
Variable splitting_rule_factory : SplittingRule R.
Variable prediction_strategy : option OptimizedPredictionStrategy.
Variable options : TreeOptions.
Variable tree_ops : Tree.Ops.

Local Abbreviation state := (TT.state (G := G) (R := R)).

(** X15. The number of candidate variables. Without weights the sampler
    is asked for [split_mtry] variables on top of the deterministic ones;
    with weights the deterministic variables count towards [split_mtry], and
    nothing is drawn when they already reach it. *)
Theorem create_split_variable_subset_size
    (result : list nat) (g : G) (data : Data) (split_select_weights : list double) :
  draws_as_requested random_sampler →
  let count :=
    Z.to_nat
      (TT.split_mtry (sample_poisson random_sampler g (get_mtry options)).1
         (TT.size_t_sub (Z.of_nat (get_num_cols data))
            (Z.of_nat (length (get_no_split_variables options))))) in
  let fixed := length result + length (get_deterministic_vars options) in
  let candidates :=
    (TT.create_split_variable_subset random_sampler options result g data
       split_select_weights).1 in
  (split_select_weights = [] →
   count ≤ length (available (get_num_cols data) (get_no_split_variables options)) →
   length candidates = fixed + count)
  ∧ (split_select_weights ≠ [] →
     count - fixed ≤ length (get_split_select_vars options) →
     length candidates = Nat.max count fixed).
Proof.
  intros [Hskip Hweighted] count fixed candidates.
  unfold candidates, TT.create_split_variable_subset.
  unfold count, fixed. clear count fixed candidates.
  destruct (sample_poisson _ _ _) as [mtry_sample g'] eqn:Hpoisson. simpl.
  set (k := TT.split_mtry mtry_sample _).
  assert (1 ≤ k)%Z as Hk by (unfold k, TT.split_mtry; lia).
  split.
  - intros -> Hav. rewrite bool_decide_eq_true_2 by reflexivity.
    rewrite Hskip; [rewrite length_app; lia|lia|by rewrite Nat2Z.id].
  - intros Hw Hvars. rewrite bool_decide_eq_false_2 by exact Hw.
    rewrite length_app in *. case_bool_decide as Hgt.
    + rewrite Hweighted; [rewrite length_app; lia|lia|lia].
    + simpl. rewrite length_app. lia.
Qed.

(** The loop of [repopulate_leaf_nodes], from leaves that already hold
    samples. *)
Lemma repopulate_loop (leaf_nodes : list nat) :
  ∀ (leaf_samples : list nat) (new_leaf_nodes : list (list nat)),
    (∀ sample, sample ∈ leaf_samples →
       ∃ node, leaf_nodes !! sample = Some node ∧ node < length new_leaf_nodes) →
    foldM (λ new_leaf_nodes sample,
             leaf_node <- vec_at leaf_nodes sample ;;
             inner <- vec_at new_leaf_nodes leaf_node ;;
             Ok (<[leaf_node := inner ++ [sample]]> new_leaf_nodes))
          new_leaf_nodes leaf_samples
    = Ok (imap (λ node inner, inner ++ routed leaf_nodes leaf_samples node)
            new_leaf_nodes).
Proof.
  induction leaf_samples as [|sample rest IH]; intros new_leaf_nodes Hall.
  - simpl. f_equal. apply list_eq. intros node. rewrite list_lookup_imap.
    destruct (new_leaf_nodes !! node); simpl; [|reflexivity].
    by rewrite app_nil_r.
  - cbn [foldM]. destruct (Hall sample) as (node & Hnode & Hlt); [by constructor|].
    destruct (lookup_lt_is_Some_2 _ _ Hlt) as [inner Hinner].
    apply vec_at_Ok in Hnode as Hat. rewrite (bind_Ok _ _ _ Hat).
    apply vec_at_Ok in Hinner as Hat'. rewrite (bind_Ok _ _ _ Hat'). cbn [bind].
    rewrite IH.
    + f_equal. apply list_eq. intros k. rewrite !list_lookup_imap.
      unfold routed. rewrite filter_cons.
      destruct (decide (k = node)) as [->|Hk].
      * rewrite list_lookup_insert_eq by exact Hlt. rewrite Hinner. simpl.
        rewrite decide_True by exact Hnode. by rewrite <- app_assoc.
      * rewrite list_lookup_insert_ne by auto.
        rewrite decide_False by congruence. reflexivity.
    + intros s Hs. rewrite length_insert. apply Hall. by constructor.
Qed.

Lemma repopulate_loop_raises (leaf_nodes : list nat) (num_nodes : nat) :
  ∀ (leaf_samples : list nat) (new_leaf_nodes : list (list nat)),
    length new_leaf_nodes = num_nodes →
    (∃ sample, sample ∈ leaf_samples
               ∧ ∀ node, leaf_nodes !! sample = Some node → num_nodes ≤ node) →
    foldM (λ new_leaf_nodes sample,
             leaf_node <- vec_at leaf_nodes sample ;;
             inner <- vec_at new_leaf_nodes leaf_node ;;
             Ok (<[leaf_node := inner ++ [sample]]> new_leaf_nodes))
          new_leaf_nodes leaf_samples
    = Raise OutOfRange.
Proof.
  induction leaf_samples as [|sample rest IH]; intros new_leaf_nodes Hlen Hbad.
  { destruct Hbad as (s & Hs & _). by apply elem_of_nil in Hs. }
  cbn [foldM]. unfold vec_at at 1.
  destruct (leaf_nodes !! sample) as [node|] eqn:Hnode; [|reflexivity].
  cbn [bind]. unfold vec_at at 1.
  destruct (new_leaf_nodes !! node) as [inner|] eqn:Hinner; [|reflexivity].
  cbn [bind]. apply IH; [by rewrite length_insert|].
  destruct Hbad as (s & Hs & Hout). apply elem_of_cons in Hs as [->|Hs]; [|eauto].
  apply lookup_lt_Some in Hinner. specialize (Hout node Hnode). lia.
Qed.

Lemma repopulate_leaf_nodes_repopulated (tree : Tree.t) (data : Data)
    (leaf_samples : list nat) :
  let leaf_nodes := Tree.find_leaf_nodes tree_ops tree data leaf_samples in
  let num_nodes := length (Tree.get_leaf_samples tree) in
  (∀ sample, sample ∈ leaf_samples →
     ∃ node, leaf_nodes !! sample = Some node ∧ node < num_nodes) →
  TT.repopulate_leaf_nodes tree_ops tree data leaf_samples
  = Ok (Tree.prune_empty_leaves tree_ops
          (Tree.set_leaf_nodes (repopulated leaf_nodes leaf_samples num_nodes) tree)).
Proof.
  intros leaf_nodes num_nodes Hall. unfold TT.repopulate_leaf_nodes.
  fold leaf_nodes. fold num_nodes. rewrite repopulate_loop.
  - cbn [bind]. do 3 f_equal. unfold repopulated. apply list_eq. intros node.
    rewrite list_lookup_imap, list_lookup_fmap.
    destruct (decide (node < num_nodes)) as [Hlt|Hge].
    + rewrite lookup_replicate_2 by exact Hlt. by rewrite lookup_seq_lt.
    + assert (replicate num_nodes ([] : list nat) !! node = None) as ->
        by (apply lookup_replicate_None; lia).
      assert (seq 0 num_nodes !! node = None) as ->
        by (apply lookup_seq_ge; lia).
      reflexivity.
  - intros sample Hs. rewrite length_replicate. by apply Hall.
Qed.

(** X16. Repopulation. When [find_leaf_nodes] gives for every held-out
    sample a node of the tree, [repopulate_leaf_nodes] replaces the samples
    of every node by the held-out samples routed to that node, in their
    order, and prunes: the samples that the nodes held before are dropped.
    When a held-out sample has no leaf, or a leaf that is not a node of the
    tree, it raises [out_of_range]. *)
Theorem repopulate_leaf_nodes_routes (tree : Tree.t) (data : Data)
    (leaf_samples : list nat) :
  let leaf_nodes := Tree.find_leaf_nodes tree_ops tree data leaf_samples in
  let num_nodes := length (Tree.get_leaf_samples tree) in
  ((∀ sample, sample ∈ leaf_samples →
      ∃ node, leaf_nodes !! sample = Some node ∧ node < num_nodes) →
   TT.repopulate_leaf_nodes tree_ops tree data leaf_samples
   = Ok (Tree.prune_empty_leaves tree_ops
           (Tree.set_leaf_nodes (repopulated leaf_nodes leaf_samples num_nodes) tree)))
  ∧ ((∃ sample, sample ∈ leaf_samples
                ∧ ∀ node, leaf_nodes !! sample = Some node → num_nodes ≤ node) →
     TT.repopulate_leaf_nodes tree_ops tree data leaf_samples = Raise OutOfRange).
Proof.
  intros leaf_nodes num_nodes. split.
  - apply repopulate_leaf_nodes_repopulated.
  - intros Hbad. unfold TT.repopulate_leaf_nodes. fold leaf_nodes. fold num_nodes.
    rewrite (repopulate_loop_raises leaf_nodes num_nodes);
      [reflexivity|apply length_replicate|exact Hbad].
Qed.

Lemma concat_route_one (f : nat → list nat) (s node0 : nat) :
  ∀ nodes, NoDup nodes →
    concat ((λ node, if decide (node0 = node) then s :: f node else f node)
              <$> nodes)
    ≡ₚ (if decide (node0 ∈ nodes) then [s] else []) ++ concat (f <$> nodes).
Proof.
  induction nodes as [|a l IH]; intros Hnd; [reflexivity|].
  apply NoDup_cons in Hnd as [Ha Hl]. specialize (IH Hl).
  rewrite !fmap_cons. cbn [concat]. destruct (decide (node0 = a)) as [->|Hne].
  - rewrite decide_True by apply list_elem_of_here.
    rewrite decide_False in IH by exact Ha. simpl in IH. simpl. by rewrite IH.
  - rewrite IH. destruct (decide (node0 ∈ l)) as [Hin|Hnin].
    + rewrite decide_True by (by apply list_elem_of_further). simpl.
      symmetry. apply Permutation_middle.
    + rewrite decide_False; [reflexivity|].
      intros Hin. apply elem_of_cons in Hin as [?|?]; contradiction.
Qed.

Lemma concat_repopulated (leaf_nodes : list nat) (num_nodes : nat) :
  ∀ leaf_samples,
    (∀ sample, sample ∈ leaf_samples →
       ∃ node, leaf_nodes !! sample = Some node ∧ node < num_nodes) →
    concat (repopulated leaf_nodes leaf_samples num_nodes) ≡ₚ leaf_samples.
Proof.
  unfold repopulated. induction leaf_samples as [|sample rest IH]; intros Hall.
  - unfold routed. simpl. induction (seq 0 num_nodes) as [|a l IHl]; [reflexivity|].
    simpl. exact IHl.
  - destruct (Hall sample) as (node0 & Hnode & Hlt); [by constructor|].
    assert (routed leaf_nodes (sample :: rest) <$> seq 0 num_nodes
            = (λ node, if decide (node0 = node)
                       then sample :: routed leaf_nodes rest node
                       else routed leaf_nodes rest node) <$> seq 0 num_nodes) as ->.
    { apply list_fmap_ext. intros _ node _. unfold routed. rewrite filter_cons.
      rewrite Hnode. destruct (decide (node0 = node)) as [->|Hne].
      - by rewrite decide_True.
      - rewrite decide_False; [reflexivity|congruence]. }
    rewrite concat_route_one by apply NoDup_seq.
    rewrite decide_True by (apply elem_of_seq; lia). simpl.
    constructor. apply IH. intros s Hs. apply Hall. by constructor.
Qed.

(** X17. Repopulation keeps the held-out samples. When [find_leaf_nodes]
    gives for every held-out sample a node of the tree, the leaf vector that
    [repopulate_leaf_nodes] hands to the pruning has one entry per node,
    holds every held-out sample exactly as often as it was held out, and
    holds a sample at a node exactly when it was held out and routed to
    that node. *)
Theorem repopulate_leaf_nodes_keeps_samples (tree : Tree.t) (data : Data)
    (leaf_samples : list nat) :
  let leaf_nodes := Tree.find_leaf_nodes tree_ops tree data leaf_samples in
  let num_nodes := length (Tree.get_leaf_samples tree) in
  (∀ sample, sample ∈ leaf_samples →
     ∃ node, leaf_nodes !! sample = Some node ∧ node < num_nodes) →
  ∃ new_leaf_nodes,
    TT.repopulate_leaf_nodes tree_ops tree data leaf_samples
    = Ok (Tree.prune_empty_leaves tree_ops (Tree.set_leaf_nodes new_leaf_nodes tree))
    ∧ length new_leaf_nodes = num_nodes
    ∧ concat new_leaf_nodes ≡ₚ leaf_samples
    ∧ ∀ node inner sample,
        new_leaf_nodes !! node = Some inner →
        sample ∈ inner ↔ sample ∈ leaf_samples ∧ leaf_nodes !! sample = Some node.
Proof.
  intros leaf_nodes num_nodes Hall.
  exists (repopulated leaf_nodes leaf_samples num_nodes).
  split; [by apply repopulate_leaf_nodes_repopulated|].
  split; [unfold repopulated; by rewrite length_fmap, length_seq|].
  split; [by apply concat_repopulated|].
  intros node inner sample Hinner. unfold repopulated in Hinner.
  rewrite list_lookup_fmap in Hinner.
  destruct (seq 0 num_nodes !! node) as [k|] eqn:Hk; [|discriminate].
  apply lookup_seq in Hk as [-> _]. injection Hinner as <-.
  unfold routed. rewrite list_elem_of_filter. tauto.
Qed.

(** X18. The prediction values that [train] attaches to the tree are
    the ones that the prediction strategy precomputes on the final leaves of
    the tree, and the default, empty, prediction values without a strategy.
    With the regression strategy every summary is a 1x4 matrix and a leaf
    has a summary exactly when it has samples. *)
Theorem train_prediction_values
    (fuel : nat) (data : Data) (observations : Observations.t) (g g' : G)
    (train_samples : list nat) (tree : Tree.t) (calls : list TT.call) :
  TT.train random_sampler relabeling_strategy splitting_rule_factory
    prediction_strategy options tree_ops fuel data observations g train_samples
  = Ok (tree, g', calls) →
  (prediction_strategy = None →
   Tree.get_prediction_values tree = PredictionValues.none)
  ∧ (∀ strategy, prediction_strategy = Some strategy →
       precompute_prediction_values strategy (Tree.get_leaf_samples tree)
         observations = Ok (Tree.get_prediction_values tree))
  ∧ (∀ debias, prediction_strategy = Some (RPS.strategy debias) →
       regression_summaries (Tree.get_prediction_values tree)
       ∧ ∀ node leaf_node,
           Tree.get_leaf_samples tree !! node = Some leaf_node →
           PredictionValues.empty (Tree.get_prediction_values tree) node
           = Ok (bool_decide (leaf_node = []))).
Proof.
  unfold TT.train. intros H. bind_inv H as r Hgrow.
  destruct r as [new_leaf_samples st]. bind_inv H as r Hrep.
  destruct r as [tree0 st0]. bind_inv H as r Hpre. destruct r as [pv st1].
  injection H as <- <- <-.
  assert (∀ strategy, prediction_strategy = Some strategy →
            precompute_prediction_values strategy (Tree.get_leaf_samples tree0)
              observations = Ok pv) as Hsome.
  { intros strategy Hs. rewrite Hs in Hpre. bind_inv Hpre as pv' Hpv.
    by injection Hpre as <- <-. }
  split; [|split].
  - intros Hnone. rewrite Hnone in Hpre. by injection Hpre as <- <-.
  - exact Hsome.
  - intros debias Hs. specialize (Hsome _ Hs). simpl in Hsome.
    apply RegressionSummaries.precompute_prediction_values_inv in Hsome
      as (_ & _ & Hempty & _ & Hshape & _).
    split; [exact Hshape|exact Hempty].
Qed.

End Trainer.

Lemma counter_sampler_draws keep : draws_as_requested (counter_sampler keep).
Proof.
  split.
  - intros g result max skip n _ Hn. simpl. rewrite length_app, length_take. lia.
  - intros g result indices n weights _ Hn. simpl.
    rewrite length_app, length_take. lia.
Qed.

(** Two deterministic variables, five columns, the Poisson draw 3 (from the
    counter 3): five candidates without weights and three with weights. *)
Definition weighted_options (weights : list double) : TreeOptions :=
  {| get_mtry := 2; get_min_node_size := 1;
     get_split_select_weights := weights; get_split_select_vars := [2; 3; 4];
     get_deterministic_vars := [0; 1]; get_no_split_variables := [];
     get_honesty := false |}.

Definition five_columns : Data :=
  {| get := λ _ _, Double.zero; get_num_rows := 1; get_num_cols := 5 |}.

Lemma create_split_variable_subset_size_witness :
  length (TT.create_split_variable_subset half_sampler (weighted_options [])
            [] 3 five_columns []).1 = 5
  ∧ length (TT.create_split_variable_subset half_sampler
              (weighted_options [Double.of_Z 1; Double.of_Z 1; Double.of_Z 1])
              [] 3 five_columns [Double.of_Z 1; Double.of_Z 1; Double.of_Z 1]).1 = 3.
Proof.
  split.
  - refine (proj1 (create_split_variable_subset_size half_sampler (weighted_options [])
                     [] 3 five_columns [] (counter_sampler_draws _)) eq_refl _).
    vm_compute. lia.
  - refine (proj2 (create_split_variable_subset_size half_sampler
                     (weighted_options [Double.of_Z 1; Double.of_Z 1; Double.of_Z 1])
                     [] 3 five_columns [Double.of_Z 1; Double.of_Z 1; Double.of_Z 1]
                     (counter_sampler_draws _)) _ _).
    + discriminate.
    + vm_compute. lia.
Defined.

(** The tree of the root split at 0.5 with the held-out samples 2 and 3
    (both on the right), and with a held-out sample 7 that the data does not
    have. *)
Definition split_tree : Tree.t :=
  {| Tree.root_node := 0;
     Tree.child_nodes := [[1; 0; 0]; [2; 0; 0]];
     Tree.leaf_nodes := [[]; [0]; [1]];
     Tree.split_vars := [0; 0; 0];
     Tree.split_values := [Double.dec 5 1; Double.of_Z (-1); Double.of_Z (-1)];
     Tree.oob_samples := [];
     Tree.prediction_values := PredictionValues.none |}.

Lemma repopulate_leaf_nodes_routes_witness :
  TT.repopulate_leaf_nodes routing_tree_ops split_tree id_feature [2; 3]
  = Ok (Tree.set_leaf_nodes [[]; []; [2; 3]] split_tree)
  ∧ TT.repopulate_leaf_nodes routing_tree_ops split_tree id_feature [2; 7]
    = Raise OutOfRange.
Proof.
  split.
  - refine (proj1 (repopulate_leaf_nodes_routes routing_tree_ops split_tree
                     id_feature [2; 3]) _).
    intros sample Hs.
    assert (sample = 2 ∨ sample = 3) as [-> | ->].
    { apply list_elem_of_In in Hs. simpl in Hs.
      destruct Hs as [<-|[<-|[]]]; auto. }
    all: exists 2; split; [reflexivity|simpl; lia].
  - refine (proj2 (repopulate_leaf_nodes_routes routing_tree_ops split_tree
                     id_feature [2; 7]) _).
    exists 7. split; [apply list_elem_of_In; simpl; auto|].
    intros node Hnode. discriminate Hnode.
Defined.

Lemma repopulate_leaf_nodes_keeps_samples_witness :
  ∃ new_leaf_nodes,
    TT.repopulate_leaf_nodes routing_tree_ops split_tree id_feature [2; 3]
    = Ok (Tree.set_leaf_nodes new_leaf_nodes split_tree)
    ∧ concat new_leaf_nodes ≡ₚ [2; 3].
Proof.
  destruct (repopulate_leaf_nodes_keeps_samples routing_tree_ops split_tree
              id_feature [2; 3]) as (new_leaf_nodes & Hrun & _ & Hperm & _).
  { intros sample Hs.
    assert (sample = 2 ∨ sample = 3) as [-> | ->].
    { apply list_elem_of_In in Hs. simpl in Hs.
      destruct Hs as [<-|[<-|[]]]; auto. }
    all: exists 2; split; [reflexivity|simpl; lia]. }
  exists new_leaf_nodes. split; [exact Hrun|exact Hperm].
Defined.

Lemma train_prediction_values_witness :
  ∃ tree,
    regression_summaries (Tree.get_prediction_values tree)
    ∧ Tree.get_leaf_samples tree = [[]; [0]; [1; 2]]
    ∧ PredictionValues.empty (Tree.get_prediction_values tree) 0 = Ok true
    ∧ PredictionValues.empty (Tree.get_prediction_values tree) 2 = Ok false.
Proof.
  assert (∃ r, TT.train half_sampler outcome_relabeling root_rule
                 (Some (RPS.strategy sum_debias)) (small_options 1 false)
                 routing_tree_ops 10 id_feature four_column_observations 0 [0; 1; 2]
               = Ok r) as [[[tree g'] calls] Hrun]
    by (eexists; vm_compute; reflexivity).
  destruct (train_prediction_values _ _ _ _ _ _ _ _ _ _ _ _ _ _ Hrun)
    as (_ & _ & Hregression).
  destruct (Hregression sum_debias eq_refl) as [Hshape Hempty].
  assert (Tree.get_leaf_samples tree = [[]; [0]; [1; 2]]) as Hleaves.
  { revert Hrun. vm_compute. by intros [= <- _ _]. }
  exists tree. split; [exact Hshape|]. split; [exact Hleaves|].
  rewrite Hleaves in Hempty.
  split; [exact (Hempty 0 [] eq_refl)|exact (Hempty 2 [1; 2] eq_refl)].
Defined.

End TrainerSteps.

(** * The tree that [train] grows *)

Module TreeShape.

Module TT := TreeTrainer.
Import Notions Examples TreeNotions.

Lemma grown_lookup (v : list nat) (i x node : nat) :
  i < length v →
  (<[i := x]> v ++ [0; 0]) !! node
  = if decide (node = i) then Some x
    else if decide (node < length v) then v !! node
    else if decide (node < length v + 2) then Some 0 else None.
Proof.
  intros Hi. destruct (decide (node = i)) as [->|Hne].
  { rewrite lookup_app_l by (rewrite length_insert; lia).
    by apply list_lookup_insert_eq. }
  destruct (decide (node < length v)) as [Hlt|Hge].
  { rewrite lookup_app_l by (rewrite length_insert; lia).
    by apply list_lookup_insert_ne. }
  rewrite lookup_app_r by (rewrite length_insert; lia). rewrite length_insert.
  destruct (decide (node < length v + 2)) as [Hlt|Hge'].
  - destruct (node - length v) as [|[|k]] eqn:Hk; [reflexivity|reflexivity|lia].
  - destruct (node - length v) as [|[|k]] eqn:Hk; [lia|lia|reflexivity].
Qed.

Ltac grown_lookups :=
  rewrite ?grown_lookup by lia;
  repeat first [rewrite decide_True by lia | rewrite decide_False by lia].

Lemma is_child_lt (left right : list nat) (samples : list (list nat))
    (i parent child : nat) :
  growing left right samples i → is_child left right parent child →
  parent < length samples ∧ child < length samples.
Proof.
  intros (Hl & Hr & Hsettled & Hopen & _) Hchild.
  assert (parent < length samples) as Hp.
  { destruct Hchild as [H|H]; apply lookup_lt_Some in H; lia. }
  split; [exact Hp|].
  destruct (decide (parent < i)) as [Hlt|Hge].
  - destruct (Hsettled parent Hlt) as [[H0 H1]|(c & H0 & H1 & _ & Hc & _)];
      destruct Hchild as [H|H]; rewrite H in *; simplify_eq; lia.
  - destruct (Hopen parent) as [H0 H1]; [lia|].
    destruct Hchild as [H|H]; rewrite H in *; simplify_eq; lia.
Qed.

(** One more split: node [i] gets the two new nodes as its children and
    loses its samples. *)
Lemma growing_split (left right : list nat) (samples : list (list nat))
    (i : nat) (left_samples right_samples : list nat) :
  i < length samples →
  growing left right samples i →
  growing (<[i := length samples]> left ++ [0; 0])
          (<[i := S (length samples)]> right ++ [0; 0])
          (<[i := []]> (samples ++ [left_samples; right_samples])) (S i).
Proof.
  intros Hi Hg. pose proof Hg as (Hl & Hr & Hsettled & Hopen & Hparent).
  set (n := length samples) in *.
  assert (length (<[i := []]> (samples ++ [left_samples; right_samples])) = n + 2)
    as Hlen by (rewrite length_insert, length_app; simpl; lia).
  assert (∀ node, node ≠ i → node < n →
            <[i := []]> (samples ++ [left_samples; right_samples]) !! node
            = samples !! node) as Hsame.
  { intros node Hne Hlt. rewrite list_lookup_insert_ne by lia.
    by apply lookup_app_l. }
  assert (∀ node, node ≠ i → node < n → childless left right node →
            childless (<[i := n]> left ++ [0; 0]) (<[i := S n]> right ++ [0; 0]) node)
    as Hchildless.
  { intros node Hne Hlt [H0 H1]. split; grown_lookups; assumption. }
  assert (∀ parent child,
            is_child (<[i := n]> left ++ [0; 0]) (<[i := S n]> right ++ [0; 0])
              parent child →
            0 < child →
            (parent = i ∧ (child = n ∨ child = S n))
            ∨ (parent ≠ i ∧ is_child left right parent child)) as Hinv.
  { intros parent child Hc Hpos. unfold is_child in Hc.
    rewrite !grown_lookup in Hc by lia.
    destruct (decide (parent = i)) as [->|Hne].
    { left. split; [reflexivity|]. destruct Hc as [H|H]; simplify_eq; auto. }
    right. split; [exact Hne|]. rewrite Hl, Hr in Hc. fold n in Hc.
    destruct (decide (parent < n)); [exact Hc|].
    destruct (decide (parent < n + 2)); destruct Hc as [H|H]; simplify_eq; lia. }
  split; [rewrite length_app, length_insert, Hlen; simpl; lia|].
  split; [rewrite length_app, length_insert, Hlen; simpl; lia|].
  split; [|split].
  - intros node Hnode. destruct (decide (node = i)) as [->|Hne].
    + right. exists n. grown_lookups. rewrite Hlen. split; [reflexivity|]. split; [reflexivity|].
      split; [lia|]. split; [lia|].
      apply list_lookup_insert_eq. rewrite length_app. simpl. lia.
    + destruct (Hsettled node) as [Hleaf|(c & H0 & H1 & Hlt & Hc & Hnil)]; [lia| |].
      * left. apply Hchildless; [lia|lia|exact Hleaf].
      * right. exists c. grown_lookups. rewrite Hlen, Hsame by lia. fold n in Hc. auto with lia.
  - intros node Hnode. rewrite Hlen in Hnode.
    destruct (decide (node < n)) as [Hlt|Hge].
    + apply Hchildless; [lia|lia|]. apply Hopen. lia.
    + split; grown_lookups; reflexivity.
  - intros child Hchild. rewrite Hlen in Hchild.
    destruct (decide (child < n)) as [Hlt|Hge].
    + destruct (Hparent child) as (parent & Hp & Hc & Huniq); [lia|].
      assert (parent ≠ i) as Hne.
      { intros ->. destruct (Hopen i) as [H0 H1]; [lia|].
        destruct Hc as [H|H]; rewrite H in *; simplify_eq; lia. }
      exists parent. split; [exact Hp|]. split.
      * unfold is_child. grown_lookups. exact Hc.
      * intros parent' Hc'. destruct (Hinv _ _ Hc') as [[-> Hn]|[_ Hold]]; [lia|lia|].
        by apply Huniq.
    + exists i. split; [lia|]. split.
      * unfold is_child. grown_lookups.
        assert (child = n ∨ child = S n) as [->| ->] by lia; auto.
      * intros parent' Hc'. destruct (Hinv _ _ Hc') as [[-> _]|[_ Hold]];
          [lia|reflexivity|].
        apply (is_child_lt _ _ _ _ _ _ Hg) in Hold. fold n in Hold. lia.
Qed.

Section Trainer.

Context {G R : Type}.
Variable random_sampler : RandomSampler G.
Variable relabeling_strategy : RelabelingStrategy.
Variable splitting_rule_factory : SplittingRule R.
Variable prediction_strategy : option OptimizedPredictionStrategy.
Variable options : TreeOptions.
Variable tree_ops : Tree.Ops.

Local Abbreviation state := (TT.state (G := G) (R := R)).

Lemma create_empty_node_children (st st' : state) (left right : list nat) :
  TT.create_empty_node st = Ok st' →
  TT.child_nodes st = [left; right] →
  TT.child_nodes st' = [left ++ [0]; right ++ [0]].
Proof.
  unfold TT.create_empty_node. intros H Hcn. rewrite Hcn in H.
  simpl in H. by injection H as <-.
Qed.

(** The child vectors after [split_node]: unchanged when the node is a
    leaf, and else with the two new nodes recorded at [node] and two more
    entries. *)
Lemma split_node_children node data observations split_select_weights
    (st st' : state) (b : bool) (left right : list nat) :
  TT.split_node random_sampler relabeling_strategy splitting_rule_factory
    options node data observations split_select_weights st = Ok (b, st') →
  TT.child_nodes st = [left; right] →
  length left = length (TT.samples st) →
  length right = length (TT.samples st) →
  node < length (TT.samples st)
  ∧ if b then TT.child_nodes st' = [left; right]
    else TT.child_nodes st'
         = [<[node := length (TT.samples st)]> left ++ [0; 0];
            <[node := S (length (TT.samples st))]> right ++ [0; 0]].
Proof.
  unfold TT.split_node. intros H Hchildren Hl Hr.
  destruct (TT.create_split_variable_subset _ _ _ _ _ _) as [possible_split_vars g].
  bind_inv H as r Hint. destruct r as [stop st1].
  apply TrainerFacts.split_node_internal_frame in Hint
    as (Hsamples & Hcn & _ & Hnlt).
  simpl in Hsamples, Hcn, Hnlt. split; [exact Hnlt|].
  destruct stop.
  { injection H as <- <-. by rewrite Hcn. }
  bind_inv H as split_var Hvar. bind_inv H as split_value Hvalue.
  bind_inv H as cn Hset0. bind_inv H as st2 Hst2.
  bind_inv H as cn' Hset1. bind_inv H as st3 Hst3.
  bind_inv H as node_samples Hnode. bind_inv H as s Hs. injection H as <- <-.
  rewrite Hcn, Hchildren in Hset0.
  apply TrainerFacts.set_at_inv in Hset0 as (c0 & Hc0 & Hlt0 & ->).
  injection Hc0 as <-. simpl in Hst2.
  pose proof (create_empty_node_children _ _ _ _ Hst2 eq_refl) as Hcn2.
  apply TrainerFacts.create_empty_node_inv in Hst2 as (_ & Hs2 & _).
  simpl in Hs2. rewrite Hcn2 in Hset1.
  apply TrainerFacts.set_at_inv in Hset1 as (c1 & Hc1 & Hlt1 & ->).
  injection Hc1 as <-. simpl in Hst3.
  pose proof (create_empty_node_children _ _ _ _ Hst3 eq_refl) as Hcn3.
  simpl. rewrite Hcn3, Hs2, Hsamples, length_app. simpl.
  rewrite Nat.add_1_r.
  rewrite insert_app_l by lia.
  by rewrite <- !app_assoc.
Qed.

Lemma train_loop_binary_tree (data : Data) (observations : Observations.t)
    (fuel : nat) :
  ∀ (num_open_nodes i : nat) (st st' : state) (left right : list nat),
    TT.train_loop random_sampler relabeling_strategy splitting_rule_factory
      options fuel data observations num_open_nodes i st = Ok st' →
    TT.child_nodes st = [left; right] →
    growing left right (TT.samples st) i →
    length (TT.samples st) = i + num_open_nodes →
    0 < length (TT.samples st) →
    binary_tree (TT.child_nodes st') (TT.samples st').
Proof.
  induction fuel as [|fuel IH]; intros [|num_open_nodes] i st st' left right H;
    simpl in H; try discriminate.
  1, 2: injection H as <-; intros Hcn (Hl & Hr & Hsettled & _ & Hparent) Hlen Hpos;
    exists left, right; rewrite Nat.add_0_r in Hlen;
    (split; [exact Hcn|]); (split; [exact Hpos|]); (split; [exact Hl|]);
    (split; [exact Hr|]); (split; [|exact Hparent]);
    intros node Hnode; apply Hsettled; lia.
  intros Hcn Hg Hlen Hpos. pose proof Hg as (Hl & Hr & Hsettled & Hopen & Hparent).
  bind_inv H as r Hsplit. destruct r as [is_leaf_node st1].
  pose proof (split_node_children _ _ _ _ _ _ _ _ _ Hsplit Hcn Hl Hr) as [Hi Hcn1].
  apply TrainerFacts.split_node_inv in Hsplit. destruct is_leaf_node.
  - apply (IH _ _ _ _ left right) in H; [exact H|exact Hcn1| |rewrite Hsplit; lia
                                         |rewrite Hsplit; lia].
    rewrite Hsplit. split; [exact Hl|]. split; [exact Hr|].
    split; [|split; [|exact Hparent]].
    + intros node Hnode. destruct (decide (node = i)) as [->|Hne].
      * left. apply Hopen. lia.
      * apply Hsettled. lia.
    + intros node Hnode. apply Hopen. lia.
  - destruct Hsplit as (node_samples & split_var & split_value & lc & rc
                        & _ & _ & _ & _ & _ & _ & _ & Hsamples).
    bind_inv H as nodes Hnodes. apply vec_set_Ok in Hnodes as [_ ->].
    eapply IH in H; [exact H|exact Hcn1| | |]; simpl; rewrite Hsamples.
    + by apply growing_split.
    + rewrite length_insert, length_app. simpl. lia.
    + rewrite length_insert, length_app. simpl. lia.
Qed.

Lemma grow_binary_tree fuel data observations g train_samples new_leaf_samples
    (st : state) :
  TT.grow random_sampler relabeling_strategy splitting_rule_factory options
    fuel data observations g train_samples = Ok (new_leaf_samples, st) →
  binary_tree (TT.child_nodes st) (TT.samples st).
Proof.
  unfold TT.grow. intros H. bind_inv H as st0 Hst0.
  destruct (TT.honesty_split _ _ _ _) as [[root_samples held_out] g'].
  bind_inv H as nodes Hnodes. bind_inv H as st1 Hloop. injection H as _ <-.
  apply vec_set_Ok in Hnodes as [_ ->].
  pose proof (create_empty_node_children _ _ _ _ Hst0 eq_refl) as Hcn0.
  apply TrainerFacts.create_empty_node_inv in Hst0 as (_ & Hs0 & _).
  simpl in Hs0, Hcn0.
  eapply train_loop_binary_tree in Hloop; [exact Hloop|exact Hcn0| | |];
    simpl; rewrite Hs0; simpl; [|reflexivity|lia].
  split; [reflexivity|]. split; [reflexivity|]. split; [intros node Hn; lia|].
  split.
  - intros node Hn. assert (node = 0) as -> by (simpl in Hn; lia). by split.
  - intros child Hc. simpl in Hc. lia.
Qed.

(** X19. The tree that [train] returns when no samples are held out for
    repopulation is a binary tree rooted at node 0, whatever the splitting
    rule does: there are two child vectors, as long as the vector of leaf
    samples; every node either has no children (both entries 0) or has
    two consecutive children with larger ids and keeps no samples itself;
    and every node but the root is the child of exactly one node, which
    comes before it. *)
Theorem train_binary_tree
    (fuel : nat) (data : Data) (observations : Observations.t) (g g' : G)
    (train_samples : list nat) (tree : Tree.t) (calls : list TT.call) :
  TT.train random_sampler relabeling_strategy splitting_rule_factory
    prediction_strategy options tree_ops fuel data observations g train_samples
  = Ok (tree, g', calls) →
  (TT.honesty_split random_sampler options g train_samples).1.2 = [] →
  Tree.root_node tree = 0
  ∧ binary_tree (Tree.child_nodes tree) (Tree.get_leaf_samples tree).
Proof.
  unfold TT.train. intros H Hheld. bind_inv H as r Hgrow.
  destruct r as [new_leaf_samples st].
  pose proof (TrainerFacts.grow_inv _ _ _ _ _ _ _ _ _ _ _ Hgrow) as [Hnew _].
  rewrite Hheld in Hnew. subst new_leaf_samples.
  apply grow_binary_tree in Hgrow.
  rewrite bool_decide_false in H by (intros Hne; by apply Hne).
  cbn [bind] in H. bind_inv H as r Hpre. destruct r as [pv st1].
  injection H as <- _ _. split; [reflexivity|exact Hgrow].
Qed.

End Trainer.

(** Three samples, one split at the root: three nodes, the root with the
    children 1 and 2. *)
Lemma train_binary_tree_witness :
  ∃ tree,
    Tree.child_nodes tree = [[1; 0; 0]; [2; 0; 0]]
    ∧ binary_tree (Tree.child_nodes tree) (Tree.get_leaf_samples tree).
Proof.
  assert (∃ r, TT.train half_sampler outcome_relabeling root_rule
                 None (small_options 1 false)
                 routing_tree_ops 10 id_feature four_column_observations 0 [0; 1; 2]
               = Ok r) as [[[tree g'] calls] Hrun]
    by (eexists; vm_compute; reflexivity).
  destruct (train_binary_tree _ _ _ _ _ _ _ _ _ _ _ _ _ _ Hrun eq_refl)
    as [_ Hshape].
  exists tree. split; [|exact Hshape].
  revert Hrun. vm_compute. by intros [= <- _ _].
Defined.

End TreeShape.

(** * The collector averages the summaries of the leaves *)

Module RegressionMean.

Module OPC := OptimizedPredictionCollector.
Module RPS := RegressionPredictionStrategy.
Import Shapes Examples MoreExamples CollectorNotions MeanNotions.




Section Collector.

Variable debias : double → double → double → double.
Variable ci_group_size : Z.




End Collector.


End RegressionMean.
